(** * Scheduling and booking engine of the salon receptionist (src/app.py)

    A shallow embedding of the date/time normaliser, the hours resolver,
    the slot generator, the availability engine and the booking
    transactor, followed by the properties stated about them.

    Conventions of the embedding.
    - A Python [str] is a [string] whose characters are the code points
      0 to 255 (Latin-1); the character classes below are the ones
      CPython uses on that range.
    - A Python [int] is a [Z].
    - A call that may raise, or loop for ever, returns a [res]: [Ok v]
      when it returns [v], [Fail e] otherwise.  A [try/except Exception]
      block of the source becomes a match on the [res] of its body.
    - The integers are unbounded: the interpreter's limit on the length
      of a decimal literal that [int(s)] reads and [format] prints (4300
      digits by default) is outside the embedding.  [int(s)] raises here
      on what is not a decimal literal, the digits [str.isdigit] accepts
      and [int] does not included.
    - The JSON files are the fields of a [World]; reading and writing
      them succeeds, and a read sees the last write.  Reading the clock
      gives the field [now], which does not advance during one call.
    - The sessions of the process share the files: what the others write
      between the re-check and the commit of [book_appointment] is the
      parameter [others] of [book_appointment_with]. *)

From Stdlib Require Import ZArith String Ascii List Lia ZifyBool Bool Permutation Sorted.
From stdpp Require Import base option list gmap strings.

Local Open Scope string_scope.
Local Open Scope Z_scope.
#[local] Arguments String.append !s1 s2.

(** ** Results of calls that may raise *)

Inductive fault : Type :=
| ValueError      (* int(), tuple unpacking, datetime.replace *)
| OverflowError   (* datetime + timedelta past 9999-12-31 *)
| Diverges.       (* a [while] loop that never exits *)

Inductive res (A : Type) : Type :=
| Ok (a : A)
| Fail (e : fault).
Arguments Ok {A} a.
Arguments Fail {A} e.

Definition bind {A B : Type} (m : res A) (k : A -> res B) : res B :=
  match m with
  | Ok a => k a
  | Fail e => Fail e
  end.

Notation "'do' x <- m ; k" := (bind m (fun x => k))
  (at level 10, x name, m at level 100, k at level 200).
Notation "'do' ' pat <- m ; k" := (bind m (fun x => match x with pat => k end))
  (at level 10, pat pattern, m at level 100, k at level 200).

(** [try: body except Exception: handler] *)
Definition try_except {A : Type} (body : res A) (handler : A) : A :=
  match body with
  | Ok a => a
  | Fail _ => handler
  end.

Definition of_option {A : Type} (o : option A) : res A :=
  match o with
  | Some a => Ok a
  | None => Fail ValueError
  end.

(** ** Python's [str] methods, on the code points 0 to 255 *)

Definition code (c : ascii) : Z := Z.of_N (N_of_ascii c).

(** [str.isspace] on one character: TAB..CR, FS..US, the space, NEL
    (U+0085) and the no-break space (U+00A0). *)
Definition isspace (c : ascii) : bool :=
  ((9 <=? code c) && (code c <=? 13)) || ((28 <=? code c) && (code c <=? 32))
  || (code c =? 133) || (code c =? 160).

(** The white space [int()] skips: TAB..CR and the space, and the white
    space above U+007E, which it reads as a space. *)
Definition int_isspace (c : ascii) : bool :=
  ((9 <=? code c) && (code c <=? 13)) || (code c =? 32)
  || (code c =? 133) || (code c =? 160).

(** The decimal digits, which [int()] reads: 0 to 9. *)
Definition isdecimal_char (c : ascii) : bool :=
  (48 <=? code c) && (code c <=? 57).

(** [str.isdigit] on one character: the decimal digits and the
    superscripts two, three and one (U+00B2, U+00B3, U+00B9). *)
Definition isdigit_char (c : ascii) : bool :=
  isdecimal_char c || (code c =? 178) || (code c =? 179) || (code c =? 185).

(** [str.lower] on one character: A..Z and the capital letters U+00C0 to
    U+00DE, the multiplication sign U+00D7 apart. *)
Definition lower_char (c : ascii) : ascii :=
  if ((65 <=? code c) && (code c <=? 90))
     || ((192 <=? code c) && (code c <=? 222) && negb (code c =? 215))
  then ascii_of_N (N_of_ascii c + 32) else c.

(** The capital of a first character, for [str.capitalize]: a..z and the
    small letters U+00E0 to U+00FE, the division sign U+00F7 apart.  The
    micro sign, the sharp s and the y with diaeresis, whose capitals lie
    beyond U+00FF, are left as they are: like their capitals they are no
    letter of [WEEKDAY_NAMES], the only strings a capitalised one is
    compared with. *)
Definition upper_char (c : ascii) : ascii :=
  if ((97 <=? code c) && (code c <=? 122))
     || ((224 <=? code c) && (code c <=? 254) && negb (code c =? 247))
  then ascii_of_N (N_of_ascii c - 32) else c.

Fixpoint str_map (f : ascii -> ascii) (s : string) : string :=
  match s with
  | EmptyString => EmptyString
  | String c s' => String (f c) (str_map f s')
  end.

Fixpoint str_forallb (p : ascii -> bool) (s : string) : bool :=
  match s with
  | EmptyString => true
  | String c s' => p c && str_forallb p s'
  end.

Fixpoint str_existsb (p : ascii -> bool) (s : string) : bool :=
  match s with
  | EmptyString => false
  | String c s' => p c || str_existsb p s'
  end.

(** [s.lower()] *)
Definition lower (s : string) : string := str_map lower_char s.

(** [s.capitalize()] *)
Definition capitalize (s : string) : string :=
  match s with
  | EmptyString => EmptyString
  | String c s' => String (upper_char c) (lower s')
  end.

Fixpoint lstrip_with (sp : ascii -> bool) (s : string) : string :=
  match s with
  | EmptyString => EmptyString
  | String c s' => if sp c then lstrip_with sp s' else s
  end.

Fixpoint rstrip_with (sp : ascii -> bool) (s : string) : string :=
  match s with
  | EmptyString => EmptyString
  | String c s' =>
      match rstrip_with sp s' with
      | EmptyString => if sp c then EmptyString else String c EmptyString
      | r => String c r
      end
  end.

Definition strip_with (sp : ascii -> bool) (s : string) : string :=
  rstrip_with sp (lstrip_with sp s).

(** [s.strip()] *)
Definition strip (s : string) : string := strip_with isspace s.

(** [s[:n]] and [s[n:]] for [n >= 0] *)
Fixpoint str_take (n : nat) (s : string) : string :=
  match n, s with
  | S k, String c s' => String c (str_take k s')
  | _, _ => EmptyString
  end.

Fixpoint str_drop (n : nat) (s : string) : string :=
  match n, s with
  | S k, String _ s' => str_drop k s'
  | _, _ => s
  end.

(** [s[-n:]] and [s[:-n]] for [n > 0] *)
Definition take_last (n : nat) (s : string) : string :=
  str_drop (String.length s - n) s.

Definition drop_last (n : nat) (s : string) : string :=
  str_take (String.length s - n) s.

(** [s.startswith(p)], [s.endswith(p)], [k in s] *)
Fixpoint startswith (p s : string) : bool :=
  match p, s with
  | EmptyString, _ => true
  | String a p', String b s' => Ascii.eqb a b && startswith p' s'
  | String _ _, EmptyString => false
  end.

Definition endswith (p s : string) : bool :=
  (String.length p <=? String.length s)%nat && String.eqb (take_last (String.length p) s) p.

Fixpoint contains (k s : string) : bool :=
  startswith k s ||
  match s with
  | EmptyString => false
  | String _ s' => contains k s'
  end.

(** [s.replace(old, new)] for a non-empty [old]: left to right, without
    overlaps.  [skip] counts the characters of a match still to drop. *)
Fixpoint replace_from (old new : string) (skip : nat) (s : string) : string :=
  match s with
  | EmptyString => EmptyString
  | String c s' =>
      match skip with
      | S k => replace_from old new k s'
      | O =>
          if startswith old s
          then new ++ replace_from old new (String.length old - 1) s'
          else String c (replace_from old new O s')
      end
  end.

Definition replace (old new s : string) : string := replace_from old new O s.

(** [s.split(sep)] for a separator of one character *)
Fixpoint split_on (sep : ascii) (s : string) : list string :=
  match s with
  | EmptyString => [EmptyString]
  | String c s' =>
      if Ascii.eqb c sep then EmptyString :: split_on sep s'
      else match split_on sep s' with
           | p :: ps => String c p :: ps
           | [] => [String c EmptyString]
           end
  end.

(** [s.split()]: runs of white space separate, none at the ends *)
Fixpoint split_ws (s : string) : list string :=
  match s with
  | EmptyString => []
  | String c s' =>
      if isspace c then split_ws s'
      else match s' with
           | EmptyString => [String c EmptyString]
           | String c' _ =>
               if isspace c' then String c EmptyString :: split_ws s'
               else match split_ws s' with
                    | p :: ps => String c p :: ps
                    | [] => [String c EmptyString]
                    end
           end
  end.

(** [s.isdigit()] *)
Definition isdigit (s : string) : bool :=
  match s with
  | EmptyString => false
  | _ => str_forallb isdigit_char s
  end.

(** ** [int(s)] and the [{:02d}] format *)

Definition digit_val (c : ascii) : Z := code c - 48.

(** The digits of a literal, with single underscores between digits. *)
Fixpoint int_digits (acc : Z) (after_digit : bool) (s : string) : option Z :=
  match s with
  | EmptyString => if after_digit then Some acc else None
  | String c s' =>
      if isdecimal_char c then int_digits (acc * 10 + digit_val c) true s'
      else if Ascii.eqb c "_" && after_digit then int_digits acc false s'
      else None
  end.

(** [int(s)]: white space around, an optional sign, then decimal digits,
    with single underscores between them; [ValueError] on anything else,
    the superscript digits included.  The [ValueError] of the interpreter
    on a literal of more than 4300 digits is not modelled: the properties
    that depend on it bound the length of the input. *)
Definition int (s : string) : res Z :=
  match strip_with int_isspace s with
  | EmptyString => Fail ValueError
  | String c r =>
      if Ascii.eqb c "+" then of_option (int_digits 0 false r)
      else if Ascii.eqb c "-" then of_option (option_map Z.opp (int_digits 0 false r))
      else of_option (int_digits 0 false (String c r))
  end.

Definition digit_char (d : Z) : ascii := ascii_of_N (Z.to_N (48 + d)).

(** The decimal digits of [n >= 0], least significant first. *)
Fixpoint dec_rev (fuel : nat) (n : Z) : list ascii :=
  match fuel with
  | O => []
  | S f => digit_char (n mod 10) :: (if n <? 10 then [] else dec_rev f (n / 10))
  end.

Definition dec (n : Z) : string :=
  string_of_list_ascii (rev (dec_rev (S (Z.to_nat (Z.log2 n))) n)).

(** [f"{n:02d}"]: at least two characters, the sign counted, zero filled *)
Definition fmt02d (n : Z) : string :=
  if n <? 0 then String "-" (dec (- n))
  else if n <? 10 then String "0" (dec n)
  else dec n.

(** [f"{n:04d}"] for [n >= 0]: four digits, zero filled; the year of an
    ISO date. *)
Definition fmt04d (n : Z) : string :=
  if n <? 10 then "000" ++ dec n
  else if n <? 100 then "00" ++ dec n
  else if n <? 1000 then "0" ++ dec n
  else dec n.

(** ** [datetime]: the proleptic Gregorian calendar of CPython *)

Record datetime : Type := mkDatetime {
  year : Z;
  month : Z;
  day : Z;
  hour : Z;
  minute : Z
}.

Definition MINYEAR : Z := 1.
Definition MAXYEAR : Z := 9999.

Definition _is_leap (y : Z) : bool :=
  (y mod 4 =? 0) && (negb (y mod 100 =? 0) || (y mod 400 =? 0)).

Definition _days_before_year (y : Z) : Z :=
  let y := y - 1 in y * 365 + y / 4 - y / 100 + y / 400.

Definition _DAYS_IN_MONTH (m : Z) : Z :=
  if (m =? 2) then 28
  else if (m =? 4) || (m =? 6) || (m =? 9) || (m =? 11) then 30
  else 31.

Definition _DAYS_BEFORE_MONTH (m : Z) : Z :=
  match m with
  | 1 => 0 | 2 => 31 | 3 => 59 | 4 => 90 | 5 => 120 | 6 => 151
  | 7 => 181 | 8 => 212 | 9 => 243 | 10 => 273 | 11 => 304 | _ => 334
  end.

Definition _days_in_month (y m : Z) : Z :=
  if (m =? 2) && _is_leap y then 29 else _DAYS_IN_MONTH m.

Definition _days_before_month (y m : Z) : Z :=
  _DAYS_BEFORE_MONTH m + (if (2 <? m) && _is_leap y then 1 else 0).

Definition _ymd2ord (y m d : Z) : Z :=
  _days_before_year y + _days_before_month y m + d.

(** [dt.toordinal()] and [dt.weekday()] (Monday is 0) *)
Definition toordinal (dt : datetime) : Z := _ymd2ord (year dt) (month dt) (day dt).
Definition weekday (dt : datetime) : Z := (toordinal dt + 6) mod 7.

(** The field checks every [datetime] passes when it is built. *)
Definition valid_ymd (y m d : Z) : bool :=
  (MINYEAR <=? y) && (y <=? MAXYEAR) && (1 <=? m) && (m <=? 12) &&
  (1 <=? d) && (d <=? _days_in_month y m).

Definition valid_datetime (dt : datetime) : bool :=
  valid_ymd (year dt) (month dt) (day dt) &&
  (0 <=? hour dt) && (hour dt <=? 23) && (0 <=? minute dt) && (minute dt <=? 59).

(** [dt.replace(hour=0, minute=0, second=0, microsecond=0)] *)
Definition at_midnight (dt : datetime) : datetime :=
  mkDatetime (year dt) (month dt) (day dt) 0 0.

(** [anchor.replace(year=y, month=m, day=d, hour=0, minute=0, ...)] *)
Definition replace_date (anchor : datetime) (y m d : Z) : res datetime :=
  if valid_ymd y m d then Ok (mkDatetime y m d 0 0) else Fail ValueError.

(** [dt + timedelta(days=1)] *)
Definition next_day (dt : datetime) : res datetime :=
  if day dt <? _days_in_month (year dt) (month dt)
  then Ok (mkDatetime (year dt) (month dt) (day dt + 1) (hour dt) (minute dt))
  else if month dt <? 12
  then Ok (mkDatetime (year dt) (month dt + 1) 1 (hour dt) (minute dt))
  else if year dt <? MAXYEAR
  then Ok (mkDatetime (year dt + 1) 1 1 (hour dt) (minute dt))
  else Fail OverflowError.

(** [dt + timedelta(days=n)] for [n >= 0] *)
Fixpoint plus_days (dt : datetime) (n : nat) : res datetime :=
  match n with
  | O => Ok dt
  | S k => do dt' <- next_day dt; plus_days dt' k
  end.

(** [dt.strftime("%Y-%m-%d")] and [dt.strftime("%H:%M")].  [%Y] is the
    year as the C library prints it, which on the Linux hosts the
    application runs on (glibc) is without zero filling: [999-01-01] for
    the first day of the year 999. *)
Definition strftime_date (dt : datetime) : string :=
  dec (year dt) ++ "-" ++ fmt02d (month dt) ++ "-" ++ fmt02d (day dt).

Definition strftime_hm (dt : datetime) : string :=
  fmt02d (hour dt) ++ ":" ++ fmt02d (minute dt).

(** ** Utility: time helpers (src/app.py, lines 279-449) *)

Definition WEEKDAY_NAMES : list string :=
  ["Mon"; "Tue"; "Wed"; "Thu"; "Fri"; "Sat"; "Sun"].

(** [WEEKDAY_NAMES.index(name)] when [name in WEEKDAY_NAMES] *)
Fixpoint list_index (name : string) (l : list string) : option Z :=
  match l with
  | [] => None
  | x :: l' => if String.eqb x name then Some 0 else option_map Z.succ (list_index name l')
  end.

(** [WEEKDAY_NAMES[i]] for an index [dt.weekday()] gives *)
Definition weekday_name (i : Z) : string := nth (Z.to_nat i) WEEKDAY_NAMES "".

Definition DAYPARTS : list (string * (string * string)) :=
  [ ("morning",   ("00:00", "11:59"));
    ("afternoon", ("12:00", "16:59"));
    ("evening",   ("17:00", "20:59"));
    ("night",     ("21:00", "23:59")) ].

Fixpoint extract_daypart_loop (parts : list (string * (string * string))) (s : string)
  : string * option (string * string) :=
  match parts with
  | [] => (s, None)
  | (k, rng) :: parts' =>
      if contains k s then (strip (replace k "" s), Some rng)
      else extract_daypart_loop parts' s
  end.

Definition extract_daypart (s : string) : string * option (string * string) :=
  let s := lower (strip s) in
  extract_daypart_loop DAYPARTS s.

Definition _weekday_index (name : string) : option Z :=
  let name := capitalize (str_take 3 name) in
  list_index name WEEKDAY_NAMES.

(** The body of the first [try] of [parse_natural_date]: ISO yyyy-mm-dd.
    [Ok None] when the [if] is not taken. *)
Definition parse_iso (s : string) (anchor : datetime) : res (option datetime) :=
  if (String.length s =? 10)%nat && String.eqb (str_take 1 (str_drop 4 s)) "-"
     && String.eqb (str_take 1 (str_drop 7 s)) "-"
  then match split_on "-" s with
       | [y; m; d] =>
           do yv <- int y; do mv <- int m; do dv <- int d;
           do r <- replace_date anchor yv mv dv; Ok (Some r)
       | _ => Fail ValueError
       end
  else Ok None.

(** The body of the second [try]: MM/DD in the anchor's year. *)
Definition parse_slash (s : string) (anchor : datetime) : res (option datetime) :=
  if contains "/" s
  then match split_on "/" s with
       | [m; d] =>
           do mv <- int m; do dv <- int d;
           do r <- replace_date anchor (year anchor) mv dv; Ok (Some r)
       | _ => Fail ValueError
       end
  else Ok None.

Definition str_in (s : string) (l : list string) : bool :=
  existsb (String.eqb s) l.

Definition parse_natural_date (phrase : string) (anchor : datetime) : res (option datetime) :=
  let s := lower (strip phrase) in
  if String.eqb s "" then Ok None else
  match try_except (parse_iso s anchor) None with
  | Some r => Ok (Some r)
  | None =>
  match try_except (parse_slash s anchor) None with
  | Some r => Ok (Some r)
  | None =>
  if str_in s ["today"; "todays"; "to day"] then Ok (Some (at_midnight anchor))
  else if str_in s ["tomorrow"; "tmrw"; "tmr"]
  then do r <- plus_days anchor 1; Ok (Some (at_midnight r))
  else
    let toks := split_ws s in
    match (match toks with [tok] => _weekday_index tok | _ => None end) with
    | Some day_idx =>
        let delta := (day_idx - weekday anchor) mod 7 in
        do r <- plus_days anchor (Z.to_nat delta); Ok (Some (at_midnight r))
    | None =>
    match (match toks with
           | [t0; t1] => if String.eqb t0 "next" then _weekday_index t1 else None
           | _ => None
           end) with
    | Some day_idx =>
        let delta := let d := (day_idx - weekday anchor) mod 7 in
                     if d =? 0 then 7 else d in
        do r <- plus_days anchor (Z.to_nat delta); Ok (Some (at_midnight r))
    | None => Ok None
    end
    end
  end
  end.

Definition _time_to_minutes (hhmm : string) : res Z :=
  match split_on ":" hhmm with
  | [h; m] => do hv <- int h; do mv <- int m; Ok (hv * 60 + mv)
  | _ => Fail ValueError
  end.

Definition _minutes_to_time (m : Z) : string :=
  let h := m / 60 in
  let mm := m mod 60 in
  fmt02d h ++ ":" ++ fmt02d mm.

(** The three lines every reader of a stored range repeats inside its
    [try]: [rs, re = r.split("-")], then [_time_to_minutes] of each. *)
Definition range_minutes (r : string) : res (Z * Z) :=
  match split_on "-" r with
  | [rs; re] => do rs_m <- _time_to_minutes rs; do re_m <- _time_to_minutes re; Ok (rs_m, re_m)
  | _ => Fail ValueError
  end.

(** [while t + service_min <= end: slots.append(...); t += slot_interval] *)
Fixpoint slots_while (fuel : nat) (t end_ slot_interval service_min : Z) : res (list string) :=
  match fuel with
  | O => Fail Diverges
  | S f =>
      if t + service_min <=? end_
      then do rest <- slots_while f (t + slot_interval) end_ slot_interval service_min;
           Ok (_minutes_to_time t :: rest)
      else Ok []
  end.

(** Tests of the loop condition that suffice whenever the loop exits: with
    a step of at least one minute it exits within that many tests; with a
    step of zero or less a condition that holds once holds for ever. *)
Definition slots_fuel (start end_ service_min : Z) : nat :=
  S (Z.to_nat (end_ - service_min - start + 1)).

Fixpoint _expand_ranges_to_slots (ranges : list string) (slot_interval service_min : Z)
  : res (list string) :=
  match ranges with
  | [] => Ok []
  | r :: ranges' =>
      match range_minutes r with
      | Fail _ => _expand_ranges_to_slots ranges' slot_interval service_min
      | Ok (start, end_) =>
          do here <- slots_while (slots_fuel start end_ service_min)
                                 start end_ slot_interval service_min;
          do rest <- _expand_ranges_to_slots ranges' slot_interval service_min;
          Ok (here ++ rest)%list
      end
  end.

(** The half-open test of both conflict checks. *)
Definition conflicts (start end_ : Z) (r : string) : bool :=
  match range_minutes r with
  | Ok (rs_m, re_m) => (start <? re_m) && (end_ >? rs_m)
  | Fail _ => false
  end.

Fixpoint _subtract_appointments (slots taken_ranges : list string) (service_min : Z)
  : res (list string) :=
  match slots with
  | [] => Ok []
  | s :: slots' =>
      do start <- _time_to_minutes s;
      let end_ := start + service_min in
      let conflict := existsb (conflicts start end_) taken_ranges in
      do keep <- _subtract_appointments slots' taken_ranges service_min;
      Ok (if conflict then keep else s :: keep)
  end.

(** [_normalize_time_to_hhmm], in the order of its statements. *)

(** [t = s.strip().lower().replace(".", ":").replace(" ", "")] *)
Definition clean_time (s : string) : string :=
  replace " " "" (replace "." ":" (lower (strip s))).

(** [if t.endswith("am") or t.endswith("pm"): ampm = t[-2:]; t = t[:-2]] *)
Definition split_ampm (t : string) : option string * string :=
  if endswith "am" t || endswith "pm" t
  then (Some (take_last 2 t), drop_last 2 t)
  else (None, t).

(** The [if t.isdigit(): ... else: ...] that reads [h] and [m]; [Ok None]
    where the source returns [None]. *)
Definition read_hour_minute (t : string) : res (option (Z * Z)) :=
  if isdigit t then do h <- int t; Ok (Some (h, 0))
  else if contains ":" t
  then match split_on ":" t with
       | [p0; p1] =>
           if isdigit p0 && isdigit p1
           then do h <- int p0; do m <- int p1; Ok (Some (h, m))
           else Ok None
       | _ => Ok None
       end
  else Ok None.

(** [if ampm: ...], the range check and the format. *)
Definition finish_time (ampm : option string) (h m : Z) : option string :=
  let h := match ampm with
           | Some ap =>
               if String.eqb ap "am" then (if h =? 12 then 0 else h)
               else (if negb (h =? 12) then h + 12 else h)
           | None => h
           end in
  if negb ((0 <=? h) && (h <=? 23) && (0 <=? m) && (m <=? 59)) then None
  else Some (fmt02d h ++ ":" ++ fmt02d m).

Definition _normalize_time_to_hhmm (s : string) : res (option string) :=
  if String.eqb s "" then Ok None else
  let t := clean_time s in
  let '(ampm, t) := split_ampm t in
  do hm <- read_hour_minute t;
  match hm with
  | None => Ok None
  | Some (h, m) => Ok (finish_time ampm h m)
  end.

(** ** The stores: working_hours.json, services.json, calendar.json,
       bookings.json, and the clock *)

Record Working : Type := mkWorking {
  slot_interval_minutes : Z;                  (* int(working.get(..., 15)) *)
  weekly_hours : gmap string (list string);
  exceptions : gmap string (list string)
}.

(** One entry of services.json; [svc_duration] is [int(s.get("duration", 30))],
    [None] when that conversion raises. *)
Record Service : Type := mkService {
  svc_name : string;
  svc_duration : option Z
}.

Record BookingRecord : Type := mkBookingRecord {
  rec_date : string;
  rec_start : string;
  rec_end : string;
  rec_service : option string;
  rec_duration_minutes : Z;
  rec_client : string * string * string;      (* name, phone, email *)
  rec_created_at : datetime
}.

Record World : Type := mkWorld {
  working : Working;
  services : list Service;
  appointments : gmap string (list string);   (* calendar.json *)
  bookings : list BookingRecord;              (* bookings.json *)
  now : datetime                              (* now_in_salon_tz() *)
}.

Definition set_appointments (w : World) (a : gmap string (list string)) : World :=
  mkWorld (working w) (services w) a (bookings w) (now w).

Fixpoint _get_service_minutes_loop (svcs : list Service) (name : string) : Z :=
  match svcs with
  | [] => 30
  | s :: svcs' =>
      if String.eqb (lower (svc_name s)) (lower (strip name))
      then match svc_duration s with
           | Some d => d
           | None => _get_service_minutes_loop svcs' name
           end
      else _get_service_minutes_loop svcs' name
  end.

Definition _get_service_minutes (w : World) (name : option string) : Z :=
  match name with
  | Some (String c n) => _get_service_minutes_loop (services w) (String c n)
  | _ => 30
  end.

Definition _append_booking_record (w : World) (date_str start_hhmm end_hhmm : string)
    (service_name : option string) (duration_min : Z) (client_name phone email : string)
  : World :=
  let rec := mkBookingRecord date_str start_hhmm end_hhmm service_name duration_min
                             (client_name, phone, email) (now w) in
  mkWorld (working w) (services w) (appointments w) (bookings w ++ [rec])%list (now w).

Definition _get_taken_ranges_from_calendar (w : World) (date_str : string) : list string :=
  default [] (appointments w !! date_str).

(** [sorted(l, key=key)]: stable, smallest key first *)
Fixpoint insert_by {A : Type} (key : A -> Z) (x : A) (l : list A) : list A :=
  match l with
  | [] => [x]
  | y :: l' => if key x <=? key y then x :: l else y :: insert_by key x l'
  end.

Definition sorted_by {A : Type} (key : A -> Z) (l : list A) : list A :=
  foldr (insert_by key) [] l.

Definition _sort_key (rr : string) : Z :=
  try_except (match split_on "-" rr with
              | [ss; _ee] => _time_to_minutes ss
              | _ => Fail ValueError
              end) 0.

Fixpoint filter_res {A : Type} (p : A -> res bool) (l : list A) : res (list A) :=
  match l with
  | [] => Ok []
  | x :: l' => do b <- p x; do r <- filter_res p l'; Ok (if b then x :: r else r)
  end.

Fixpoint map_res {A B : Type} (f : A -> res B) (l : list A) : res (list B) :=
  match l with
  | [] => Ok []
  | x :: l' => do y <- f x; do r <- map_res f l'; Ok (y :: r)
  end.

Definition MSG_PARSE : string := "Could not parse date.".
Definition MSG_BAD_TIME : string := "Please enter time as HH:MM (e.g., 09:00 or 1:30 pm).".
Definition MSG_CLOSED : string := "The salon is closed that day.".
Definition MSG_NOT_AVAILABLE : string := "That start time isn’t available.".
Definition MSG_INVALID_START : string := "Invalid start time format. Use HH:MM.".
Definition MSG_JUST_TAKEN : string := "That time was just taken. Please pick another slot.".
Definition MSG_CONFIRMED : string := "Your appointment is confirmed!".

(** The dict [get_hours] returns; a field is [None] when the key is absent
    or holds [None]. *)
Record HoursResult : Type := mkHours {
  h_error : option string;
  h_date : option string;
  h_weekday : option string;
  h_ranges : option (list string);
  h_opening : option string;
  h_closing : option string;
  h_closed : option bool
}.

(** [rs.split("-")] of every range, stripped, then the first of the starts
    and the last of the ends in the order of [_time_to_minutes]. *)
Definition opening_closing (ranges : list string) : res (string * string) :=
  do pairs <- map_res (fun r => match split_on "-" r with
                               | [s; e] => Ok (strip s, strip e)
                               | _ => Fail ValueError
                               end) ranges;
  let keyed := map_res (fun x => do k <- _time_to_minutes x; Ok (k, x)) in
  do starts <- keyed (map fst pairs);
  do ends <- keyed (map snd pairs);
  match sorted_by fst starts, rev (sorted_by fst ends) with
  | (_, o) :: _, (_, c) :: _ => Ok (o, c)
  | _, _ => Fail ValueError
  end.

(** [exceptions.get(date_str, weekly_hours.get(weekday, []))] *)
Definition lookup_ranges (wk : Working) (date_str wd : string) : list string :=
  match exceptions wk !! date_str with
  | Some l => l
  | None => default [] (weekly_hours wk !! wd)
  end.

Definition or_today (phrase : string) : string :=
  if String.eqb phrase "" then "today" else phrase.

Definition get_hours (w : World) (date_phrase : option string) : res HoursResult :=
  let wk := working w in
  let anchor := now w in
  do date_dt <- parse_natural_date (or_today (default "" date_phrase)) anchor;
  match date_dt with
  | None => Ok (mkHours (Some MSG_PARSE) None None None None None None)
  | Some date_dt =>
      let date_str := strftime_date date_dt in
      let wd := weekday_name (weekday date_dt) in
      let ranges := lookup_ranges wk date_str wd in
      match ranges with
      | [] => Ok (mkHours None (Some date_str) (Some wd) (Some []) None None (Some true))
      | _ =>
          let oc := try_except (do '(o, c) <- opening_closing ranges; Ok (Some o, Some c))
                               (None, None) in
          Ok (mkHours None (Some date_str) (Some wd) (Some ranges) (fst oc) (snd oc)
                      (Some false))
      end
  end.

(** The dict [check_availability] returns. *)
Record AvailResult : Type := mkAvail {
  av_error : option string;
  av_date : option string;
  av_weekday : option string;
  av_service : option string;
  av_duration_minutes : option Z;
  av_available : list string;
  av_total_available : option Z;
  av_closed : option bool
}.

Definition check_availability (w : World) (date_phrase service_name : option string)
    (limit : Z) (daypart : option (string * string)) : res AvailResult :=
  let wk := working w in
  let '(cleaned_phrase, embedded_daypart) := extract_daypart (default "" date_phrase) in
  let daypart := match embedded_daypart, daypart with
                 | Some e, None => Some e
                 | _, _ => daypart
                 end in
  let anchor := now w in
  do date_dt <- parse_natural_date (or_today cleaned_phrase) anchor;
  match date_dt with
  | None => Ok (mkAvail (Some MSG_PARSE) None None None None [] None None)
  | Some date_dt =>
      let date_str := strftime_date date_dt in
      let wd := weekday_name (weekday date_dt) in
      let slot_interval := slot_interval_minutes wk in
      let ranges := match exceptions wk !! date_str with
                    | Some l => l
                    | None => default [] (weekly_hours wk !! wd)
                    end in
      match ranges with
      | [] => Ok (mkAvail None (Some date_str) (Some wd) None None [] None (Some true))
      | _ =>
          let service_min := _get_service_minutes w service_name in
          do all_slots <- _expand_ranges_to_slots ranges slot_interval service_min;
          let taken_ranges := _get_taken_ranges_from_calendar w date_str in
          do free_slots <- _subtract_appointments all_slots taken_ranges service_min;
          do free_slots <-
            match daypart with
            | Some (d0, d1) =>
                do start_m <- _time_to_minutes d0;
                do end_m <- _time_to_minutes d1;
                filter_res (fun s => do t <- _time_to_minutes s;
                                     Ok ((t >=? start_m) && (t + service_min <=? end_m)))
                           free_slots
            | None => Ok free_slots
            end;
          let now_local := now w in
          do free_slots <-
            (if String.eqb date_str (strftime_date now_local)
             then do now_m <- _time_to_minutes (strftime_hm now_local);
                  filter_res (fun s => do t <- _time_to_minutes s;
                                       Ok (t + service_min >? now_m))
                             free_slots
             else Ok free_slots);
          Ok (mkAvail None (Some date_str) (Some wd) service_name (Some service_min)
                      (firstn (Z.to_nat (Z.max 1 limit)) free_slots)
                      (Some (Z.of_nat (List.length free_slots))) None)
      end
  end.

(** The dict [book_appointment] returns. *)
Record BookResult : Type := mkBook {
  success : bool;
  error : option string;
  message : option string;
  alternatives : option (list string);
  b_date : option string;
  b_start_time : option string;
  b_end_time : option string;
  b_service : option string;
  b_duration_minutes : option Z;
  b_client_name : option string
}.

Section Engine.

(** [list(set(l))]: the elements of [l] once each, in the order the
    interpreter's hashing happens to give. *)
Variable set_list : list string -> list string.

Definition _append_appointment (w : World) (date_str start_hhmm : string)
    (duration_min : Z) (client_name phone email : string) : bool * string * World :=
  match _time_to_minutes start_hhmm with
  | Fail _ => (false, MSG_INVALID_START, w)
  | Ok start_m =>
      let end_minutes := start_m + duration_min in
      let end_hhmm := _minutes_to_time end_minutes in
      let taken := _get_taken_ranges_from_calendar w date_str in
      let end_m := end_minutes in
      if existsb (conflicts start_m end_m) taken
      then (false, MSG_JUST_TAKEN, w)
      else
        let stored := default [] (appointments w !! date_str) in
        let new_range := start_hhmm ++ "-" ++ end_hhmm in
        let stored := if str_in new_range stored then stored
                      else (stored ++ [new_range])%list in
        let stored := sorted_by _sort_key (set_list stored) in
        (true, "Booked " ++ date_str ++ " " ++ start_hhmm ++ "-" ++ end_hhmm ++ ".",
         set_appointments w (<[date_str := stored]> (appointments w)))
  end.

(** [others] is what the other sessions of the process write to the stores
    between the re-check and the commit; a session running alone has
    [others = id]. *)
Definition book_appointment_with (others : World -> World) (w : World)
    (date_str start_time : string) (service_name : option string)
    (client_name phone email : string) : res (BookResult * World) :=
  let cleaned_date := fst (extract_daypart date_str) in
  let date_str := if String.eqb cleaned_date "" then date_str else cleaned_date in
  do start_time_norm <- _normalize_time_to_hhmm start_time;
  match start_time_norm with
  | None =>
      Ok (mkBook false (Some MSG_BAD_TIME) None None None None None None None None, w)
  | Some start_time_norm =>
      let duration_min := _get_service_minutes w service_name in
      do avail <- check_availability w (Some date_str) service_name 10000 None;
      if default false (av_closed avail)
      then Ok (mkBook false (Some MSG_CLOSED) None None None None None None None None, w)
      else
        let free_slots := av_available avail in
        if negb (str_in start_time_norm free_slots)
        then Ok (mkBook false (Some MSG_NOT_AVAILABLE) None
                        (Some (firstn 10 free_slots)) (av_date avail) None None
                        service_name (Some duration_min) None, w)
        else
          do avail_date <- of_option (av_date avail);
          let w := others w in
          let '(ok, msg, w) := _append_appointment w avail_date start_time_norm
                                                   duration_min client_name phone email in
          if negb ok
          then do fresh <- check_availability w (Some avail_date) service_name 8 None;
               Ok (mkBook false (Some msg) None (Some (av_available fresh))
                          (Some avail_date) None None service_name (Some duration_min)
                          None, w)
          else
            do start_m <- _time_to_minutes start_time_norm;
            let end_time := _minutes_to_time (start_m + duration_min) in
            let w := _append_booking_record w avail_date start_time_norm end_time
                                            service_name duration_min
                                            client_name phone email in
            Ok (mkBook true None (Some MSG_CONFIRMED) None (Some avail_date)
                       (Some start_time_norm) (Some end_time) service_name
                       (Some duration_min) (Some client_name), w)
  end.

Definition book_appointment : World -> string -> string -> option string ->
                              string -> string -> string -> res (BookResult * World) :=
  book_appointment_with (fun w => w).

End Engine.


(** ** Notions used to state the properties *)

Definition has_char (c : ascii) (s : string) : bool :=
  str_existsb (fun x => Ascii.eqb x c) s.

Definition digits (s : string) : bool := str_forallb isdecimal_char s.

(** [s.isdecimal()]: not empty and of decimal digits only. *)
Definition isdecimal (s : string) : bool :=
  match s with
  | EmptyString => false
  | _ => str_forallb isdecimal_char s
  end.

(** The ISO form [YYYY-MM-DD] of a date. *)
Definition iso_date (dt : datetime) : string :=
  fmt04d (year dt) ++ "-" ++ fmt02d (month dt) ++ "-" ++ fmt02d (day dt).

(** The number a string of digits denotes, continuing from [acc]. *)
Fixpoint str_val (acc : Z) (s : string) : Z :=
  match s with
  | EmptyString => acc
  | String c s' => str_val (acc * 10 + digit_val c) s'
  end.

Fixpoint join (sep : ascii) (l : list string) : string :=
  match l with
  | [] => EmptyString
  | [x] => x
  | x :: l' => x ++ String sep (join sep l')
  end.

(** The number a list of digits denotes, least significant first. *)
Fixpoint val_rev (l : list ascii) : Z :=
  match l with
  | [] => 0
  | d :: l' => digit_val d + 10 * val_rev l'
  end.

(** The hour on the 24-hour clock that [h] with the suffix [sfx] names. *)
Definition to_24h (sfx : string) (h : Z) : Z :=
  if String.eqb sfx "am" then (if h =? 12 then 0 else h)
  else if String.eqb sfx "pm" then (if h =? 12 then 12 else h + 12)
  else h.

(** [HH:MM] when the hour and the minute are in range. *)
Definition hhmm_of (h m : Z) : option string :=
  if (h <=? 23) && (m <=? 59) then Some (fmt02d h ++ ":" ++ fmt02d m) else None.

(** Characters the cleaning of a time leaves as they are. *)
Definition plain_char (c : ascii) : bool :=
  negb (isspace c) && Ascii.eqb (lower_char c) c &&
  negb (Ascii.eqb c ".") && negb (Ascii.eqb c " ").

(** The candidates of one range: [start], [start + step], ... as long as
    [candidate + service <= end_]. *)
Definition candidate_count (start end_ step service : Z) : nat :=
  if start + service <=? end_ then S (Z.to_nat ((end_ - service - start) / step)) else O.

Definition candidates (start end_ step service : Z) : list Z :=
  map (fun k => start + Z.of_nat k * step) (seq 0 (candidate_count start end_ step service)).

(** The slots of one stored range, empty for a range that does not parse. *)
Definition range_slots (step service : Z) (r : string) : list string :=
  match range_minutes r with
  | Ok (start, end_) => map _minutes_to_time (candidates start end_ step service)
  | Fail _ => []
  end.

(** A well-formed range: the text [HH:MM-HH:MM] of its start and its
    end, in minutes of the day. *)
Definition range_text (start end_ : Z) : string :=
  _minutes_to_time start ++ "-" ++ _minutes_to_time end_.

(** The texts stored for booked intervals given in minutes of the day. *)
Definition booked_texts (booked : list (Z * Z)) : list string :=
  map (fun p => range_text (fst p) (snd p)) booked.

(** [sys.get_int_max_str_digits()]: the most digits of a decimal literal
    the interpreter converts by default.  A string no longer than this
    holds no literal on which [int] raises for its length. *)
Definition MAX_STR_DIGITS : nat := 4300.

(** [date.max.toordinal()] *)
Definition MAXORDINAL : Z := 3652059.

(** The spellings of a weekday the properties are stated for: the three
    letters of [WEEKDAY_NAMES] and the full word, capitalised or not. *)
Definition WEEKDAY_WORDS : list string :=
  ["Monday"; "Tuesday"; "Wednesday"; "Thursday"; "Friday"; "Saturday"; "Sunday"].

Definition weekday_spellings (i : Z) : list string :=
  let short := weekday_name i in
  let long := nth (Z.to_nat i) WEEKDAY_WORDS "" in
  [short; lower short; long; lower long].

(** The days ["next " + weekday] adds to the anchor, as the source computes
    them: [((day_idx - anchor.weekday()) % 7) or 7]. *)
Definition next_delta (day_idx : Z) (anchor : datetime) : Z :=
  let d := (day_idx - weekday anchor) mod 7 in
  if d =? 0 then 7 else d.

(** The range list that applies to a date: the exception for that date
    when there is one, else the entry of its weekday; [None] when absent. *)
Definition applicable_ranges (wk : Working) (date_str wd : string) : option (list string) :=
  match exceptions wk !! date_str with
  | Some l => Some l
  | None => weekly_hours wk !! wd
  end.

(** The phrase [check_availability] hands to [parse_natural_date]. *)
Definition phrase_parsed (date_phrase : option string) : string :=
  or_today (fst (extract_daypart (default "" date_phrase))).

(** The daypart filter and the today filter of [check_availability],
    named to state what the function computes. *)
Definition daypart_filter (daypart : option (string * string)) (service_min : Z)
    (free_slots : list string) : res (list string) :=
  match daypart with
  | Some (d0, d1) =>
      do start_m <- _time_to_minutes d0;
      do end_m <- _time_to_minutes d1;
      filter_res (fun s => do t <- _time_to_minutes s;
                           Ok ((t >=? start_m) && (t + service_min <=? end_m)))
                 free_slots
  | None => Ok free_slots
  end.

Definition today_filter (w : World) (date_str : string) (service_min : Z)
    (free_slots : list string) : res (list string) :=
  if String.eqb date_str (strftime_date (now w))
  then do now_m <- _time_to_minutes (strftime_hm (now w));
       filter_res (fun s => do t <- _time_to_minutes s; Ok (t + service_min >? now_m))
                  free_slots
  else Ok free_slots.

(** The daypart in force: the one passed, else the one in the phrase. *)
Definition daypart_used (date_phrase : option string) (daypart : option (string * string))
  : option (string * string) :=
  match snd (extract_daypart (default "" date_phrase)), daypart with
  | Some e, None => Some e
  | _, _ => daypart
  end.

(** Two half-open intervals of minutes overlap. *)
Definition overlap (s1 e1 s2 e2 : Z) : Prop := s1 < e2 /\ e1 > s2.

(** What [list(set(l))] guarantees whatever the order of the hashes. *)
Definition set_list_ok (set_list : list string -> list string) : Prop :=
  forall l, NoDup (set_list l) /\ forall x, In x (set_list l) <-> In x l.

(** No two ranges stored for one date overlap: entries at different
    positions of the list that both parse. *)
Definition no_overlaps (l : list string) : Prop :=
  forall (i j : nat) r1 r2 s1 e1 s2 e2,
    i <> j -> l !! i = Some r1 -> l !! j = Some r2 ->
    range_minutes r1 = Ok (s1, e1) -> range_minutes r2 = Ok (s2, e2) ->
    ~ overlap s1 e1 s2 e2.

Definition calendar_ok (w : World) : Prop :=
  forall date_str l, appointments w !! date_str = Some l -> no_overlaps l.

(** The arguments of one call of [book_appointment]. *)
Record Request : Type := mkRequest {
  rq_date : string;
  rq_start : string;
  rq_service : option string;
  rq_client : string;
  rq_phone : string;
  rq_email : string
}.

(** Bookings made one after the other by a single session. *)
Fixpoint book_all (set_list : list string -> list string) (w : World) (reqs : list Request)
  : res (list BookResult * World) :=
  match reqs with
  | [] => Ok ([], w)
  | q :: reqs' =>
      do '(r, w1) <- book_appointment set_list w (rq_date q) (rq_start q) (rq_service q)
                                      (rq_client q) (rq_phone q) (rq_email q);
      do '(rs, w2) <- book_all set_list w1 reqs';
      Ok (r :: rs, w2)
  end.

(** The date [book_appointment] passes on: its argument without the
    daypart word, unless nothing else is left. *)
Definition date_passed (date_str : string) : string :=
  let cleaned_date := fst (extract_daypart date_str) in
  if String.eqb cleaned_date "" then date_str else cleaned_date.

(** The phrase that reaches [parse_natural_date] from [book_appointment]:
    the date passed on, cleaned of its daypart again by
    [check_availability]. *)
Definition booking_phrase (date_str : string) : string :=
  fst (extract_daypart (date_passed date_str)).




(** The shapes [parse_natural_date] goes by, for a phrase stripped and in
    lower case: ten characters with a dash in the fifth and in the eighth
    place; a slash anywhere; the aliases of today and of tomorrow; one
    token whose first three letters are those of a weekday name; the
    token "next" and such a token.  A phrase of none of these shapes is
    what the parser does not recognise. *)
Definition weekday_prefix (tok : string) : bool :=
  str_in (lower (str_take 3 tok)) ["mon"; "tue"; "wed"; "thu"; "fri"; "sat"; "sun"].


Section Outcomes.

Variable set_list : list string -> list string.
Variable others : World -> World.

(** The list [_append_appointment] stores for the date. *)
Definition stored_after (w : World) (date_str new_range : string) : list string :=
  let stored := default [] (appointments w !! date_str) in
  sorted_by _sort_key
    (set_list (if str_in new_range stored then stored else (stored ++ [new_range])%list)).

(** How one call of [book_appointment] ends: the five [return]s of the
    source, with what was computed on the way to each. *)
Inductive outcome_of (w : World) (date_str start_time : string)
    (service_name : option string) (client_name phone email : string)
    (r : BookResult) (w' : World) : Prop :=
| BadTime :
    _normalize_time_to_hhmm start_time = Ok None ->
    r = mkBook false (Some MSG_BAD_TIME) None None None None None None None None ->
    w' = w ->
    outcome_of w date_str start_time service_name client_name phone email r w'
| ClosedDay st av :
    _normalize_time_to_hhmm start_time = Ok (Some st) ->
    check_availability w (Some date_str) service_name 10000 None = Ok av ->
    av_closed av = Some true ->
    r = mkBook false (Some MSG_CLOSED) None None None None None None None None ->
    w' = w ->
    outcome_of w date_str start_time service_name client_name phone email r w'
| NotAvailable st av :
    _normalize_time_to_hhmm start_time = Ok (Some st) ->
    check_availability w (Some date_str) service_name 10000 None = Ok av ->
    av_closed av <> Some true ->
    ~ In st (av_available av) ->
    r = mkBook false (Some MSG_NOT_AVAILABLE) None (Some (firstn 10 (av_available av)))
               (av_date av) None None service_name
               (Some (_get_service_minutes w service_name)) None ->
    w' = w ->
    outcome_of w date_str start_time service_name client_name phone email r w'
| JustTaken st av d fresh :
    _normalize_time_to_hhmm start_time = Ok (Some st) ->
    check_availability w (Some date_str) service_name 10000 None = Ok av ->
    In st (av_available av) ->
    av_date av = Some d ->
    fst (fst (_append_appointment set_list (others w) d st
                (_get_service_minutes w service_name) client_name phone email)) = false ->
    w' = others w ->
    check_availability w' (Some d) service_name 8 None = Ok fresh ->
    r = mkBook false
               (Some (snd (fst (_append_appointment set_list (others w) d st
                                  (_get_service_minutes w service_name)
                                  client_name phone email))))
               None (Some (av_available fresh)) (Some d) None None service_name
               (Some (_get_service_minutes w service_name)) None ->
    outcome_of w date_str start_time service_name client_name phone email r w'
| Booked st av d start_m :
    _normalize_time_to_hhmm start_time = Ok (Some st) ->
    check_availability w (Some date_str) service_name 10000 None = Ok av ->
    av_closed av <> Some true ->
    In st (av_available av) ->
    av_date av = Some d ->
    _time_to_minutes st = Ok start_m ->
    existsb (conflicts start_m (start_m + _get_service_minutes w service_name))
            (_get_taken_ranges_from_calendar (others w) d) = false ->
    let dur := _get_service_minutes w service_name in
    let end_time := _minutes_to_time (start_m + dur) in
    w' = _append_booking_record
           (set_appointments (others w)
              (<[d := stored_after (others w) d (st ++ "-" ++ end_time)]>
                 (appointments (others w))))
           d st end_time service_name dur client_name phone email ->
    r = mkBook true None (Some MSG_CONFIRMED) None (Some d) (Some st) (Some end_time)
               service_name (Some dur) (Some client_name) ->
    outcome_of w date_str start_time service_name client_name phone email r w'.

End Outcomes.

(** ** Sample data: the seed files of the application *)

Definition seed_working : Working :=
  mkWorking 15
    (list_to_map [("Mon", ["09:00-17:00"]); ("Tue", ["09:00-17:00"]);
                  ("Wed", ["09:00-17:00"]); ("Thu", ["09:00-17:00"]);
                  ("Fri", ["09:00-17:00"]); ("Sat", ["10:00-14:00"]); ("Sun", [])])
    ∅.

Definition seed_services : list Service :=
  [mkService "Basic Haircut" (Some 30); mkService "Skin Fade" (Some 45);
   mkService "Beard Trim" (Some 20)].

(** Monday 2025-11-03, 09:30, with an empty calendar. *)
Definition seed_world : World :=
  mkWorld seed_working seed_services ∅ [] (mkDatetime 2025 11 3 9 30).

(** [list(set(l))] in the order of first occurrence. *)
Definition set_list_first : list string -> list string := nodup String.string_dec.

(** Two bookings for the day after the sample Monday. *)
Definition sample_requests : list Request :=
  [mkRequest "tomorrow" "10:30" (Some "Skin Fade") "Ann" "555-0100" "ann@example.org";
   mkRequest "2025-11-04" "11.15 am" None "Bob" "555-0101" "bob@example.org"].

(** Another session that books 10:00-11:00 on 2025-11-04. *)
Definition rival_booking (w : World) : World :=
  set_appointments w (<["2025-11-04" := ["10:00-11:00"]]> (appointments w)).


(** ** Further sample data *)

(** A Tuesday in two shifts, the second written by hand. *)
Definition split_shift_world : World :=
  mkWorld (mkWorking 15 ∅ {["2025-11-04" := ["13:00-18:30"; " 9:00 - 12:00"]]})
          [] ∅ [] (mkDatetime 2025 11 3 9 30).

(** A Tuesday one of whose ranges is not written with a dash. *)
Definition malformed_hours_world : World :=
  mkWorld (mkWorking 15 {["Tue" := ["09:00-12:00"; "13:00 to 17:00"]]} ∅)
          [] ∅ [] (mkDatetime 2025 11 3 9 30).

(** Tuesdays open from nine to five, two of them closed by exception:
    the first day of the year 999 and 2025-11-04. *)
Definition early_exception_world : World :=
  mkWorld (mkWorking 15 {["Tue" := ["09:00-17:00"]]}
                     (<["0999-01-01" := []]> {["2025-11-04" := []]}))
          seed_services ∅ [] (mkDatetime 2025 11 3 9 30).

(** The seed schedule with a service that takes no time. *)
Definition free_advice_world : World :=
  mkWorld seed_working [mkService "Advice" (Some 0)] ∅ [] (mkDatetime 2025 11 3 9 30).

(** ** JSON values: business_info.json, tool arguments, the dialogue *)

(** What [json.load] builds; numbers are the integers. *)
#[local] Unset Elimination Schemes.
Inductive json : Type :=
| JNull
| JBool (b : bool)
| JNum (n : Z)
| JStr (s : string)
| JArr (l : list json)
| JObj (l : list (string * json)).
#[local] Set Elimination Schemes.

(** [bool(v)] *)
Definition truthy (v : json) : bool :=
  match v with
  | JNull => false
  | JBool b => b
  | JNum n => negb (n =? 0)
  | JStr s => negb (String.eqb s "")
  | JArr l => match l with [] => false | _ => true end
  | JObj l => match l with [] => false | _ => true end
  end.

(** ** Tools: business information and services (src/app.py, lines 581-602) *)

(** [v in (None, "", [])] *)
Definition is_blank (v : json) : bool :=
  match v with
  | JNull => true
  | JStr s => String.eqb s ""
  | JArr l => match l with [] => true | _ => false end
  | _ => false
  end.

(** The [for k in keys] of [get_business_info], with its two accumulators. *)
Fixpoint get_business_info_loop (data : gmap string json) (keys : list string)
    (found : gmap string json) (missing : list string)
  : gmap string json * list string :=
  match keys with
  | [] => (found, missing)
  | k :: keys' =>
      match data !! k with
      | Some v =>
          if negb (is_blank v)
          then get_business_info_loop data keys' (<[k := v]> found) missing
          else get_business_info_loop data keys' found (missing ++ [k])%list
      | None => get_business_info_loop data keys' found (missing ++ [k])%list
      end
  end.

(** [data] is what [load_business_info] has read; the result is the pair
    of the keys ["data"] and ["missing"]. *)
Definition get_business_info (data : gmap string json) (keys : list string)
  : gmap string json * list string :=
  get_business_info_loop data keys ∅ [].

(** The result is the pair of the keys ["services"] and ["missing"];
    [names] is a list of strings or absent. *)
Definition get_services (w : World) (names : option (list string))
  : list Service * list string :=
  let services := services w in
  match names with
  | Some (n :: ns) =>
      let names := n :: ns in
      let name_set := map (fun n => lower (strip n)) names in
      let filtered := List.filter (fun s => str_in (lower (svc_name s)) name_set) services in
      let missing :=
        List.filter (fun n => negb (str_in (lower (strip n))
                                           (map (fun s => lower (svc_name s)) services)))
                    names in
      (filtered, missing)
  | _ => (services, [])
  end.

(** ** The message history (src/app.py, lines 1122-1142) *)

Record Message : Type := mkMessage {
  role : string;
  content : string
}.

Definition MAX_HISTORY : nat := 30.

(** [l[-n:]] for a positive [n] *)
Definition last_n {A : Type} (n : nat) (l : list A) : list A :=
  skipn (List.length l - n) l.

(** What a user message does to [st.session_state.messages]: the append
    and the cut that follows it. *)
Definition append_user_message (messages : list Message) (user_text : string)
  : list Message :=
  let messages := (messages ++ [mkMessage "user" user_text])%list in
  if (MAX_HISTORY <? List.length messages)%nat
  then (firstn 1 messages ++ last_n (MAX_HISTORY - 1) messages)%list
  else messages.

(** ** Conversation state (src/app.py, lines 735-785) *)

(** [st.session_state.dialogue] is a [gmap string json]; a session without
    the key is [None]. *)
Definition initial_dialogue : gmap string json :=
  list_to_map [("service", JNull); ("date", JNull); ("time", JNull); ("name", JNull);
               ("phone", JNull); ("email", JNull); ("confirmed", JBool false)].

Definition _ensure_dialogue_container (session : option (gmap string json)) : gmap string json :=
  default initial_dialogue session.

Definition get_conversation_state (session : option (gmap string json)) : gmap string json :=
  _ensure_dialogue_container session.

(** The dict [normalize_and_store_date] returns; [n_normalized] is [None]
    when the key is absent. *)
Record NormalizeResult : Type := mkNormalize {
  n_ok : bool;
  n_date : string;
  n_normalized : option bool
}.

(** [now_] is [now_in_salon_tz()]; the dialogue is returned with the
    result. *)
Definition normalize_and_store_date (now_ : datetime) (session : option (gmap string json))
    (date_phrase : string) : res (NormalizeResult * gmap string json) :=
  let dialogue := _ensure_dialogue_container session in
  let cleaned := fst (extract_daypart date_phrase) in
  do dt <- parse_natural_date cleaned now_;
  match dt with
  | Some dt =>
      Ok (mkNormalize true (strftime_date dt) None,
          <["date" := JStr (strftime_date dt)]> dialogue)
  | None =>
      Ok (mkNormalize true cleaned (Some false), <["date" := JStr cleaned]> dialogue)
  end.

Definition allowed : list string :=
  ["service"; "date"; "time"; "name"; "phone"; "email"; "confirmed"].

Section Conversation.

(** [str(v)] of a JSON value. *)
Variable py_str : json -> string.

Definition update_conversation_state (now_ : datetime) (session : option (gmap string json))
    (kwargs : gmap string json) : gmap string json :=
  let dialogue := _ensure_dialogue_container session in
  let '(dialogue, kwargs) :=
    match kwargs !! "date" with
    | Some v =>
        if truthy v
        then match normalize_and_store_date now_ (Some dialogue) (py_str v) with
             | Ok (_, dialogue') => (dialogue', delete "date" kwargs)
             | Fail _ => (dialogue, kwargs)
             end
        else (dialogue, kwargs)
    | None => (dialogue, kwargs)
    end in
  map_fold (fun k v (d : gmap string json) => if str_in k allowed then <[k := v]> d else d)
           dialogue kwargs.

End Conversation.

(** ** Notions used to state the further properties *)

(** A requested key of [get_business_info] that goes to ["missing"]. *)
Definition unanswered (data : gmap string json) (k : string) : bool :=
  match data !! k with
  | Some v => is_blank v
  | None => true
  end.

(** The dialogue has its seven slots and no other. *)
Definition seven_slots (d : gmap string json) : Prop :=
  forall k, is_Some (d !! k) <-> In k allowed.

(** [str] on the JSON scalars; an array or an object is given by its
    brackets alone. *)
Definition str_of_scalar (v : json) : string :=
  match v with
  | JNull => "None"
  | JBool true => "True"
  | JBool false => "False"
  | JNum n => if n <? 0 then "-" ++ dec (- n) else dec n
  | JStr s => s
  | JArr _ => "[]"
  | JObj _ => "{}"
  end.

(** * Properties *)

(** ** The primitives on sample inputs *)

Example strip_ex : strip "  next Mon " = "next Mon". Proof. reflexivity. Qed.
Example replace_ex : replace "morning" "" "nigmorninght" = "night". Proof. reflexivity. Qed.
Example replace_ex2 : replace "aa" "" "aaa" = "a". Proof. reflexivity. Qed.
Example split_on_ex : split_on "-" "a--b" = ["a"; ""; "b"]. Proof. reflexivity. Qed.
Example split_ws_ex : split_ws " a  bc " = ["a"; "bc"]. Proof. reflexivity. Qed.
Example capitalize_ex : capitalize (str_take 3 "mONDAY") = "Mon". Proof. reflexivity. Qed.
Example int_ex1 : int " 1_0 " = Ok 10. Proof. reflexivity. Qed.
Example int_ex2 : int "+ 1" = Fail ValueError. Proof. reflexivity. Qed.
Example int_ex3 : int "-07" = Ok (-7). Proof. reflexivity. Qed.
Example fmt02d_ex : (fmt02d (-1), fmt02d 0, fmt02d 7, fmt02d 100) = ("-1", "00", "07", "100").
Proof. reflexivity. Qed.
Example endswith_ex : (endswith "am" "12am", endswith "pm" "m", take_last 2 "m", drop_last 2 "am")
                      = (true, false, "m", "").
Proof. reflexivity. Qed.
Example weekday_ex : weekday (mkDatetime 2025 11 3 9 30) = 0 /\
                     toordinal (mkDatetime 2025 11 3 9 30) = 739558 /\
                     toordinal (mkDatetime 9999 12 31 0 0) = 3652059.
Proof. repeat split; reflexivity. Qed.
Example normalize_ex :
  map _normalize_time_to_hhmm ["1:30 pm"; "12am"; "9"; "9.05"; "24"; "1:60"; "1:2:3"; "x"; "12PM"]
  = map Ok [Some "13:30"; Some "00:00"; Some "09:00"; Some "09:05"; None; None; None; None; Some "12:00"].
Proof. reflexivity. Qed.
Example parse_ex :
  map (fun p => parse_natural_date p (mkDatetime 2025 11 3 9 30))
      ["next Mon"; "mon"; "next tue"; "tomorrow"; "2025-12-24"; "12/31"; "soon"; ""; "2025-02-30"]
  = map Ok [Some (mkDatetime 2025 11 10 0 0); Some (mkDatetime 2025 11 3 0 0);
            Some (mkDatetime 2025 11 4 0 0); Some (mkDatetime 2025 11 4 0 0);
            Some (mkDatetime 2025 12 24 0 0); Some (mkDatetime 2025 12 31 0 0);
            None; None; None].
Proof. reflexivity. Qed.
Example daypart_ex :
  extract_daypart " Tomorrow Afternoon " = ("tomorrow", Some ("12:00", "16:59")).
Proof. reflexivity. Qed.

Example sorted_ex :
  sorted_by _sort_key ["10:30-11:00"; "bad"; "09:00-09:30"; "worse"; "10:30-10:45"]
  = ["bad"; "worse"; "09:00-09:30"; "10:30-11:00"; "10:30-10:45"].
Proof. reflexivity. Qed.

Example expand_ex :
  _expand_ranges_to_slots ["10:00-11:00"; "bad"; "13:00-13:40"] 15 30
  = Ok ["10:00"; "10:15"; "10:30"; "13:00"].
Proof. reflexivity. Qed.

(** ** Strings and numerals *)

#[local] Arguments fmt02d : simpl never.
#[local] Arguments fmt04d : simpl never.
#[local] Arguments dec : simpl never.

Lemma str_forallb_app p a b :
  str_forallb p (a ++ b) = str_forallb p a && str_forallb p b.
Proof. induction a as [|c a IH]; simpl; [reflexivity|]. now rewrite IH, andb_assoc. Qed.

Lemma str_existsb_app p a b :
  str_existsb p (a ++ b) = str_existsb p a || str_existsb p b.
Proof. induction a as [|c a IH]; simpl; [reflexivity|]. now rewrite IH, orb_assoc. Qed.

Lemma str_forallb_impl (p q : ascii -> bool) s :
  (forall c, p c = true -> q c = true) -> str_forallb p s = true -> str_forallb q s = true.
Proof.
  intros Hpq. induction s as [|c s IH]; simpl; [reflexivity|].
  intros H. apply andb_true_iff in H as [Hc Hs]. now rewrite (Hpq _ Hc), IH.
Qed.

Lemma str_forallb_not_exists (p q : ascii -> bool) s :
  (forall c, p c = true -> q c = false) -> str_forallb p s = true -> str_existsb q s = false.
Proof.
  intros Hpq. induction s as [|c s IH]; simpl; [reflexivity|].
  intros H. apply andb_true_iff in H as [Hc Hs]. now rewrite (Hpq _ Hc), IH.
Qed.

Lemma app_empty_r (s : string) : s ++ "" = s.
Proof. induction s as [|c s IH]; simpl; congruence. Qed.

Lemma app_assoc_str (a b c : string) : (a ++ b) ++ c = a ++ (b ++ c).
Proof. induction a as [|x a IH]; simpl; congruence. Qed.

Lemma length_app_str (a b : string) :
  String.length (a ++ b) = (String.length a + String.length b)%nat.
Proof. induction a as [|x a IH]; simpl; congruence. Qed.

(** *** split *)

Lemma split_on_nonempty sep s : split_on sep s <> [].
Proof.
  destruct s as [|c s]; simpl; [discriminate|].
  destruct (Ascii.eqb c sep); [discriminate|].
  destruct (split_on sep s); discriminate.
Qed.

Lemma split_on_absent sep s : has_char sep s = false -> split_on sep s = [s].
Proof.
  induction s as [|c s IH]; simpl; [reflexivity|].
  intros H. apply orb_false_iff in H as [Hc Hs].
  rewrite Hc, (IH Hs). reflexivity.
Qed.

Lemma split_on_app sep a b :
  has_char sep a = false -> split_on sep (a ++ String sep b) = a :: split_on sep b.
Proof.
  induction a as [|c a IH]; simpl.
  - intros _. now rewrite Ascii.eqb_refl.
  - intros H. apply orb_false_iff in H as [Hc Ha].
    rewrite Hc, (IH Ha). reflexivity.
Qed.

Lemma split_on_join sep s :
  join sep (split_on sep s) = s /\ Forall (fun p => has_char sep p = false) (split_on sep s).
Proof.
  induction s as [|c s [IHj IHf]]; simpl.
  - split; [reflexivity|]. repeat constructor.
  - destruct (Ascii.eqb c sep) eqn:E.
    + apply Ascii.eqb_eq in E. subst c. split.
      * pose proof (split_on_nonempty sep s) as Hne.
        destruct (split_on sep s) as [|p ps]; [congruence|].
        simpl in *. now rewrite IHj.
      * constructor; [reflexivity | assumption].
    + destruct (split_on sep s) as [|p ps] eqn:Es.
      * now apply split_on_nonempty in Es.
      * split.
        -- destruct ps as [|q ps]; simpl in *; now rewrite <- IHj.
        -- inversion IHf as [|? ? Hp Hps]; subst. constructor; [|assumption].
           unfold has_char in *. simpl. now rewrite E.
Qed.

Lemma split_on_two sep s a b :
  split_on sep s = [a; b] ->
  s = a ++ String sep b /\ has_char sep a = false /\ has_char sep b = false.
Proof.
  intros H. destruct (split_on_join sep s) as [Hj Hf]. rewrite H in Hj, Hf.
  simpl in Hj. apply Forall_cons_iff in Hf as [Ha Hf].
  apply Forall_cons_iff in Hf as [Hb _]. auto.
Qed.

Lemma split_on_one sep s a : split_on sep s = [a] -> s = a /\ has_char sep s = false.
Proof.
  intros H. destruct (split_on_join sep s) as [Hj Hf]. rewrite H in Hj, Hf.
  simpl in Hj. apply Forall_cons_iff in Hf as [Ha _]. subst a. auto.
Qed.

(** *** strip, lower, replace on strings they leave alone *)

Lemma lstrip_with_id sp s :
  str_existsb sp s = false -> lstrip_with sp s = s.
Proof.
  destruct s as [|c s]; simpl; [reflexivity|].
  intros H. apply orb_false_iff in H as [Hc _]. now rewrite Hc.
Qed.

Lemma rstrip_with_id sp s :
  str_existsb sp s = false -> rstrip_with sp s = s.
Proof.
  induction s as [|c s IH]; simpl; [reflexivity|].
  intros H. apply orb_false_iff in H as [Hc Hs].
  rewrite (IH Hs), Hc. now destruct s.
Qed.

Lemma strip_with_id sp s : str_existsb sp s = false -> strip_with sp s = s.
Proof.
  intros H. unfold strip_with. rewrite (lstrip_with_id _ _ H). now apply rstrip_with_id.
Qed.

Lemma str_map_id f s :
  str_forallb (fun c => Ascii.eqb (f c) c) s = true -> str_map f s = s.
Proof.
  induction s as [|c s IH]; simpl; [reflexivity|].
  intros H. apply andb_true_iff in H as [Hc Hs].
  apply Ascii.eqb_eq in Hc. now rewrite Hc, IH.
Qed.

Lemma replace_char_absent c new s :
  has_char c s = false -> replace (String c "") new s = s.
Proof.
  unfold replace. induction s as [|x s IH]; simpl; [reflexivity|].
  intros H. apply orb_false_iff in H as [Hx Hs].
  rewrite Ascii.eqb_sym in Hx. rewrite Hx. simpl. now rewrite (IH Hs).
Qed.

(** *** slices *)

Lemma str_take_app a b : str_take (String.length a) (a ++ b) = a.
Proof. induction a as [|c a IH]; simpl; [now destruct b | now rewrite IH]. Qed.

Lemma str_drop_app a b : str_drop (String.length a) (a ++ b) = b.
Proof. induction a as [|c a IH]; simpl; [now destruct b | assumption]. Qed.

Lemma str_take_drop n s : str_take n s ++ str_drop n s = s.
Proof.
  revert s. induction n as [|n IH]; intros [|c s]; simpl; try reflexivity.
  now rewrite IH.
Qed.

Lemma take_last_app a b : take_last (String.length b) (a ++ b) = b.
Proof.
  unfold take_last. rewrite length_app_str.
  replace (String.length a + String.length b - String.length b)%nat
    with (String.length a) by lia.
  apply str_drop_app.
Qed.

Lemma drop_last_app a b : drop_last (String.length b) (a ++ b) = a.
Proof.
  unfold drop_last. rewrite length_app_str.
  replace (String.length a + String.length b - String.length b)%nat
    with (String.length a) by lia.
  apply str_take_app.
Qed.

Lemma drop_take_last n s : drop_last n s ++ take_last n s = s.
Proof. apply str_take_drop. Qed.

Lemma endswith_app a b : endswith b (a ++ b) = true.
Proof.
  unfold endswith. rewrite take_last_app, String.eqb_refl, length_app_str.
  rewrite andb_true_r. apply Nat.leb_le. lia.
Qed.

Lemma endswith_inv p s : endswith p s = true -> s = drop_last (String.length p) s ++ p.
Proof.
  unfold endswith. intros H. apply andb_true_iff in H as [_ H].
  apply String.eqb_eq in H. rewrite <- H at 2. symmetry. apply drop_take_last.
Qed.

(** *** digits *)

Lemma digit_char_facts c :
  isdecimal_char c = true ->
  int_isspace c = false /\ isspace c = false /\
  Ascii.eqb c "+" = false /\ Ascii.eqb c "-" = false /\ Ascii.eqb c ":" = false /\
  Ascii.eqb c "." = false /\ Ascii.eqb c " " = false /\ Ascii.eqb c "/" = false /\
  Ascii.eqb c "m" = false /\ lower_char c = c.
Proof.
  destruct c as [[] [] [] [] [] [] [] []]; vm_compute; intros H; try discriminate H;
    repeat split; reflexivity.
Qed.

Lemma isdecimal_char_val c : isdecimal_char c = true -> 0 <= digit_val c <= 9.
Proof. unfold isdecimal_char, digit_val. lia. Qed.

Lemma digit_char_val d :
  0 <= d <= 9 -> digit_val (digit_char d) = d /\ isdecimal_char (digit_char d) = true.
Proof.
  intros H.
  assert (d = 0 \/ d = 1 \/ d = 2 \/ d = 3 \/ d = 4 \/ d = 5 \/ d = 6 \/ d = 7 \/ d = 8 \/ d = 9)
    as Hd by lia.
  repeat (destruct Hd as [-> | Hd]; [split; reflexivity|]). subst. split; reflexivity.
Qed.

Lemma isdecimal_digits s : isdecimal s = true <-> s <> "" /\ digits s = true.
Proof.
  unfold isdecimal, digits. destruct s; split; try discriminate.
  - intros [H _]. congruence.
  - intros H. split; [discriminate | exact H].
  - intros [_ H]. exact H.
Qed.

Lemma isdecimal_isdigit s : isdecimal s = true -> isdigit s = true.
Proof.
  unfold isdecimal, isdigit. destruct s as [|c s]; [discriminate|].
  apply str_forallb_impl. intros x Hx. unfold isdigit_char. now rewrite Hx.
Qed.

Lemma isdigit_char_facts c :
  isdigit_char c = true ->
  int_isspace c = false /\ Ascii.eqb c "+" = false /\ Ascii.eqb c "-" = false /\
  Ascii.eqb c "_" = false /\ Ascii.eqb c ":" = false.
Proof.
  destruct c as [[] [] [] [] [] [] [] []]; vm_compute; intros H; try discriminate H;
    repeat split; reflexivity.
Qed.

Lemma int_digits_decimal s : forall acc b h,
  str_forallb isdigit_char s = true -> int_digits acc b s = Some h -> digits s = true.
Proof.
  induction s as [|c s IH]; intros acc b h Hd Hi; [reflexivity|].
  cbn [str_forallb] in Hd. apply andb_true_iff in Hd as [Hc Hs].
  cbn [int_digits] in Hi. unfold digits. cbn [str_forallb].
  destruct (isdecimal_char c) eqn:Ec.
  - cbn [andb]. exact (IH _ _ _ Hs Hi).
  - destruct (isdigit_char_facts c Hc) as (_ & _ & _ & Hu & _).
    rewrite Hu in Hi. discriminate.
Qed.

(** A string [isdigit] accepts and [int] reads is of decimal digits. *)
Lemma isdigit_int s h : isdigit s = true -> int s = Ok h -> isdecimal s = true.
Proof.
  unfold isdigit, int. destruct s as [|c s]; [discriminate|]. intros Hd.
  rewrite strip_with_id.
  2:{ revert Hd. apply str_forallb_not_exists. intros x Hx.
      apply (isdigit_char_facts x Hx). }
  pose proof Hd as Hd'. cbn [str_forallb] in Hd'. apply andb_true_iff in Hd' as [Hc _].
  destruct (isdigit_char_facts c Hc) as (_ & Hp & Hm & _).
  rewrite Hp, Hm. destruct (int_digits 0 false (String c s)) as [v|] eqn:Ei; [|discriminate].
  intros _. apply isdecimal_digits. split; [discriminate|].
  exact (int_digits_decimal _ _ _ _ Hd Ei).
Qed.

Lemma isdigit_has_colon a b : isdigit (a ++ String ":" b) = false.
Proof.
  unfold isdigit. destruct (a ++ String ":" b) eqn:E; [reflexivity|]. rewrite <- E.
  rewrite str_forallb_app. cbn [str_forallb]. now rewrite andb_false_r.
Qed.

Lemma digits_app a b : digits (a ++ b) = digits a && digits b.
Proof. apply str_forallb_app. Qed.

Lemma digits_no_char c s :
  (forall d, isdecimal_char d = true -> Ascii.eqb d c = false) ->
  digits s = true -> has_char c s = false.
Proof. intros Hc. apply str_forallb_not_exists. exact Hc. Qed.

Lemma digits_no_colon s : digits s = true -> has_char ":" s = false.
Proof. apply digits_no_char. intros d Hd. apply (digit_char_facts d Hd). Qed.

Lemma digits_no_dash s : digits s = true -> has_char "-" s = false.
Proof. apply digits_no_char. intros d Hd. apply (digit_char_facts d Hd). Qed.

Lemma str_val_app acc a b : str_val acc (a ++ b) = str_val (str_val acc a) b.
Proof. revert acc. induction a as [|c a IH]; intros acc; simpl; [reflexivity | apply IH]. Qed.

Lemma str_val_lower_bound s : forall acc, digits s = true -> 0 <= acc -> acc <= str_val acc s.
Proof.
  induction s as [|c s IH]; intros acc Hd Hacc; simpl; [lia|].
  apply andb_true_iff in Hd as [Hc Hs]. apply isdecimal_char_val in Hc.
  specialize (IH (acc * 10 + digit_val c) Hs). lia.
Qed.

Lemma int_digits_val s : forall acc b,
  digits s = true -> (b = true \/ s <> "") -> int_digits acc b s = Some (str_val acc s).
Proof.
  induction s as [|c s IH]; intros acc b Hd Hb; simpl.
  - destruct Hb as [-> | Hb]; [reflexivity | congruence].
  - apply andb_true_iff in Hd as [Hc Hs]. rewrite Hc. apply IH; auto.
Qed.

Lemma int_isdecimal s : isdecimal s = true -> int s = Ok (str_val 0 s).
Proof.
  intros H. apply isdecimal_digits in H as [Hne Hd]. unfold int.
  rewrite strip_with_id.
  2:{ revert Hd. apply str_forallb_not_exists. intros c Hc. apply (digit_char_facts c Hc). }
  destruct s as [|c s]; [congruence|].
  pose proof Hd as Hd'. apply andb_true_iff in Hd' as [Hc _].
  destruct (digit_char_facts c Hc) as (_ & _ & Hp & Hm & _). rewrite Hp, Hm.
  rewrite int_digits_val; [reflexivity | exact Hd | now right].
Qed.

Lemma int_digits_nonneg s : forall acc b z,
  0 <= acc -> int_digits acc b s = Some z -> 0 <= z.
Proof.
  induction s as [|c s IH]; intros acc b z Hacc; simpl.
  - destruct b; intros [= <-] || discriminate. exact Hacc.
  - destruct (isdecimal_char c) eqn:Hc.
    + apply IH. apply isdecimal_char_val in Hc. lia.
    + destruct (Ascii.eqb c "_" && b); [apply IH; exact Hacc | discriminate].
Qed.

(** Without a minus sign [int] gives no negative number. *)
Lemma int_nonneg s z : int s = Ok z -> has_char "-" s = false -> 0 <= z.
Proof.
  unfold int. intros H Hno.
  assert (Hno' : has_char "-" (strip_with int_isspace s) = false).
  { clear H. unfold strip_with.
    assert (Hl : forall t, has_char "-" t = false -> has_char "-" (lstrip_with int_isspace t) = false).
    { induction t as [|c t IHt]; [reflexivity|]. simpl. intros Ht.
      destruct (int_isspace c); [|exact Ht].
      apply IHt. unfold has_char in *. simpl in Ht. now apply orb_false_iff in Ht. }
    assert (Hr : forall t, has_char "-" t = false -> has_char "-" (rstrip_with int_isspace t) = false).
    { induction t as [|c t IHt]; [reflexivity|]. unfold has_char in *. simpl. intros Ht.
      apply orb_false_iff in Ht as [Hc Ht]. specialize (IHt Ht).
      destruct (rstrip_with int_isspace t) eqn:Er.
      - destruct (int_isspace c); [reflexivity|]. simpl. now rewrite Hc.
      - simpl. simpl in IHt. now rewrite Hc, IHt. }
    auto. }
  destruct (strip_with int_isspace s) as [|c r]; [discriminate|].
  unfold has_char in Hno'. simpl in Hno'. apply orb_false_iff in Hno' as [Hc _].
  rewrite Hc in H. destruct (Ascii.eqb c "+").
  - destruct (int_digits 0 false r) eqn:E; [|discriminate]. injection H as <-.
    eapply int_digits_nonneg; [|exact E]. lia.
  - destruct (int_digits 0 false (String c r)) eqn:E; [|discriminate]. injection H as <-.
    eapply int_digits_nonneg; [|exact E]. lia.
Qed.

(** *** printing and reading back *)

Lemma dec_rev_spec fuel : forall n,
  0 <= n < 2 ^ Z.of_nat fuel ->
  val_rev (dec_rev fuel n) = n /\ forallb isdecimal_char (dec_rev fuel n) = true.
Proof.
  induction fuel as [|f IH]; intros n Hn.
  - simpl in *. split; [lia | reflexivity].
  - rewrite Nat2Z.inj_succ, Z.pow_succ_r in Hn by lia.
    cbn [dec_rev val_rev forallb].
    assert (Hm : 0 <= n mod 10 <= 9) by (pose proof (Z.mod_pos_bound n 10); lia).
    destruct (digit_char_val _ Hm) as [Hv Hd]. rewrite Hv, Hd.
    destruct (n <? 10) eqn:E.
    + apply Z.ltb_lt in E. rewrite Z.mod_small by lia. simpl. split; [lia | reflexivity].
    + apply Z.ltb_ge in E.
      destruct (IH (n / 10)) as [IHv IHd].
      { split; [apply Z.div_pos; lia|]. apply Z.div_lt_upper_bound; lia. }
      rewrite IHv, IHd. split; [|reflexivity].
      pose proof (Z.div_mod n 10). lia.
Qed.

Lemma solas_app (l1 l2 : list ascii) :
  string_of_list_ascii (l1 ++ l2)%list = string_of_list_ascii l1 ++ string_of_list_ascii l2.
Proof. induction l1 as [|c l1 IH]; simpl; [reflexivity | now rewrite IH]. Qed.

Lemma str_val_rev l : str_val 0 (string_of_list_ascii (rev l)) = val_rev l.
Proof.
  induction l as [|d l IH]; [reflexivity|].
  simpl rev. rewrite solas_app, str_val_app, IH. simpl. lia.
Qed.

Lemma digits_solas l : digits (string_of_list_ascii l) = forallb isdecimal_char l.
Proof. induction l as [|c l IH]; simpl; [reflexivity|]. unfold digits in *. simpl. now rewrite IH. Qed.

Lemma dec_spec n :
  0 <= n -> digits (dec n) = true /\ dec n <> "" /\ str_val 0 (dec n) = n.
Proof.
  intros Hn. unfold dec.
  assert (Hb : 0 <= n < 2 ^ Z.of_nat (S (Z.to_nat (Z.log2 n)))).
  { rewrite Nat2Z.inj_succ, Z2Nat.id by apply Z.log2_nonneg.
    destruct (Z.eq_dec n 0) as [-> | Hnz]; [simpl; lia|].
    pose proof (Z.log2_spec n). lia. }
  destruct (dec_rev_spec _ _ Hb) as [Hv Hd].
  repeat split.
  - rewrite digits_solas. apply forallb_forall. intros c Hc.
    apply in_rev in Hc. revert c Hc. now apply forallb_forall.
  - simpl dec_rev. simpl rev. rewrite solas_app. simpl.
    intros H. destruct (string_of_list_ascii _); discriminate.
  - rewrite str_val_rev. exact Hv.
Qed.

Lemma fmt02d_spec n :
  0 <= n -> isdecimal (fmt02d n) = true /\ str_val 0 (fmt02d n) = n.
Proof.
  intros Hn. destruct (dec_spec n Hn) as (Hd & Hne & Hv). unfold fmt02d.
  assert (E : (n <? 0) = false) by lia. rewrite E.
  destruct (n <? 10).
  - split; [apply isdecimal_digits; split; [discriminate | exact Hd] | exact Hv].
  - split; [apply isdecimal_digits; auto | exact Hv].
Qed.

Lemma int_fmt02d n : 0 <= n -> int (fmt02d n) = Ok n.
Proof.
  intros Hn. destruct (fmt02d_spec n Hn) as [Hd Hv]. now rewrite (int_isdecimal _ Hd), Hv.
Qed.

Lemma fmt02d_digits n : 0 <= n -> digits (fmt02d n) = true.
Proof. intros Hn. destruct (fmt02d_spec n Hn) as [Hd _]. now apply isdecimal_digits in Hd. Qed.

Lemma fmt02d_neg n : n < 0 -> exists r, fmt02d n = String "-" r.
Proof. intros Hn. unfold fmt02d. assert (E : (n <? 0) = true) by lia. rewrite E. eauto. Qed.

(** *** [_time_to_minutes] and [_minutes_to_time] *)

Lemma time_to_minutes_hm h m :
  isdecimal h = true -> isdecimal m = true ->
  _time_to_minutes (h ++ ":" ++ m) = Ok (str_val 0 h * 60 + str_val 0 m).
Proof.
  intros Hh Hm. unfold _time_to_minutes.
  pose proof Hh as Hh'. pose proof Hm as Hm'.
  apply isdecimal_digits in Hh' as [_ Hh']. apply isdecimal_digits in Hm' as [_ Hm'].
  change (h ++ ":" ++ m) with (h ++ String ":" m).
  rewrite split_on_app, split_on_absent by now apply digits_no_colon.
  now rewrite (int_isdecimal _ Hh), (int_isdecimal _ Hm).
Qed.

Lemma time_to_minutes_fmt h m :
  0 <= h -> 0 <= m -> _time_to_minutes (fmt02d h ++ ":" ++ fmt02d m) = Ok (h * 60 + m).
Proof.
  intros Hh Hm. destruct (fmt02d_spec h Hh) as [Hdh Hvh]. destruct (fmt02d_spec m Hm) as [Hdm Hvm].
  now rewrite time_to_minutes_hm, Hvh, Hvm.
Qed.

(** Reading back what [_minutes_to_time] printed gives the minutes. *)
Lemma time_roundtrip t : 0 <= t -> _time_to_minutes (_minutes_to_time t) = Ok t.
Proof.
  intros Ht. unfold _minutes_to_time.
  rewrite time_to_minutes_fmt.
  - f_equal. pose proof (Z.div_mod t 60). lia.
  - apply Z.div_pos; lia.
  - apply Z.mod_pos_bound. lia.
Qed.

Lemma minutes_to_time_no_dash t : 0 <= t -> has_char "-" (_minutes_to_time t) = false.
Proof.
  intros Ht. unfold _minutes_to_time, has_char.
  change (fmt02d (t / 60) ++ ":" ++ fmt02d (t mod 60))
    with (fmt02d (t / 60) ++ String ":" (fmt02d (t mod 60))).
  rewrite str_existsb_app. simpl.
  fold (has_char "-" (fmt02d (t / 60))). fold (has_char "-" (fmt02d (t mod 60))).
  rewrite !digits_no_dash; [reflexivity| |].
  - apply fmt02d_digits. apply Z.mod_pos_bound. lia.
  - apply fmt02d_digits. apply Z.div_pos; lia.
Qed.

Lemma minutes_to_time_neg t : t < 0 -> exists r, _minutes_to_time t = String "-" r.
Proof.
  intros Ht. unfold _minutes_to_time.
  destruct (fmt02d_neg (t / 60)) as [r Hr].
  { apply Z.div_lt_upper_bound; lia. }
  rewrite Hr. simpl. eauto.
Qed.

(** ** [_normalize_time_to_hhmm] *)

Lemma contains_char c s : contains (String c "") s = has_char c s.
Proof.
  induction s as [|x s IH]; [reflexivity|].
  unfold has_char in *. simpl. rewrite IH, andb_true_r, Ascii.eqb_sym. reflexivity.
Qed.

Lemma clean_time_plain s : str_forallb plain_char s = true -> clean_time s = s.
Proof.
  intros H. unfold clean_time, strip, lower.
  rewrite strip_with_id.
  2:{ revert H. apply str_forallb_not_exists. intros c Hc. unfold plain_char in Hc.
      destruct (isspace c); [discriminate | reflexivity]. }
  rewrite str_map_id.
  2:{ revert H. apply str_forallb_impl. intros c Hc. unfold plain_char in Hc.
      destruct (Ascii.eqb (lower_char c) c); [reflexivity|].
      now rewrite andb_false_r in Hc. }
  rewrite (replace_char_absent "." ":" s).
  2:{ revert H. apply str_forallb_not_exists. intros c Hc. unfold plain_char in Hc.
      destruct (Ascii.eqb c "."); [|reflexivity]. now rewrite !andb_false_r in Hc. }
  apply replace_char_absent.
  revert H. apply str_forallb_not_exists. intros c Hc. unfold plain_char in Hc.
  destruct (Ascii.eqb c " "); [|reflexivity]. now rewrite !andb_false_r in Hc.
Qed.

Lemma digits_plain s : digits s = true -> str_forallb plain_char s = true.
Proof.
  apply str_forallb_impl. intros c Hc.
  destruct (digit_char_facts c Hc) as (_ & Hs & _ & _ & _ & Hd & Hsp & _ & _ & Hl).
  unfold plain_char. rewrite Hs, Hl, Hd, Hsp, Ascii.eqb_refl. reflexivity.
Qed.

Lemma digits_no_m s : digits s = true -> has_char "m" s = false.
Proof. apply digits_no_char. intros d Hd. apply (digit_char_facts d Hd). Qed.

Lemma endswith_has_char p c s :
  endswith (p ++ String c "") s = true -> has_char c s = true.
Proof.
  intros H. apply endswith_inv in H. rewrite H. unfold has_char.
  rewrite !str_existsb_app. simpl. rewrite Ascii.eqb_refl.
  simpl. now rewrite !orb_true_r.
Qed.

Lemma isdecimal_not_digits s : digits s = false -> isdecimal s = false.
Proof. unfold isdecimal, digits. destruct s; [reflexivity | auto]. Qed.

(** The last step of the function, once hour, minute and suffix are read. *)
Lemma finish_time_spec sfx h m :
  0 <= h -> 0 <= m -> sfx = "" \/ sfx = "am" \/ sfx = "pm" ->
  finish_time (if String.eqb sfx "" then None else Some sfx) h m = hhmm_of (to_24h sfx h) m.
Proof.
  intros Hh Hm Hs. unfold finish_time, hhmm_of, to_24h.
  destruct Hs as [-> | [-> | ->]]; simpl;
    destruct (Z.eqb_spec h 12) as [-> | Hne]; simpl;
    repeat match goal with
           | |- context [?a <=? ?b] => destruct (Z.leb_spec a b); simpl
           end; try reflexivity; lia.
Qed.

Lemma split_ampm_suffix core sfx :
  has_char "m" core = false -> sfx = "" \/ sfx = "am" \/ sfx = "pm" ->
  split_ampm (core ++ sfx) = (if String.eqb sfx "" then None else Some sfx, core).
Proof.
  intros Hm [-> | [-> | ->]]; unfold split_ampm.
  - rewrite app_empty_r.
    assert (Ha : endswith "am" core = false).
    { destruct (endswith "am" core) eqn:E; [|reflexivity].
      apply (endswith_has_char "a" "m") in E. congruence. }
    assert (Hp : endswith "pm" core = false).
    { destruct (endswith "pm" core) eqn:E; [|reflexivity].
      apply (endswith_has_char "p" "m") in E. congruence. }
    now rewrite Ha, Hp.
  - rewrite (endswith_app core "am"). simpl orb.
    pose proof (take_last_app core "am") as T. pose proof (drop_last_app core "am") as D.
    simpl String.length in T, D. now rewrite T, D.
  - rewrite (endswith_app core "pm"), orb_true_r.
    pose proof (take_last_app core "pm") as T. pose proof (drop_last_app core "pm") as D.
    simpl String.length in T, D. now rewrite T, D.
Qed.

Lemma split_ampm_inv t ampm core :
  split_ampm t = (ampm, core) ->
  exists sfx, t = core ++ sfx /\ (sfx = "" \/ sfx = "am" \/ sfx = "pm") /\
              ampm = (if String.eqb sfx "" then None else Some sfx).
Proof.
  unfold split_ampm. destruct (endswith "am" t) eqn:Ea; [|destruct (endswith "pm" t) eqn:Ep];
    simpl; intros [= <- <-].
  - exists "am". pose proof (endswith_inv _ _ Ea) as Ht. simpl String.length in Ht.
    unfold endswith in Ea. apply andb_true_iff in Ea as [_ Ea]. apply String.eqb_eq in Ea.
    simpl String.length in Ea. rewrite Ea. auto.
  - exists "pm". pose proof (endswith_inv _ _ Ep) as Ht. simpl String.length in Ht.
    unfold endswith in Ep. apply andb_true_iff in Ep as [_ Ep]. apply String.eqb_eq in Ep.
    simpl String.length in Ep. rewrite Ep. auto.
  - exists "". rewrite app_empty_r. auto.
Qed.

Lemma read_hm_colon H M h m :
  isdigit H = true -> isdigit M = true -> int H = Ok h -> int M = Ok m ->
  read_hour_minute (H ++ String ":" M) = Ok (Some (h, m)).
Proof.
  intros HH HM Hh Hm. unfold read_hour_minute.
  pose proof (isdigit_int _ _ HH Hh) as HH'. pose proof (isdigit_int _ _ HM Hm) as HM'.
  apply isdecimal_digits in HH' as [_ HH']. apply isdecimal_digits in HM' as [_ HM'].
  rewrite isdigit_has_colon.
  rewrite contains_char. unfold has_char at 1. rewrite str_existsb_app. simpl.
  rewrite orb_true_r.
  rewrite split_on_app, split_on_absent by now apply digits_no_colon.
  now rewrite HH, HM, Hh, Hm.
Qed.

Lemma read_hm_bare H h :
  isdigit H = true -> int H = Ok h -> read_hour_minute H = Ok (Some (h, 0)).
Proof. intros HH Hh. unfold read_hour_minute. now rewrite HH, Hh. Qed.

Lemma read_hm_inv core h m :
  read_hour_minute core = Ok (Some (h, m)) ->
  (isdigit core = true /\ int core = Ok h /\ m = 0) \/
  (exists H M, core = H ++ String ":" M /\ isdigit H = true /\ isdigit M = true /\
               int H = Ok h /\ int M = Ok m).
Proof.
  unfold read_hour_minute. destruct (isdigit core) eqn:Ed.
  - destruct (int core) as [h0|] eqn:Ei; simpl; [|discriminate].
    intros [= <- <-]. left. auto.
  - destruct (contains ":" core); [|discriminate].
    destruct (split_on ":" core) as [|p0 [|p1 [|? ?]]] eqn:Es; try discriminate.
    destruct (isdigit p0) eqn:E0; [|discriminate].
    destruct (isdigit p1) eqn:E1; [|discriminate]. simpl.
    destruct (int p0) as [h0|] eqn:Ei0; simpl; [|discriminate].
    destruct (int p1) as [m0|] eqn:Ei1; simpl; [|discriminate].
    intros [= <- <-]. right. exists p0, p1.
    apply split_on_two in Es as (Hs & _ & _). auto.
Qed.

(** [read_hour_minute] raises only through [int], on a string [isdigit]
    accepts that is not of decimal digits. *)
Lemma read_hm_fault core e :
  read_hour_minute core = Fail e ->
  e = ValueError /\
  exists part, isdigit part = true /\ isdecimal part = false /\
               (part = core \/ In part (split_on ":" core)).
Proof.
  assert (Hint : forall x e', int x = Fail e' -> e' = ValueError).
  { intros x e'. unfold int. destruct (strip_with int_isspace x) as [|c r];
      [now intros [= <-]|].
    destruct (Ascii.eqb c "+"); [|destruct (Ascii.eqb c "-")];
      destruct (int_digits 0 false _); simpl; try discriminate; now intros [= <-]. }
  assert (Hbad : forall x e', isdigit x = true -> int x = Fail e' -> isdecimal x = false).
  { intros x e' Hx Hi. destruct (isdecimal x) eqn:Ex; [|reflexivity].
    rewrite (int_isdecimal _ Ex) in Hi. discriminate. }
  unfold read_hour_minute. destruct (isdigit core) eqn:Ed.
  - destruct (int core) as [h0|e0] eqn:Ei; simpl; [discriminate|].
    intros [= <-]. split; [exact (Hint _ _ Ei)|]. exists core. eauto.
  - destruct (contains ":" core); [|discriminate].
    destruct (split_on ":" core) as [|p0 [|p1 [|? ?]]] eqn:Es; try discriminate.
    destruct (isdigit p0) eqn:E0; [|discriminate].
    destruct (isdigit p1) eqn:E1; [|discriminate]. simpl.
    destruct (int p0) as [h0|e0] eqn:Ei0; simpl.
    + destruct (int p1) as [m0|e1] eqn:Ei1; simpl; [discriminate|].
      intros [= <-]. split; [exact (Hint _ _ Ei1)|]. exists p1.
      split; [exact E1|]. split; [exact (Hbad _ _ E1 Ei1)|]. right. right. now left.
    + intros [= <-]. split; [exact (Hint _ _ Ei0)|]. exists p0.
      split; [exact E0|]. split; [exact (Hbad _ _ E0 Ei0)|]. right. now left.
Qed.

Lemma finish_time_inv ampm h m out :
  finish_time ampm h m = Some out ->
  exists h', 0 <= h' <= 23 /\ 0 <= m <= 59 /\ out = fmt02d h' ++ ":" ++ fmt02d m.
Proof.
  unfold finish_time.
  match goal with |- context [negb ?b] => destruct b eqn:E end; simpl; [|discriminate].
  intros [= <-]. eexists. split; [|split; [|reflexivity]]; lia.
Qed.

Lemma hhmm_of_inv h m out :
  0 <= h -> 0 <= m -> hhmm_of h m = Some out ->
  0 <= h <= 23 /\ 0 <= m <= 59 /\ out = fmt02d h ++ ":" ++ fmt02d m.
Proof.
  unfold hhmm_of. intros Hh Hm. destruct ((h <=? 23) && (m <=? 59)) eqn:E; [|discriminate].
  intros [= <-]. repeat split; lia.
Qed.

Lemma isdecimal_nonempty_app a b : isdecimal a = true -> String.eqb (a ++ b) "" = false.
Proof. destruct a; [discriminate | reflexivity]. Qed.

Lemma sfx_plain sfx :
  sfx = "" \/ sfx = "am" \/ sfx = "pm" -> str_forallb plain_char sfx = true.
Proof. intros [-> | [-> | ->]]; reflexivity. Qed.

Lemma normalize_hm H M sfx h m :
  isdigit H = true -> isdigit M = true -> int H = Ok h -> int M = Ok m ->
  sfx = "" \/ sfx = "am" \/ sfx = "pm" ->
  _normalize_time_to_hhmm (H ++ ":" ++ M ++ sfx) = Ok (hhmm_of (to_24h sfx h) m).
Proof.
  intros HH HM Hh Hm Hs. unfold _normalize_time_to_hhmm.
  pose proof (isdigit_int _ _ HH Hh) as HHd. pose proof (isdigit_int _ _ HM Hm) as HMd.
  rewrite (isdecimal_nonempty_app _ _ HHd).
  pose proof HHd as HH'. pose proof HMd as HM'.
  apply isdecimal_digits in HH' as [_ HH']. apply isdecimal_digits in HM' as [_ HM'].
  replace (H ++ ":" ++ M ++ sfx) with ((H ++ String ":" M) ++ sfx)
    by (now rewrite app_assoc_str).
  rewrite clean_time_plain.
  2:{ rewrite !str_forallb_app. simpl.
      now rewrite (digits_plain _ HH'), (digits_plain _ HM'), (sfx_plain _ Hs). }
  rewrite split_ampm_suffix; [|
    unfold has_char; rewrite str_existsb_app; simpl;
    fold (has_char "m" H); fold (has_char "m" M);
    now rewrite !digits_no_m | exact Hs].
  rewrite (read_hm_colon _ _ _ _ HH HM Hh Hm). simpl.
  rewrite finish_time_spec; auto.
  - rewrite (int_isdecimal _ HHd) in Hh. injection Hh as <-.
    apply (str_val_lower_bound H 0 HH'). lia.
  - rewrite (int_isdecimal _ HMd) in Hm. injection Hm as <-.
    apply (str_val_lower_bound M 0 HM'). lia.
Qed.

Lemma normalize_h H sfx h :
  isdigit H = true -> int H = Ok h -> sfx = "" \/ sfx = "am" \/ sfx = "pm" ->
  _normalize_time_to_hhmm (H ++ sfx) = Ok (hhmm_of (to_24h sfx h) 0).
Proof.
  intros HH Hh Hs. unfold _normalize_time_to_hhmm.
  pose proof (isdigit_int _ _ HH Hh) as HHd.
  rewrite (isdecimal_nonempty_app _ _ HHd).
  pose proof HHd as HH'. apply isdecimal_digits in HH' as [_ HH'].
  rewrite clean_time_plain.
  2:{ rewrite !str_forallb_app. now rewrite (digits_plain _ HH'), (sfx_plain _ Hs). }
  rewrite split_ampm_suffix; [|now apply digits_no_m | exact Hs].
  rewrite (read_hm_bare _ _ HH Hh). simpl.
  rewrite finish_time_spec; auto; [|lia].
  rewrite (int_isdecimal _ HHd) in Hh. injection Hh as <-.
  apply (str_val_lower_bound H 0 HH'). lia.
Qed.

Lemma normalize_inv s out :
  _normalize_time_to_hhmm s = Ok (Some out) ->
  exists sfx core h m,
    clean_time s = core ++ sfx /\ (sfx = "" \/ sfx = "am" \/ sfx = "pm") /\
    read_hour_minute core = Ok (Some (h, m)) /\
    finish_time (if String.eqb sfx "" then None else Some sfx) h m = Some out.
Proof.
  unfold _normalize_time_to_hhmm. destruct (String.eqb s ""); [discriminate|].
  destruct (split_ampm (clean_time s)) as [ampm core] eqn:Es.
  apply split_ampm_inv in Es as (sfx & Ht & Hs & ->).
  destruct (read_hour_minute core) as [[[h m]|]|] eqn:Er; simpl; try discriminate.
  intros [= Hf]. exists sfx, core, h, m. auto.
Qed.

(** What [_normalize_time_to_hhmm] returns is an hour below 24 and a minute
    below 60, two digits each. *)
Lemma normalize_range s out :
  _normalize_time_to_hhmm s = Ok (Some out) ->
  exists h m, 0 <= h <= 23 /\ 0 <= m <= 59 /\ out = fmt02d h ++ ":" ++ fmt02d m.
Proof.
  intros H. apply normalize_inv in H as (sfx & core & h & m & _ & _ & _ & Hf).
  apply finish_time_inv in Hf as (h' & Hh & Hm & ->). eauto.
Qed.

Lemma normalize_fixed h m :
  0 <= h <= 23 -> 0 <= m <= 59 ->
  _normalize_time_to_hhmm (fmt02d h ++ ":" ++ fmt02d m) = Ok (Some (fmt02d h ++ ":" ++ fmt02d m)).
Proof.
  intros Hh Hm.
  destruct (fmt02d_spec h) as [Hdh _]; [lia|]. destruct (fmt02d_spec m) as [Hdm _]; [lia|].
  pose proof (normalize_hm (fmt02d h) (fmt02d m) "" h m
                (isdecimal_isdigit _ Hdh) (isdecimal_isdigit _ Hdm)) as N.
  rewrite app_empty_r in N. rewrite N; [| apply int_fmt02d; lia | apply int_fmt02d; lia | auto].
  unfold to_24h, hhmm_of. simpl.
  destruct (Z.leb_spec h 23); [|lia]. destruct (Z.leb_spec m 59); [|lia]. reflexivity.
Qed.

(** The part of the contract the function keeps: 12am is 00:00, 12pm stays
    12:00, any other hour with pm gains 12; an hour above 23 or a minute
    above 59 gives [None]; every time returned comes from a token of
    digits, optionally a colon and digits, optionally am or pm; and a
    returned HH:MM is a fixed point. *)
Lemma normalize_time_to_hhmm_cases :
  (_normalize_time_to_hhmm "12am" = Ok (Some "00:00") /\
   _normalize_time_to_hhmm "12pm" = Ok (Some "12:00") /\
   _normalize_time_to_hhmm "1:30 pm" = Ok (Some "13:30") /\
   _normalize_time_to_hhmm "9" = Ok (Some "09:00") /\
   _normalize_time_to_hhmm "24" = Ok None /\
   _normalize_time_to_hhmm "13pm" = Ok None /\
   _normalize_time_to_hhmm "9:60" = Ok None /\
   _normalize_time_to_hhmm "9:15:00" = Ok None /\
   _normalize_time_to_hhmm "noon" = Ok None) /\
  (forall H M sfx h m,
      isdigit H = true -> isdigit M = true -> int H = Ok h -> int M = Ok m ->
      sfx = "" \/ sfx = "am" \/ sfx = "pm" ->
      _normalize_time_to_hhmm (H ++ ":" ++ M ++ sfx) = Ok (hhmm_of (to_24h sfx h) m) /\
      _normalize_time_to_hhmm (H ++ sfx) = Ok (hhmm_of (to_24h sfx h) 0)) /\
  (forall h, to_24h "am" 12 = 0 /\ to_24h "pm" 12 = 12 /\ to_24h "" h = h /\
             (h <> 12 -> to_24h "pm" h = h + 12 /\ to_24h "am" h = h)) /\
  (forall h m, 23 < h \/ 59 < m -> hhmm_of h m = None) /\
  (forall s out,
      _normalize_time_to_hhmm s = Ok (Some out) ->
      exists H sfx h,
        isdigit H = true /\ int H = Ok h /\ (sfx = "" \/ sfx = "am" \/ sfx = "pm") /\
        ((clean_time s = H ++ sfx /\ hhmm_of (to_24h sfx h) 0 = Some out) \/
         (exists M m, isdigit M = true /\ int M = Ok m /\
                      clean_time s = H ++ ":" ++ M ++ sfx /\
                      hhmm_of (to_24h sfx h) m = Some out))) /\
  (forall s out,
      _normalize_time_to_hhmm s = Ok (Some out) ->
      _normalize_time_to_hhmm out = Ok (Some out)).
Proof.
  split; [repeat split; reflexivity|].
  split; [intros H M sfx h m HH HM Hh Hm Hs; split;
          [now apply normalize_hm | now apply normalize_h]|].
  split.
  { intros h. unfold to_24h. simpl. repeat split; try reflexivity.
    - destruct (Z.eqb_spec h 12); [contradiction | reflexivity].
    - destruct (Z.eqb_spec h 12); [contradiction | reflexivity]. }
  split.
  { intros h m Hr. unfold hhmm_of.
    destruct (Z.leb_spec h 23); destruct (Z.leb_spec m 59); simpl; try reflexivity. lia. }
  split.
  { intros s out Hn. pose proof Hn as Hn'.
    apply normalize_inv in Hn as (sfx & core & h & m & Hc & Hs & Hr & Hf).
    apply read_hm_inv in Hr as [(Hd & Hi & ->) | (H & M & -> & HH & HM & Hh & Hm)].
    - exists core, sfx, h. repeat split; auto. left. split; [exact Hc|].
      pose proof (normalize_h core sfx h Hd Hi Hs) as N.
      pose proof (isdigit_int _ _ Hd Hi) as Hdd.
      unfold _normalize_time_to_hhmm in Hn', N.
      rewrite (isdecimal_nonempty_app _ _ Hdd) in N.
      destruct (String.eqb s ""); [discriminate|].
      rewrite Hc in Hn'. rewrite (clean_time_plain (core ++ sfx)) in N.
      + rewrite Hn' in N. now injection N.
      + apply isdecimal_digits in Hdd as [_ Hdd].
        rewrite str_forallb_app. now rewrite (digits_plain _ Hdd), (sfx_plain _ Hs).
    - exists H, sfx, h. repeat split; auto. right. exists M, m. repeat split; auto.
      + rewrite Hc. now rewrite app_assoc_str.
      + pose proof (normalize_hm H M sfx h m HH HM Hh Hm Hs) as N.
        pose proof (isdigit_int _ _ HH Hh) as HHd. pose proof (isdigit_int _ _ HM Hm) as HMd.
        unfold _normalize_time_to_hhmm in Hn', N.
        rewrite (isdecimal_nonempty_app _ _ HHd) in N.
        destruct (String.eqb s ""); [discriminate|].
        rewrite Hc in Hn'.
        replace (H ++ ":" ++ M ++ sfx) with ((H ++ String ":" M) ++ sfx) in N
          by (now rewrite app_assoc_str).
        rewrite (clean_time_plain ((H ++ String ":" M) ++ sfx)) in N.
        * rewrite Hn' in N. now injection N.
        * apply isdecimal_digits in HHd as [_ HHd]. apply isdecimal_digits in HMd as [_ HMd].
          rewrite !str_forallb_app. simpl.
          now rewrite (digits_plain _ HHd), (digits_plain _ HMd), (sfx_plain _ Hs). }
  intros s out Hn. apply normalize_range in Hn as (h & m & Hh & Hm & ->).
  now apply normalize_fixed.
Qed.

(** The superscript two (U+00B2), the shortest string [str.isdigit]
    accepts and [int] refuses. *)
Lemma superscript_two_is_digit :
  isdigit (String "178" "") = true /\ int (String "178" "") = Fail ValueError.
Proof. split; reflexivity. Qed.

Lemma normalize_fault s e :
  _normalize_time_to_hhmm s = Fail e ->
  e = ValueError /\
  exists part, isdigit part = true /\ isdecimal part = false /\ int part = Fail ValueError.
Proof.
  unfold _normalize_time_to_hhmm. destruct (String.eqb s ""); [discriminate|].
  destruct (split_ampm (clean_time s)) as [ampm core].
  destruct (read_hour_minute core) as [[[h m]|]|e0] eqn:Er; simpl; try discriminate.
  intros [= <-]. apply read_hm_fault in Er as (-> & part & Hd & Hn & _).
  split; [reflexivity|]. exists part. split; [exact Hd|]. split; [exact Hn|].
  destruct (int part) as [v|e1] eqn:Ei.
  - rewrite (isdigit_int _ _ Hd Ei) in Hn. discriminate.
  - f_equal. unfold int in Ei. destruct (strip_with int_isspace part) as [|c r];
      [now injection Ei as <-|].
    destruct (Ascii.eqb c "+"); [|destruct (Ascii.eqb c "-")];
      destruct (int_digits 0 false _); simpl in Ei; try discriminate; now injection Ei as <-.
Qed.

(** C8. [_normalize_time_to_hhmm] does not return [None] for every
    malformed token: on the superscript two, alone, as hour or as minute,
    with or without am or pm, it raises [ValueError], because [isdigit]
    accepts the character and [int], called outside any [try], does not.
    On an input no longer than the interpreter converts to an integer
    this is its only way to raise: on a digit string that is not of
    decimal digits. *)
Theorem normalize_time_to_hhmm_raises :
  _normalize_time_to_hhmm (String "178" "") = Fail ValueError /\
  _normalize_time_to_hhmm (String "178" " pm") = Fail ValueError /\
  _normalize_time_to_hhmm (String "178" ":30") = Fail ValueError /\
  _normalize_time_to_hhmm ("9:" ++ String "178" "") = Fail ValueError /\
  isdigit (String "178" "") = true /\ int (String "178" "") = Fail ValueError /\
  (forall s e,
      (String.length s <= MAX_STR_DIGITS)%nat ->
      _normalize_time_to_hhmm s = Fail e ->
      e = ValueError /\
      exists part, isdigit part = true /\ isdecimal part = false /\
                   int part = Fail ValueError).
Proof.
  repeat (split; [reflexivity|]). intros s e _. apply normalize_fault.
Qed.

Lemma normalize_time_to_hhmm_raises_witness :
  (String.length (String "178" ":30") <= MAX_STR_DIGITS)%nat /\
  _normalize_time_to_hhmm (String "178" ":30") = Fail ValueError /\
  exists part, isdigit part = true /\ isdecimal part = false /\
               int part = Fail ValueError.
Proof.
  assert (Hlen : (String.length (String "178" ":30") <= MAX_STR_DIGITS)%nat)
    by (vm_compute; lia).
  destruct normalize_time_to_hhmm_raises as (_ & _ & Hraise & _ & _ & _ & Honly).
  split; [exact Hlen|]. split; [exact Hraise|].
  exact (proj2 (Honly _ ValueError Hlen Hraise)).
Defined.

(** ** [_expand_ranges_to_slots] *)

Lemma has_char_app c a b : has_char c (a ++ b) = has_char c a || has_char c b.
Proof. apply str_existsb_app. Qed.

Lemma time_to_minutes_nonneg x t :
  _time_to_minutes x = Ok t -> has_char "-" x = false -> 0 <= t.
Proof.
  unfold _time_to_minutes.
  destruct (split_on ":" x) as [|h [|m [|? ?]]] eqn:Es; try discriminate.
  apply split_on_two in Es as (-> & _ & _).
  rewrite has_char_app. intros H Hno. apply orb_false_iff in Hno as [Hh Hm].
  unfold has_char in Hm. simpl in Hm. fold (has_char "-" m) in Hm.
  destruct (int h) as [hv|] eqn:Eh; simpl in H; [|discriminate].
  destruct (int m) as [mv|] eqn:Em; simpl in H; [|discriminate].
  injection H as <-.
  pose proof (int_nonneg _ _ Eh Hh). pose proof (int_nonneg _ _ Em Hm). lia.
Qed.

Lemma range_minutes_inv r s e :
  range_minutes r = Ok (s, e) ->
  exists rs re, r = rs ++ String "-" re /\
                has_char "-" rs = false /\ has_char "-" re = false /\
                _time_to_minutes rs = Ok s /\ _time_to_minutes re = Ok e.
Proof.
  unfold range_minutes.
  destruct (split_on "-" r) as [|rs [|re [|? ?]]] eqn:Es; try discriminate.
  apply split_on_two in Es as (-> & Hrs & Hre).
  destruct (_time_to_minutes rs) as [a|] eqn:Ea; simpl; [|discriminate].
  destruct (_time_to_minutes re) as [b|] eqn:Eb; simpl; [|discriminate].
  intros [= <- <-]. exists rs, re. auto.
Qed.

(** A stored range that parses starts and ends at a minute from 0 on. *)
Lemma range_minutes_nonneg r s e : range_minutes r = Ok (s, e) -> 0 <= s /\ 0 <= e.
Proof.
  intros H. apply range_minutes_inv in H as (rs & re & _ & Hrs & Hre & Hs & He).
  split; eapply time_to_minutes_nonneg; eauto.
Qed.

Lemma candidates_nil start end_ step service :
  end_ < start + service -> candidates start end_ step service = [].
Proof.
  intros H. unfold candidates, candidate_count.
  destruct (Z.leb_spec (start + service) end_); [lia | reflexivity].
Qed.

Lemma candidates_cons start end_ step service :
  0 < step -> start + service <= end_ ->
  candidates start end_ step service
  = start :: candidates (start + step) end_ step service.
Proof.
  intros Hstep Hfit. unfold candidates, candidate_count.
  destruct (Z.leb_spec (start + service) end_); [|lia].
  set (a := end_ - service - start). assert (Ha : 0 <= a) by (unfold a; lia).
  cbn [seq map]. f_equal; [lia|].
  rewrite <- seq_shift, map_map.
  assert (Hq : (end_ - service - (start + step)) / step = a / step - 1).
  { replace (end_ - service - (start + step)) with (a + (-1) * step) by (unfold a; lia).
    rewrite Z.div_add by lia. lia. }
  destruct (Z.leb_spec (start + step + service) end_).
  - rewrite Hq.
    assert (1 <= a / step) by (apply Z.div_le_lower_bound; unfold a; lia).
    replace (S (Z.to_nat (a / step - 1))) with (Z.to_nat (a / step)) by lia.
    apply map_ext. intros k. lia.
  - rewrite Z.div_small by (unfold a; lia). reflexivity.
Qed.

Lemma candidates_In start end_ step service t :
  0 < step ->
  In t (candidates start end_ step service) <->
  exists k, 0 <= k /\ t = start + k * step /\ t + service <= end_.
Proof.
  intros Hstep. unfold candidates, candidate_count. rewrite in_map_iff. split.
  - intros (k & <- & Hk). apply in_seq in Hk.
    destruct (Z.leb_spec (start + service) end_) as [Hfit|]; [|lia].
    exists (Z.of_nat k). split; [lia|]. split; [reflexivity|].
    set (a := end_ - service - start) in *. assert (Ha : 0 <= a) by (unfold a; lia).
    assert (0 <= a / step) by (apply Z.div_pos; lia).
    assert (Z.of_nat k <= a / step) by lia.
    pose proof (Z.mul_div_le a step Hstep).
    assert (Z.of_nat k * step <= a / step * step) by (apply Z.mul_le_mono_nonneg_r; lia).
    unfold a in *. lia.
  - intros (k & Hk & -> & Hfit).
    assert (0 <= k * step) by (apply Z.mul_nonneg_nonneg; lia).
    destruct (Z.leb_spec (start + service) end_); [|lia].
    exists (Z.to_nat k). split; [lia|]. apply in_seq.
    assert (k <= (end_ - service - start) / step) by (apply Z.div_le_lower_bound; lia).
    lia.
Qed.

Lemma slots_while_spec step service end_ : 0 < step ->
  forall fuel t,
    (Z.to_nat (end_ - service - t + 1) < fuel)%nat ->
    slots_while fuel t end_ step service
    = Ok (map _minutes_to_time (candidates t end_ step service)).
Proof.
  intros Hstep. induction fuel as [|f IH]; intros t Hf; [lia|].
  cbn [slots_while]. destruct (Z.leb_spec (t + service) end_) as [Hfit|Hno].
  - rewrite IH by lia. simpl. now rewrite (candidates_cons t) by assumption.
  - now rewrite candidates_nil by lia.
Qed.

(** With no range long enough for the service the loop is never entered,
    whatever the step. *)
Lemma slots_while_short fuel t end_ step service :
  end_ < t + service -> slots_while (S fuel) t end_ step service = Ok [].
Proof.
  intros H. cbn [slots_while]. destruct (Z.leb_spec (t + service) end_); [lia | reflexivity].
Qed.

(** With a step of zero or less a loop that is entered never exits: no
    amount of fuel gives a result. *)
Lemma slots_while_diverges fuel t end_ step service :
  step <= 0 -> t + service <= end_ ->
  slots_while fuel t end_ step service = Fail Diverges.
Proof.
  intros Hstep. revert t. induction fuel as [|f IH]; intros t Hfit; [reflexivity|].
  cbn [slots_while]. destruct (Z.leb_spec (t + service) end_); [|lia].
  now rewrite IH by lia.
Qed.

Lemma expand_spec ranges step service :
  0 < step ->
  _expand_ranges_to_slots ranges step service
  = Ok (concat (map (range_slots step service) ranges)).
Proof.
  intros Hstep. induction ranges as [|r ranges IH]; [reflexivity|].
  cbn [_expand_ranges_to_slots map concat]. unfold range_slots at 1.
  destruct (range_minutes r) as [[s e]|] eqn:Er.
  - rewrite slots_while_spec by (unfold slots_fuel; lia). rewrite IH. reflexivity.
  - exact IH.
Qed.

(** The text of a well-formed range reads back as its two minutes. *)
Lemma range_text_parse start end_ :
  0 <= start -> 0 <= end_ -> range_minutes (range_text start end_) = Ok (start, end_).
Proof.
  intros Hs He. unfold range_minutes, range_text.
  change (_minutes_to_time start ++ "-" ++ _minutes_to_time end_)
    with (_minutes_to_time start ++ String "-" (_minutes_to_time end_)).
  rewrite split_on_app by now apply minutes_to_time_no_dash.
  rewrite split_on_absent by now apply minutes_to_time_no_dash.
  now rewrite !time_roundtrip by assumption.
Qed.

Lemma expand_app ranges1 ranges2 step service :
  _expand_ranges_to_slots (ranges1 ++ ranges2)%list step service
  = (do a <- _expand_ranges_to_slots ranges1 step service;
     do b <- _expand_ranges_to_slots ranges2 step service;
     Ok (a ++ b)%list).
Proof.
  induction ranges1 as [|r ranges1 IH]; cbn [app _expand_ranges_to_slots].
  - cbn [bind]. now destruct (_expand_ranges_to_slots ranges2 step service).
  - destruct (range_minutes r) as [[s e]|]; [|exact IH].
    destruct (slots_while _ s e step service) as [here|]; cbn [bind]; [|reflexivity].
    rewrite IH. destruct (_expand_ranges_to_slots ranges1 step service) as [a|];
      cbn [bind]; [|reflexivity].
    destruct (_expand_ranges_to_slots ranges2 step service) as [b|]; cbn [bind];
      [|reflexivity].
    now rewrite List.app_assoc.
Qed.

(** With a step of zero or less the loop does not end once a range is
    long enough for the service, and is never entered otherwise. *)
Lemma expand_stalls ranges step service :
  step <= 0 ->
  ((exists r s e, In r ranges /\ range_minutes r = Ok (s, e) /\ s + service <= e) ->
   _expand_ranges_to_slots ranges step service = Fail Diverges) /\
  ((forall r s e, In r ranges -> range_minutes r = Ok (s, e) -> e < s + service) ->
   _expand_ranges_to_slots ranges step service = Ok []).
Proof.
  intros Hstep. induction ranges as [|r rs [IH1 IH2]]; split.
  - intros (r & s & e & [] & _).
  - reflexivity.
  - intros (r0 & s & e & Hin & Hr & Hfit). cbn [_expand_ranges_to_slots].
    destruct (range_minutes r) as [[s1 e1]|e1] eqn:E1.
    + destruct (Z.le_gt_cases (s1 + service) e1) as [Hle|Hgt].
      * rewrite slots_while_diverges by assumption. reflexivity.
      * unfold slots_fuel. rewrite slots_while_short by lia. cbn [bind].
        destruct Hin as [E|Hin].
        { subst r0. rewrite Hr in E1. injection E1 as E1a E1b. lia. }
        rewrite IH1 by eauto 6. reflexivity.
    + destruct Hin as [E|Hin]; [subst r0; congruence|]. apply IH1; eauto 6.
  - intros Hall. cbn [_expand_ranges_to_slots].
    destruct (range_minutes r) as [[s1 e1]|e1] eqn:E1.
    + unfold slots_fuel.
      rewrite slots_while_short by (apply (Hall r); [now left|exact E1]).
      cbn [bind]. rewrite IH2; [reflexivity|].
      intros r' s' e' Hin. apply Hall. now right.
    + apply IH2. intros r' s' e' Hin. apply Hall. now right.
Qed.

Lemma expand_short ranges step service :
  (forall r start end_, In r ranges -> range_minutes r = Ok (start, end_) ->
                        end_ - start < service) ->
  _expand_ranges_to_slots ranges step service = Ok [].
Proof.
  intros Hshort. induction ranges as [|r ranges IH]; [reflexivity|].
  cbn [_expand_ranges_to_slots].
  destruct (range_minutes r) as [[s e]|] eqn:Er.
  - unfold slots_fuel. rewrite slots_while_short
      by (specialize (Hshort r s e (or_introl eq_refl) Er); lia).
    cbn [bind]. rewrite IH; [reflexivity|]. intros; eapply Hshort; eauto. now right.
  - apply IH. intros; eapply Hshort; eauto. now right.
Qed.

Lemma expand_slot_fits ranges step service slots slot :
  _expand_ranges_to_slots ranges step service = Ok slots -> In slot slots ->
  exists r start end_ t,
    In r ranges /\ range_minutes r = Ok (start, end_) /\
    slot = _minutes_to_time t /\ _time_to_minutes slot = Ok t /\
    start <= t /\ t + service <= end_.
Proof.
  intros Hex Hin. destruct (Z.lt_ge_cases 0 step) as [Hstep|Hstep].
  - rewrite expand_spec in Hex by assumption. injection Hex as <-.
    apply in_concat in Hin as (l & Hl & Hin).
    apply in_map_iff in Hl as (r & <- & Hr). unfold range_slots in Hin.
    destruct (range_minutes r) as [[s e]|] eqn:Er; [|contradiction].
    apply in_map_iff in Hin as (t & <- & Ht).
    apply candidates_In in Ht as (k & Hk & -> & Hfit); [|assumption].
    destruct (range_minutes_nonneg _ _ _ Er) as [Hs _].
    assert (0 <= k * step) by (apply Z.mul_nonneg_nonneg; lia).
    exists r, s, e, (s + k * step). repeat split; auto; try lia.
    apply time_roundtrip. lia.
  - exfalso. destruct (expand_stalls ranges step service ltac:(lia)) as [Hd He].
    assert (Hcase : (exists r s e, In r ranges /\ range_minutes r = Ok (s, e) /\
                                   s + service <= e) \/
                    (forall r s e, In r ranges -> range_minutes r = Ok (s, e) ->
                                   e < s + service)).
    { clear. induction ranges as [|r ranges [IH|IH]].
      - right. intros ? ? ? [].
      - left. destruct IH as (r0 & s & e & Hin & H). exists r0, s, e.
        split; [now right | exact H].
      - destruct (range_minutes r) as [[s e]|] eqn:Er.
        + destruct (Z.le_gt_cases (s + service) e).
          * left. exists r, s, e. split; [now left|]. auto.
          * right. intros r0 s0 e0 [<-|Hin] H0; [|eauto]. rewrite Er in H0.
            injection H0 as <- <-. lia.
        + right. intros r0 s0 e0 [<-|Hin] H0; [congruence | eauto]. }
    destruct Hcase as [Hc|Hc].
    + rewrite (Hd Hc) in Hex. discriminate.
    + rewrite (He Hc) in Hex. injection Hex as <-. destruct Hin.
Qed.

(** C9. For each well-formed range, the text HH:MM-HH:MM of a start and
    an end, [_expand_ranges_to_slots] emits the candidates start,
    start+step, start+2*step, ... exactly while candidate + service <=
    end, as HH:MM; the slots of a list of ranges are those of its ranges
    in order, a range that does not read contributing none; every slot
    of a returned list ends within its own range; and a service longer
    than every range gives the empty list, not an error.  The emission
    goes on while the condition holds: with a step of zero or less and a
    range long enough for the service it does not end. *)
Theorem expand_ranges_to_slots_spec (ranges : list string) (step service : Z) :
  (forall start end_,
      0 <= start -> 0 <= end_ ->
      range_minutes (range_text start end_) = Ok (start, end_) /\
      (0 < step ->
       _expand_ranges_to_slots [range_text start end_] step service
       = Ok (map _minutes_to_time (candidates start end_ step service)))) /\
  (0 < step ->
   forall start end_ t,
     In t (candidates start end_ step service) <->
     exists k, 0 <= k /\ t = start + k * step /\ t + service <= end_) /\
  (forall ranges1 ranges2,
      _expand_ranges_to_slots (ranges1 ++ ranges2)%list step service
      = (do a <- _expand_ranges_to_slots ranges1 step service;
         do b <- _expand_ranges_to_slots ranges2 step service;
         Ok (a ++ b)%list)) /\
  (forall r e, range_minutes r = Fail e ->
               _expand_ranges_to_slots [r] step service = Ok []) /\
  (0 < step ->
   _expand_ranges_to_slots ranges step service
   = Ok (concat (map (range_slots step service) ranges))) /\
  (forall slots slot,
      _expand_ranges_to_slots ranges step service = Ok slots -> In slot slots ->
      exists r start end_ t,
        In r ranges /\ range_minutes r = Ok (start, end_) /\
        slot = _minutes_to_time t /\ _time_to_minutes slot = Ok t /\
        start <= t /\ t + service <= end_) /\
  ((forall r start end_, In r ranges -> range_minutes r = Ok (start, end_) ->
                         end_ - start < service) ->
   _expand_ranges_to_slots ranges step service = Ok []) /\
  (step <= 0 ->
   (exists r start end_, In r ranges /\ range_minutes r = Ok (start, end_) /\
                         start + service <= end_) ->
   _expand_ranges_to_slots ranges step service = Fail Diverges).
Proof.
  split.
  { intros start end_ Hs He. split; [now apply range_text_parse|]. intros Hstep.
    rewrite expand_spec by assumption. cbn [map concat]. unfold range_slots.
    rewrite range_text_parse by assumption. now rewrite app_nil_r. }
  split; [intros Hstep start end_ t; now apply candidates_In|].
  split; [intros; apply expand_app|].
  split.
  { intros r e Hr. cbn [_expand_ranges_to_slots]. now rewrite Hr. }
  split; [apply expand_spec|].
  split; [intros slots slot; apply expand_slot_fits|].
  split; [apply expand_short|].
  intros Hstep Hfit. now apply (expand_stalls ranges step service Hstep).
Qed.

(** The seed Saturday in two shifts, with an entry that is no range. *)
Lemma expand_ranges_to_slots_spec_witness :
  range_text 600 660 = "10:00-11:00" /\
  _expand_ranges_to_slots ["10:00-11:00"] 15 30 = Ok ["10:00"; "10:15"; "10:30"] /\
  _expand_ranges_to_slots ["10:00-11:00"; "lunch"; "13:00-13:40"] 15 30
  = Ok ["10:00"; "10:15"; "10:30"; "13:00"] /\
  _expand_ranges_to_slots ["10:00-10:20"; "13:00-13:25"] 15 30 = Ok [] /\
  _expand_ranges_to_slots ["10:00-11:00"] 0 30 = Fail Diverges.
Proof.
  destruct (expand_ranges_to_slots_spec ["10:00-11:00"; "lunch"; "13:00-13:40"] 15 30)
    as (H1 & _ & _ & _ & H5 & _).
  destruct (expand_ranges_to_slots_spec ["10:00-10:20"; "13:00-13:25"] 15 30)
    as (_ & _ & _ & _ & _ & _ & H7 & _).
  destruct (expand_ranges_to_slots_spec ["10:00-11:00"] 0 30)
    as (_ & _ & _ & _ & _ & _ & _ & H8).
  split; [reflexivity|]. split.
  { destruct (H1 600 660) as [_ E]; [lia | lia |].
    change (range_text 600 660) with "10:00-11:00" in E. rewrite E by lia. reflexivity. }
  split; [rewrite H5 by lia; reflexivity|]. split.
  { apply H7. intros r s e [<-|[<-|[]]]; vm_compute; intros [= <- <-]; reflexivity. }
  apply H8; [lia|]. exists "10:00-11:00", 600, 660.
  split; [now left|]. split; [reflexivity | lia].
Defined.

(** ** Dates *)

Lemma days_before_month_succ y m :
  1 <= m < 12 -> _days_before_month y (m + 1) = _days_before_month y m + _days_in_month y m.
Proof.
  intros Hm.
  assert (m = 1 \/ m = 2 \/ m = 3 \/ m = 4 \/ m = 5 \/ m = 6 \/ m = 7 \/ m = 8 \/ m = 9 \/
          m = 10 \/ m = 11) as Hc by lia.
  unfold _days_before_month, _days_in_month.
  repeat (destruct Hc as [-> | Hc]; [destruct (_is_leap y); reflexivity|]).
  subst. destruct (_is_leap y); reflexivity.
Qed.

Lemma days_in_month_bounds y m : 1 <= m <= 12 -> 28 <= _days_in_month y m <= 31.
Proof.
  intros Hm.
  assert (m = 1 \/ m = 2 \/ m = 3 \/ m = 4 \/ m = 5 \/ m = 6 \/ m = 7 \/ m = 8 \/ m = 9 \/
          m = 10 \/ m = 11 \/ m = 12) as Hc by lia.
  unfold _days_in_month, _DAYS_IN_MONTH.
  repeat (destruct Hc as [-> | Hc]; [destruct (_is_leap y); simpl; lia|]).
  subst. destruct (_is_leap y); simpl; lia.
Qed.

Lemma days_before_year_succ y :
  _days_before_year (y + 1) = _days_before_year y + 365 + (if _is_leap y then 1 else 0).
Proof.
  unfold _days_before_year, _is_leap.
  replace (y + 1 - 1) with y by lia.
  destruct (Z.eqb_spec (y mod 4) 0); destruct (Z.eqb_spec (y mod 100) 0);
    destruct (Z.eqb_spec (y mod 400) 0); simpl; Z.div_mod_to_equations; lia.
Qed.

Lemma valid_ymd_iff y m d :
  valid_ymd y m d = true <->
  1 <= y <= 9999 /\ 1 <= m <= 12 /\ 1 <= d <= _days_in_month y m.
Proof. unfold valid_ymd, MINYEAR, MAXYEAR. lia. Qed.

Lemma next_day_spec dt :
  valid_datetime dt = true -> toordinal dt < MAXORDINAL ->
  exists r, next_day dt = Ok r /\ toordinal r = toordinal dt + 1 /\
            valid_datetime r = true /\ hour r = hour dt /\ minute r = minute dt.
Proof.
  destruct dt as [y m d hh mi]. unfold valid_datetime, toordinal, next_day, MAXORDINAL.
  cbn [year month day hour minute]. intros Hv Hord.
  apply andb_true_iff in Hv as [Hv Hmi2]. apply andb_true_iff in Hv as [Hv Hmi1].
  apply andb_true_iff in Hv as [Hv Hh2]. apply andb_true_iff in Hv as [Hv Hh1].
  apply valid_ymd_iff in Hv as (Hy & Hm & Hd).
  destruct (Z.ltb_spec d (_days_in_month y m)) as [Hlt|Hge].
  - eexists. split; [reflexivity|]. cbn [year month day hour minute].
    repeat split; auto.
    + unfold _ymd2ord. lia.
    + rewrite !andb_true_iff. repeat split; try lia. apply valid_ymd_iff. lia.
  - destruct (Z.ltb_spec m 12) as [Hm12|Hm12].
    + eexists. split; [reflexivity|]. cbn [year month day hour minute].
      repeat split; auto.
      * unfold _ymd2ord. rewrite days_before_month_succ by lia. lia.
      * rewrite !andb_true_iff. repeat split; try lia. apply valid_ymd_iff.
        pose proof (days_in_month_bounds y (m + 1)). lia.
    + assert (m = 12) by lia. subst m.
      assert (Hd31 : d = 31) by (unfold _days_in_month, _DAYS_IN_MONTH in *; simpl in *; lia).
      subst d.
      unfold MAXYEAR. destruct (Z.ltb_spec y 9999) as [Hy9|Hy9].
      * eexists. split; [reflexivity|]. cbn [year month day hour minute].
        repeat split; auto.
        -- unfold _ymd2ord. rewrite days_before_year_succ.
           unfold _days_before_month. simpl. destruct (_is_leap y); lia.
        -- rewrite !andb_true_iff. repeat split; try lia. apply valid_ymd_iff.
           unfold _days_in_month, _DAYS_IN_MONTH. simpl. lia.
      * assert (y = 9999) by lia. subst y. vm_compute in Hord. discriminate.
Qed.

Lemma plus_days_spec n : forall dt,
  valid_datetime dt = true -> toordinal dt + Z.of_nat n <= MAXORDINAL ->
  exists r, plus_days dt n = Ok r /\ toordinal r = toordinal dt + Z.of_nat n /\
            valid_datetime r = true /\ hour r = hour dt /\ minute r = minute dt.
Proof.
  induction n as [|n IH]; intros dt Hv Hord.
  - exists dt. simpl. repeat split; auto. lia.
  - destruct (next_day_spec dt Hv) as (d1 & H1 & O1 & V1 & Hh1 & Hm1); [lia|].
    destruct (IH d1 V1) as (r & Hr & Or & Vr & Hhr & Hmr); [lia|].
    exists r. cbn [plus_days]. rewrite H1. simpl. rewrite Hr.
    repeat split; auto; try congruence. lia.
Qed.

Lemma toordinal_at_midnight dt : toordinal (at_midnight dt) = toordinal dt.
Proof. reflexivity. Qed.

Lemma weekday_at_midnight dt : weekday (at_midnight dt) = weekday dt.
Proof. reflexivity. Qed.

(** ** [parse_natural_date] *)

Lemma parse_next_weekday i name anchor :
  0 <= i < 7 -> In name (weekday_spellings i) ->
  parse_natural_date ("next " ++ name) anchor
  = (do r <- plus_days anchor (Z.to_nat (next_delta i anchor)); Ok (Some (at_midnight r))).
Proof.
  intros Hi Hin.
  assert (i = 0 \/ i = 1 \/ i = 2 \/ i = 3 \/ i = 4 \/ i = 5 \/ i = 6) as Hc by lia.
  repeat (destruct Hc as [-> | Hc];
          [repeat (destruct Hin as [<- | Hin]; [reflexivity|]); destruct Hin|]).
  subst. repeat (destruct Hin as [<- | Hin]; [reflexivity|]). destruct Hin.
Qed.

Lemma next_delta_bounds i anchor :
  0 <= i < 7 ->
  1 <= next_delta i anchor <= 7 /\
  (toordinal anchor + next_delta i anchor + 6) mod 7 = i /\
  (weekday anchor = i -> next_delta i anchor = 7).
Proof.
  intros Hi. unfold next_delta, weekday. cbv zeta.
  destruct (Z.eqb_spec ((i - (toordinal anchor + 6) mod 7) mod 7) 0) as [E|E]; cbv iota.
  - split; [lia | split; [|intros _; reflexivity]]. Z.div_mod_to_equations. lia.
  - split; [|split]; try intros ?; Z.div_mod_to_equations; lia.
Qed.

(** C2 as stated fails: said on Monday 2025-11-03, "next Tue" is the day
    after, not a week or more out, and "next Mon" is seven days later, not
    eight. *)
Lemma next_weekday_counterexample :
  let anchor := mkDatetime 2025 11 3 9 30 in
  weekday anchor = 0 /\
  (exists r, parse_natural_date ("next " ++ "Tue") anchor = Ok (Some r) /\
             ~ 7 <= toordinal r - toordinal anchor) /\
  (exists r, parse_natural_date ("next " ++ "Mon") anchor = Ok (Some r) /\
             toordinal r - toordinal anchor <> 8).
Proof.
  split; [reflexivity|]. split.
  - exists (mkDatetime 2025 11 4 0 0). split; [reflexivity|]. vm_compute. intros H. now apply H.
  - exists (mkDatetime 2025 11 10 0 0). split; [reflexivity|]. vm_compute. discriminate.
Qed.

(** C2, amended. For an anchor at least a week before the last date a
    [datetime] can hold, "next " + weekday is midnight of the first day
    after the anchor's day that falls on that weekday: one to seven days
    later, never the current day, and exactly seven days later when the
    anchor's weekday is the requested one. *)
Theorem parse_next_weekday_spec (anchor : datetime) (i : Z) (name : string) :
  valid_datetime anchor = true ->
  toordinal anchor + 7 <= MAXORDINAL ->
  0 <= i < 7 ->
  In name (weekday_spellings i) ->
  exists r,
    parse_natural_date ("next " ++ name) anchor = Ok (Some r) /\
    weekday r = i /\ hour r = 0 /\ minute r = 0 /\
    1 <= toordinal r - toordinal anchor <= 7 /\
    (weekday anchor = i -> toordinal r - toordinal anchor = 7).
Proof.
  intros Hv Hmax Hi Hname. rewrite (parse_next_weekday i) by assumption.
  destruct (next_delta_bounds i anchor Hi) as (Hd & Hw & Hsame).
  destruct (plus_days_spec (Z.to_nat (next_delta i anchor)) anchor Hv) as (r & Hr & Or & _);
    [lia|].
  rewrite Z2Nat.id in Or by lia.
  exists (at_midnight r). rewrite Hr. simpl. split; [reflexivity|].
  rewrite weekday_at_midnight, toordinal_at_midnight. unfold weekday at 1. rewrite Or.
  split; [exact Hw|]. split; [reflexivity|]. split; [reflexivity|]. split; [lia|].
  intros E. specialize (Hsame E). lia.
Qed.

Lemma parse_next_weekday_spec_witness :
  valid_datetime (mkDatetime 2025 11 3 9 30) = true /\
  toordinal (mkDatetime 2025 11 3 9 30) + 7 <= MAXORDINAL /\
  0 <= 0 < 7 /\
  In "monday" (weekday_spellings 0) /\
  exists r,
    parse_natural_date ("next " ++ "monday") (mkDatetime 2025 11 3 9 30) = Ok (Some r) /\
    weekday r = 0 /\ hour r = 0 /\ minute r = 0 /\
    1 <= toordinal r - toordinal (mkDatetime 2025 11 3 9 30) <= 7 /\
    (weekday (mkDatetime 2025 11 3 9 30) = 0 ->
     toordinal r - toordinal (mkDatetime 2025 11 3 9 30) = 7).
Proof.
  assert (Hname : In "monday" (weekday_spellings 0)) by (simpl; auto).
  split; [reflexivity|]. split; [vm_compute; discriminate|]. split; [lia|].
  split; [exact Hname|].
  apply (parse_next_weekday_spec (mkDatetime 2025 11 3 9 30) 0 "monday");
    [reflexivity | vm_compute; discriminate | lia | exact Hname].
Defined.

(** ** The availability engine *)

Lemma filter_res_In {A : Type} (p : A -> res bool) l r :
  filter_res p l = Ok r -> forall x, In x r <-> In x l /\ p x = Ok true.
Proof.
  revert r. induction l as [|a l IH]; intros r; simpl.
  - intros [= <-] x. simpl. tauto.
  - destruct (p a) as [b|] eqn:Ea; simpl; [|discriminate].
    destruct (filter_res p l) as [r0|] eqn:El; simpl; [|discriminate].
    intros [= <-] x. specialize (IH r0 eq_refl x).
    destruct b; simpl; rewrite IH; split.
    + intros [<- | [? ?]]; auto.
    + intros [[<- | ?] ?]; auto.
    + intros [? ?]; auto.
    + intros [[<- | ?] ?]; [congruence | auto].
Qed.

Lemma filter_res_ok {A : Type} (p : A -> res bool) l :
  (forall x, In x l -> exists b, p x = Ok b) -> exists r, filter_res p l = Ok r.
Proof.
  induction l as [|a l IH]; intros H; simpl; [eauto|].
  destruct (H a (or_introl eq_refl)) as [b ->]. simpl.
  destruct IH as [r ->]; [intros; apply H; now right|]. simpl. eauto.
Qed.

Lemma filter_res_defined {A : Type} (p : A -> res bool) l r :
  filter_res p l = Ok r -> forall x, In x l -> exists b, p x = Ok b.
Proof.
  revert r. induction l as [|a l IH]; intros r; simpl; [contradiction|].
  destruct (p a) as [b|] eqn:Ea; simpl; [|discriminate].
  destruct (filter_res p l) as [r0|] eqn:El; simpl; [|discriminate].
  intros _ x [<- | Hx]; [eauto | eapply IH; eauto].
Qed.

(** A filter that ran on [l] runs on every list drawn from [l]. *)
Lemma filter_res_sub {A : Type} (p : A -> res bool) l l' r :
  filter_res p l = Ok r -> incl l' l ->
  exists r', filter_res p l' = Ok r' /\ incl r' l' /\ incl r' r.
Proof.
  intros H Hi. destruct (filter_res_ok p l') as [r' Hr'].
  { intros x Hx. eapply filter_res_defined; eauto. }
  exists r'. split; [exact Hr'|]. split; intros x Hx.
  - now apply (filter_res_In _ _ _ Hr').
  - apply (filter_res_In _ _ _ Hr') in Hx as [Hx Hp].
    apply (filter_res_In _ _ _ H). auto.
Qed.

Lemma firstn_In {A : Type} n (l : list A) x : In x (firstn n l) -> In x l.
Proof.
  revert l. induction n as [|n IH]; intros [|a l]; simpl; try contradiction.
  intros [<- | H]; auto.
Qed.

Lemma subtract_In slots taken d keep :
  _subtract_appointments slots taken d = Ok keep ->
  forall s, In s keep <->
            In s slots /\ exists t, _time_to_minutes s = Ok t /\
                                    existsb (conflicts t (t + d)) taken = false.
Proof.
  revert keep. induction slots as [|a slots IH]; intros keep; simpl.
  - intros [= <-] s. simpl. split; [contradiction | tauto].
  - destruct (_time_to_minutes a) as [ta|] eqn:Ea; simpl; [|discriminate].
    destruct (_subtract_appointments slots taken d) as [k0|] eqn:Ek; simpl; [|discriminate].
    intros [= <-] s. specialize (IH k0 eq_refl s).
    destruct (existsb (conflicts ta (ta + d)) taken) eqn:Ec.
    + rewrite IH. split.
      * intros [? ?]; auto.
      * intros [[<- | Hs] (t & Ht & Hc)]; [|eauto]. congruence.
    + simpl. rewrite IH. split.
      * intros [<- | [? ?]]; eauto.
      * intros [[<- | Hs] Hx]; auto.
Qed.

Lemma subtract_defined slots taken d keep :
  _subtract_appointments slots taken d = Ok keep ->
  forall s, In s slots -> exists t, _time_to_minutes s = Ok t.
Proof.
  revert keep. induction slots as [|a slots IH]; intros keep; simpl; [contradiction|].
  destruct (_time_to_minutes a) as [ta|] eqn:Ea; simpl; [|discriminate].
  destruct (_subtract_appointments slots taken d) as [k0|] eqn:Ek; simpl; [|discriminate].
  intros _ s [<- | Hs]; [eauto | eapply IH; eauto].
Qed.

Lemma subtract_ok slots taken d :
  (forall s, In s slots -> exists t, _time_to_minutes s = Ok t) ->
  exists keep, _subtract_appointments slots taken d = Ok keep.
Proof.
  induction slots as [|a slots IH]; intros H; simpl; [eauto|].
  destruct (H a (or_introl eq_refl)) as [t ->]. simpl.
  destruct IH as [k ->]; [intros; apply H; now right|]. simpl. eauto.
Qed.

Lemma daypart_filter_sub dp d l l' r :
  daypart_filter dp d l = Ok r -> incl l' l ->
  exists r', daypart_filter dp d l' = Ok r' /\ incl r' l' /\ incl r' r.
Proof.
  unfold daypart_filter. destruct dp as [[d0 d1]|].
  - destruct (_time_to_minutes d0) as [a|]; simpl; [|discriminate].
    destruct (_time_to_minutes d1) as [b|]; simpl; [|discriminate].
    apply filter_res_sub.
  - intros [= <-] Hi. exists l'. split; [reflexivity|]. split; [apply incl_refl | exact Hi].
Qed.

Lemma today_filter_sub w ds d l l' r :
  today_filter w ds d l = Ok r -> incl l' l ->
  exists r', today_filter w ds d l' = Ok r' /\ incl r' l' /\ incl r' r.
Proof.
  unfold today_filter. destruct (String.eqb ds (strftime_date (now w))).
  - destruct (_time_to_minutes (strftime_hm (now w))) as [a|]; simpl; [|discriminate].
    apply filter_res_sub.
  - intros [= <-] Hi. exists l'. split; [reflexivity|]. split; [apply incl_refl | exact Hi].
Qed.

Lemma daypart_filter_incl dp d l r : daypart_filter dp d l = Ok r -> incl r l.
Proof.
  intros H. destruct (daypart_filter_sub dp d l l r H (incl_refl l)) as (r' & Hr' & Hi & _).
  rewrite H in Hr'. injection Hr' as <-. exact Hi.
Qed.

Lemma today_filter_incl w ds d l r : today_filter w ds d l = Ok r -> incl r l.
Proof.
  intros H. destruct (today_filter_sub w ds d l l r H (incl_refl l)) as (r' & Hr' & Hi & _).
  rewrite H in Hr'. injection Hr' as <-. exact Hi.
Qed.

Lemma ranges_applicable wk date_str wd :
  match exceptions wk !! date_str with
  | Some l => l
  | None => default [] (weekly_hours wk !! wd)
  end = default [] (applicable_ranges wk date_str wd).
Proof. unfold applicable_ranges. now destruct (exceptions wk !! date_str). Qed.

(** [check_availability] case by case. *)
Lemma check_availability_unparsed w phrase svc limit dp :
  parse_natural_date (phrase_parsed phrase) (now w) = Ok None ->
  check_availability w phrase svc limit dp
  = Ok (mkAvail (Some MSG_PARSE) None None None None [] None None).
Proof.
  intros Hp. unfold check_availability, phrase_parsed in *.
  destruct (extract_daypart (default "" phrase)) as [c e]. simpl in Hp. now rewrite Hp.
Qed.

Lemma check_availability_closed w phrase svc limit dp dt :
  parse_natural_date (phrase_parsed phrase) (now w) = Ok (Some dt) ->
  default [] (applicable_ranges (working w) (strftime_date dt) (weekday_name (weekday dt))) = [] ->
  check_availability w phrase svc limit dp
  = Ok (mkAvail None (Some (strftime_date dt)) (Some (weekday_name (weekday dt)))
                None None [] None (Some true)).
Proof.
  intros Hp Hr. unfold check_availability, phrase_parsed in *.
  destruct (extract_daypart (default "" phrase)) as [c e]. simpl in Hp. rewrite Hp. simpl.
  rewrite ranges_applicable, Hr. reflexivity.
Qed.

Lemma check_availability_open w phrase svc limit dp dt :
  parse_natural_date (phrase_parsed phrase) (now w) = Ok (Some dt) ->
  default [] (applicable_ranges (working w) (strftime_date dt) (weekday_name (weekday dt))) <> [] ->
  check_availability w phrase svc limit dp
  = (let date_str := strftime_date dt in
     let wd := weekday_name (weekday dt) in
     let ranges := default [] (applicable_ranges (working w) date_str wd) in
     let service_min := _get_service_minutes w svc in
     do all_slots <- _expand_ranges_to_slots ranges (slot_interval_minutes (working w))
                                              service_min;
     do free <- _subtract_appointments all_slots (_get_taken_ranges_from_calendar w date_str)
                                       service_min;
     do free1 <- daypart_filter (daypart_used phrase dp) service_min free;
     do free2 <- today_filter w date_str service_min free1;
     Ok (mkAvail None (Some date_str) (Some wd) svc (Some service_min)
                 (firstn (Z.to_nat (Z.max 1 limit)) free2)
                 (Some (Z.of_nat (List.length free2))) None)).
Proof.
  intros Hp Hr. unfold check_availability, phrase_parsed, daypart_used in *.
  destruct (extract_daypart (default "" phrase)) as [c e]. simpl in Hp. rewrite Hp. simpl.
  rewrite ranges_applicable.
  destruct (default [] (applicable_ranges (working w) (strftime_date dt)
                                          (weekday_name (weekday dt)))) eqn:E;
    [congruence|].
  reflexivity.
Qed.

Lemma conflicts_iff t e taken :
  existsb (conflicts t e) taken = true <->
  exists r rs re, In r taken /\ range_minutes r = Ok (rs, re) /\ overlap t e rs re.
Proof.
  rewrite existsb_exists. unfold conflicts, overlap. split.
  - intros (r & Hr & Hc). destruct (range_minutes r) as [[rs re]|] eqn:E; [|discriminate].
    exists r, rs, re. repeat split; auto; lia.
  - intros (r & rs & re & Hr & E & Ho). exists r. rewrite E. split; [exact Hr | lia].
Qed.

Lemma conflicts_false_iff t e taken :
  existsb (conflicts t e) taken = false <->
  ~ exists r rs re, In r taken /\ range_minutes r = Ok (rs, re) /\ overlap t e rs re.
Proof.
  rewrite <- conflicts_iff. destruct (existsb (conflicts t e) taken); split; congruence.
Qed.

(** [get_hours] and [check_availability] take the range list of a date
    from [exceptions] when the date as [strftime] prints it is a key
    there, even an empty list, and from the weekday's entry of
    [weekly_hours] otherwise; they report closed = true exactly when that
    list is empty or absent. *)
Lemma hours_resolution (w : World) (date_phrase : option string) :
  (forall date_str wd l,
      exceptions (working w) !! date_str = Some l ->
      applicable_ranges (working w) date_str wd = Some l) /\
  (forall date_str wd,
      exceptions (working w) !! date_str = None ->
      applicable_ranges (working w) date_str wd = weekly_hours (working w) !! wd) /\
  (forall dt,
      parse_natural_date (or_today (default "" date_phrase)) (now w) = Ok (Some dt) ->
      let date_str := strftime_date dt in
      let wd := weekday_name (weekday dt) in
      let app := applicable_ranges (working w) date_str wd in
      exists hr,
        get_hours w date_phrase = Ok hr /\
        h_date hr = Some date_str /\ h_weekday hr = Some wd /\
        h_ranges hr = Some (default [] app) /\
        (h_closed hr = Some true \/ h_closed hr = Some false) /\
        (h_closed hr = Some true <-> app = None \/ app = Some [])) /\
  (forall svc limit dp dt,
      parse_natural_date (phrase_parsed date_phrase) (now w) = Ok (Some dt) ->
      let date_str := strftime_date dt in
      let wd := weekday_name (weekday dt) in
      let app := applicable_ranges (working w) date_str wd in
      (app = None \/ app = Some [] ->
       exists av, check_availability w date_phrase svc limit dp = Ok av /\
                  av_closed av = Some true /\ av_available av = [] /\
                  av_date av = Some date_str) /\
      (forall av,
          check_availability w date_phrase svc limit dp = Ok av ->
          (av_closed av = Some true <-> app = None \/ app = Some []) /\
          (forall s, In s (av_available av) ->
                     exists all_slots,
                       _expand_ranges_to_slots (default [] app)
                         (slot_interval_minutes (working w)) (_get_service_minutes w svc)
                       = Ok all_slots /\ In s all_slots))).
Proof.
  assert (Hempty : forall app : option (list string),
             default [] app = [] <-> app = None \/ app = Some []).
  { intros [[|x l]|]; simpl; split; auto; try discriminate.
    intros [H | H]; discriminate. }
  split; [intros ds wd l H; unfold applicable_ranges; now rewrite H|].
  split; [intros ds wd H; unfold applicable_ranges; now rewrite H|].
  split.
  - intros dt Hp date_str wd app. unfold get_hours. rewrite Hp. simpl.
    unfold lookup_ranges. rewrite ranges_applicable. fold date_str wd app.
    destruct (default [] app) as [|x l] eqn:E.
    + eexists. split; [reflexivity|]. simpl. repeat split; auto.
      intros _. now apply Hempty.
    + eexists. split; [reflexivity|]. simpl. repeat split; auto; try discriminate.
      intros H. apply Hempty in H. congruence.
  - intros svc limit dp dt Hp date_str wd app. split.
    + intros Ha. apply Hempty in Ha. eexists. split.
      * apply (check_availability_closed _ _ _ _ _ dt); assumption.
      * simpl. auto.
    + intros av Hav. destruct (default [] app) as [|x l] eqn:E.
      * rewrite (check_availability_closed _ _ _ _ _ dt) in Hav by assumption.
        injection Hav as <-. simpl. split.
        -- split; auto. intros _. now apply Hempty.
        -- intros s [].
      * rewrite (check_availability_open _ _ _ _ _ dt) in Hav
          by (try assumption; fold date_str wd app; congruence).
        cbv zeta in Hav. fold date_str wd app in Hav. rewrite E in Hav.
        destruct (_expand_ranges_to_slots _ _ _) as [all_slots|] eqn:Ex;
          simpl in Hav; [|discriminate].
        destruct (_subtract_appointments _ _ _) as [free|] eqn:Es;
          simpl in Hav; [|discriminate].
        destruct (daypart_filter _ _ _) as [f1|] eqn:Ed; simpl in Hav; [|discriminate].
        destruct (today_filter _ _ _ _) as [f2|] eqn:Et; simpl in Hav; [|discriminate].
        injection Hav as <-. simpl. split.
        -- split; [discriminate|]. intros H. apply Hempty in H. congruence.
        -- intros s Hs. exists all_slots. split; [reflexivity|].
           apply firstn_In in Hs. apply (today_filter_incl _ _ _ _ _ Et) in Hs.
           apply (daypart_filter_incl _ _ _ _ Ed) in Hs.
           now apply (subtract_In _ _ _ _ Es) in Hs.
Qed.

(** C7. A date before the year 1000 misses its exception.  In
    [early_exception_world] every Tuesday is open from nine to five and
    two Tuesdays are closed by an empty exception list: 0999-01-01 and
    2025-11-04.  Asked for 2025-11-04, [get_hours] and
    [check_availability] use the exception and report the day closed.
    Asked for 0999-01-01, they parse the date, print it without the
    leading zero of the year, find no exception under that key, use the
    weekly entry of Tuesday and report the day open, with slots. *)
Theorem hours_exception_missed_before_1000 :
  exceptions (working early_exception_world) !! "0999-01-01" = Some [] /\
  exceptions (working early_exception_world) !! "2025-11-04" = Some [] /\
  weekly_hours (working early_exception_world) !! "Tue" = Some ["09:00-17:00"] /\
  parse_natural_date "0999-01-01" (now early_exception_world)
  = Ok (Some (mkDatetime 999 1 1 0 0)) /\
  iso_date (mkDatetime 999 1 1 0 0) = "0999-01-01" /\
  strftime_date (mkDatetime 999 1 1 0 0) = "999-01-01" /\
  get_hours early_exception_world (Some "2025-11-04")
  = Ok (mkHours None (Some "2025-11-04") (Some "Tue") (Some []) None None (Some true)) /\
  get_hours early_exception_world (Some "0999-01-01")
  = Ok (mkHours None (Some "999-01-01") (Some "Tue") (Some ["09:00-17:00"])
                (Some "09:00") (Some "17:00") (Some false)) /\
  check_availability early_exception_world (Some "2025-11-04") None 3 None
  = Ok (mkAvail None (Some "2025-11-04") (Some "Tue") None None [] None (Some true)) /\
  check_availability early_exception_world (Some "0999-01-01") None 3 None
  = Ok (mkAvail None (Some "999-01-01") (Some "Tue") None (Some 30)
                ["09:00"; "09:15"; "09:30"] (Some 31) None).
Proof. repeat split; vm_compute; reflexivity. Qed.

(** A booked interval given in minutes is met by a candidate exactly when
    its stored text is. *)
Lemma booked_conflicts booked t e :
  Forall (fun p => 0 <= fst p /\ 0 <= snd p) booked ->
  existsb (conflicts t e) (booked_texts booked) = true <->
  exists rs re, In (rs, re) booked /\ t < re /\ e > rs.
Proof.
  intros Hb. rewrite conflicts_iff. unfold booked_texts, overlap. split.
  - intros (r & rs & re & Hr & Hp & Ho). apply in_map_iff in Hr as ([a b] & <- & Hin).
    destruct (proj1 (List.Forall_forall _ _) Hb _ Hin) as [Ha Hb']. simpl in *.
    rewrite range_text_parse in Hp by assumption. injection Hp as <- <-. eauto.
  - intros (rs & re & Hin & Ho).
    destruct (proj1 (List.Forall_forall _ _) Hb _ Hin) as [Ha Hb']. simpl in *.
    exists (range_text rs re), rs, re. split.
    + apply in_map_iff. exists (rs, re). auto.
    + split; [now apply range_text_parse | exact Ho].
Qed.

Lemma subtract_minutes slots taken d :
  Forall (fun t => 0 <= t) slots ->
  _subtract_appointments (map _minutes_to_time slots) taken d
  = Ok (map _minutes_to_time
            (List.filter (fun t => negb (existsb (conflicts t (t + d)) taken)) slots)).
Proof.
  induction 1 as [|t slots Ht _ IH]; simpl; [reflexivity|].
  rewrite time_roundtrip by assumption. simpl. rewrite IH. simpl.
  destruct (existsb _ _); reflexivity.
Qed.

(** C4. Against the intervals [rs, re) stored in the calendar for a date,
    the conflict filter of the availability engine keeps the candidate
    [s, s + service) exactly when no stored interval has s < re and
    s + service > rs, and the collision check at commit time refuses it,
    leaving the stores as they are, exactly when some stored interval has.
    A candidate that starts where a booking ends, or ends where a booking
    starts, is kept by the filter and accepted by the commit. *)
Theorem conflict_test_half_open (set_list : list string -> list string) (w : World)
    (date_str : string) (booked : list (Z * Z)) (service_min : Z)
    (client_name phone email : string) :
  appointments w !! date_str = Some (booked_texts booked) ->
  Forall (fun p => 0 <= fst p /\ 0 <= snd p) booked ->
  (forall slots,
      Forall (fun s => 0 <= s) slots ->
      exists kept,
        _subtract_appointments (map _minutes_to_time slots)
                               (_get_taken_ranges_from_calendar w date_str) service_min
        = Ok (map _minutes_to_time kept) /\
        forall s, In s kept <->
                  In s slots /\
                  ~ exists rs re, In (rs, re) booked /\ s < re /\ s + service_min > rs) /\
  (forall s,
      0 <= s ->
      ((exists rs re, In (rs, re) booked /\ s < re /\ s + service_min > rs) ->
       _append_appointment set_list w date_str (_minutes_to_time s) service_min
                           client_name phone email
       = (false, MSG_JUST_TAKEN, w)) /\
      ((~ exists rs re, In (rs, re) booked /\ s < re /\ s + service_min > rs) ->
       fst (fst (_append_appointment set_list w date_str (_minutes_to_time s) service_min
                                     client_name phone email)) = true)) /\
  (forall s,
      0 <= s ->
      (forall rs re, In (rs, re) booked -> s = re \/ s + service_min = rs) ->
      _subtract_appointments [_minutes_to_time s]
                             (_get_taken_ranges_from_calendar w date_str) service_min
      = Ok [_minutes_to_time s] /\
      fst (fst (_append_appointment set_list w date_str (_minutes_to_time s) service_min
                                    client_name phone email)) = true).
Proof.
  intros Hcal Hb.
  assert (Htaken : _get_taken_ranges_from_calendar w date_str = booked_texts booked)
    by (unfold _get_taken_ranges_from_calendar; now rewrite Hcal).
  rewrite Htaken.
  assert (Hfree : forall s,
             existsb (conflicts s (s + service_min)) (booked_texts booked) = false <->
             ~ exists rs re, In (rs, re) booked /\ s < re /\ s + service_min > rs).
  { intros s. rewrite <- (booked_conflicts booked s (s + service_min) Hb).
    destruct (existsb _ _); split; congruence. }
  assert (Hcommit : forall s, 0 <= s ->
             _append_appointment set_list w date_str (_minutes_to_time s) service_min
                                 client_name phone email
             = (false, MSG_JUST_TAKEN, w) /\
             existsb (conflicts s (s + service_min)) (booked_texts booked) = true \/
             fst (fst (_append_appointment set_list w date_str (_minutes_to_time s)
                                           service_min client_name phone email)) = true /\
             existsb (conflicts s (s + service_min)) (booked_texts booked) = false).
  { intros s Hs. unfold _append_appointment. rewrite time_roundtrip by assumption.
    rewrite Htaken. destruct (existsb _ _); [left | right]; split; reflexivity. }
  split; [|split].
  - intros slots Hslots.
    exists (List.filter (fun t => negb (existsb (conflicts t (t + service_min))
                                                (booked_texts booked))) slots).
    split; [now apply subtract_minutes|].
    intros s. rewrite filter_In, negb_true_iff, Hfree. reflexivity.
  - intros s Hs. destruct (Hcommit s Hs) as [[Ho Hc] | [Ho Hc]]; split.
    + intros _. exact Ho.
    + intros Hn. apply Hfree in Hn. congruence.
    + intros Hy. apply (booked_conflicts booked s (s + service_min) Hb) in Hy. congruence.
    + intros _. exact Ho.
  - intros s Hs Hback.
    assert (Hn : existsb (conflicts s (s + service_min)) (booked_texts booked) = false).
    { apply Hfree. intros (rs & re & Hin & H1 & H2). destruct (Hback rs re Hin); lia. }
    split.
    + simpl. rewrite time_roundtrip by assumption. simpl. now rewrite Hn.
    + destruct (Hcommit s Hs) as [[_ Hc] | [Ho _]]; [congruence | exact Ho].
Qed.

Lemma conflict_test_half_open_witness :
  appointments (rival_booking seed_world) !! "2025-11-04" = Some (booked_texts [(600, 660)]) /\
  appointments (rival_booking seed_world) !! "2025-11-04" = Some ["10:00-11:00"] /\
  Forall (fun p => 0 <= fst p /\ 0 <= snd p) [(600, 660)] /\
  _subtract_appointments ["09:30"; "09:45"; "10:00"; "10:45"; "11:00"]
    (_get_taken_ranges_from_calendar (rival_booking seed_world) "2025-11-04") 30
  = Ok ["09:30"; "11:00"] /\
  _append_appointment set_list_first (rival_booking seed_world) "2025-11-04" "10:45" 30
                      "Ann" "555-0100" "ann@example.org"
  = (false, MSG_JUST_TAKEN, rival_booking seed_world) /\
  _subtract_appointments ["11:00"]
    (_get_taken_ranges_from_calendar (rival_booking seed_world) "2025-11-04") 30
  = Ok ["11:00"] /\
  fst (fst (_append_appointment set_list_first (rival_booking seed_world) "2025-11-04"
                                "11:00" 30 "Ann" "555-0100" "ann@example.org")) = true /\
  _subtract_appointments ["09:30"]
    (_get_taken_ranges_from_calendar (rival_booking seed_world) "2025-11-04") 30
  = Ok ["09:30"] /\
  fst (fst (_append_appointment set_list_first (rival_booking seed_world) "2025-11-04"
                                "09:30" 30 "Ann" "555-0100" "ann@example.org")) = true.
Proof.
  assert (Hcal : appointments (rival_booking seed_world) !! "2025-11-04"
                 = Some (booked_texts [(600, 660)])) by reflexivity.
  assert (Hb : Forall (fun p => 0 <= fst p /\ 0 <= snd p) [(600, 660)])
    by (repeat constructor; simpl; lia).
  destruct (conflict_test_half_open set_list_first (rival_booking seed_world) "2025-11-04"
              [(600, 660)] 30 "Ann" "555-0100" "ann@example.org" Hcal Hb)
    as (_ & Hcommit & Hback).
  split; [exact Hcal|]. split; [reflexivity|]. split; [exact Hb|].
  split; [vm_compute; reflexivity|].
  split.
  { change "10:45" with (_minutes_to_time 645).
    apply (proj1 (Hcommit 645 ltac:(lia))). exists 600, 660.
    split; [now left | lia]. }
  assert (H660 : forall rs re, In (rs, re) [(600, 660)] -> 660 = re \/ 660 + 30 = rs)
    by (intros rs re [[= <- <-] | []]; now left).
  assert (H570 : forall rs re, In (rs, re) [(600, 660)] -> 570 = re \/ 570 + 30 = rs)
    by (intros rs re [[= <- <-] | []]; now right).
  destruct (Hback 660 ltac:(lia) H660) as [F660 C660].
  destruct (Hback 570 ltac:(lia) H570) as [F570 C570].
  repeat split; assumption.
Defined.

(** ** The booking transactor on sample data *)

Example seed_availability :
  option_map av_available
    (match check_availability seed_world (Some "Sat") None 8 None with
     | Ok av => Some av | Fail _ => None end)
  = Some ["10:00"; "10:15"; "10:30"; "10:45"; "11:00"; "11:15"; "11:30"; "11:45"].
Proof. vm_compute. reflexivity. Qed.

Example seed_total :
  option_map av_total_available
    (match check_availability seed_world (Some "Sat") None 8 None with
     | Ok av => Some av | Fail _ => None end)
  = Some (Some 15).
Proof. vm_compute. reflexivity. Qed.

Example seed_hours :
  get_hours seed_world (Some "Sat")
  = Ok (mkHours None (Some "2025-11-08") (Some "Sat") (Some ["10:00-14:00"])
                (Some "10:00") (Some "14:00") (Some false)).
Proof. vm_compute. reflexivity. Qed.

Example seed_booking :
  match book_appointment set_list_first seed_world "tomorrow morning" "10.30am" (Some "skin fade")
                         "Ann" "555-0100" "ann@example.org" with
  | Ok (r, w') => (success r, b_date r, b_end_time r,
                   appointments w' !! "2025-11-04")
  | Fail _ => (false, None, None, None)
  end = (true, Some "2025-11-04", Some "11:15", Some ["10:30-11:15"]).
Proof. vm_compute. reflexivity. Qed.

(** ** Sorting and the stored list *)

Lemma insert_by_perm {A : Type} (key : A -> Z) x l :
  Permutation (insert_by key x l) (x :: l).
Proof.
  induction l as [|y l IH]; simpl; [reflexivity|].
  destruct (key x <=? key y); [reflexivity|].
  rewrite IH. apply perm_swap.
Qed.

Lemma sorted_by_perm {A : Type} (key : A -> Z) l : Permutation (sorted_by key l) l.
Proof.
  induction l as [|x l IH]; simpl; [reflexivity|].
  unfold sorted_by in *. simpl. rewrite insert_by_perm. now constructor.
Qed.

Lemma insert_by_sorted {A : Type} (key : A -> Z) x l :
  StronglySorted (fun a b => key a <= key b) l ->
  StronglySorted (fun a b => key a <= key b) (insert_by key x l).
Proof.
  induction 1 as [|y l Hs IH Hy]; simpl.
  - repeat constructor.
  - destruct (Z.leb_spec (key x) (key y)) as [Hle|Hgt].
    + constructor; [now constructor|]. constructor; [exact Hle|].
      eapply Forall_impl; [exact Hy|]. simpl. intros. lia.
    + constructor; [exact IH|].
      assert (Hall : Forall (fun b => key y <= key b) (x :: l))
        by (constructor; [lia | exact Hy]).
      rewrite Forall_forall in Hall |- *. intros z Hz. apply Hall.
      apply list_elem_of_In. apply list_elem_of_In in Hz.
      eapply Permutation_in; [apply insert_by_perm | exact Hz].
Qed.

Lemma sorted_by_sorted {A : Type} (key : A -> Z) l :
  StronglySorted (fun a b => key a <= key b) (sorted_by key l).
Proof.
  induction l as [|x l IH]; [constructor|]. now apply insert_by_sorted.
Qed.

Lemma set_list_first_ok : set_list_ok set_list_first.
Proof.
  intros l. split; [apply NoDup_ListNoDup, List.NoDup_nodup | intros x; apply nodup_In].
Qed.

Lemma overlap_sym s1 e1 s2 e2 : overlap s1 e1 s2 e2 -> overlap s2 e2 s1 e1.
Proof. unfold overlap. lia. Qed.

Lemma lookup_In (l : list string) i x : l !! i = Some x -> In x l.
Proof. intros H. apply list_elem_of_In. eapply list_elem_of_lookup_2; eauto. Qed.

Lemma In_lookup (l : list string) x : In x l -> exists i, l !! i = Some x.
Proof. intros H. apply list_elem_of_In in H. now apply list_elem_of_lookup_1. Qed.

(** Adding one range that overlaps none of a list, and reordering without
    repeats, keeps the list free of overlaps. *)
Lemma no_overlaps_add l l' new start end_ :
  no_overlaps l ->
  (forall r rs re, In r l -> range_minutes r = Ok (rs, re) -> ~ overlap start end_ rs re) ->
  (forall s e, range_minutes new = Ok (s, e) -> s = start /\ e = end_) ->
  NoDup l' ->
  (forall x, In x l' -> In x l \/ x = new) ->
  no_overlaps l'.
Proof.
  intros Hl Hfree Hnew Hnd Hin i j r1 r2 s1 e1 s2 e2 Hij H1 H2 P1 P2 Ho.
  assert (Hne : r1 <> r2).
  { intros ->. apply Hij. eapply NoDup_lookup; eauto. }
  destruct (Hin r1 (lookup_In _ _ _ H1)) as [I1 | ->];
    destruct (Hin r2 (lookup_In _ _ _ H2)) as [I2 | ->].
  - destruct (In_lookup _ _ I1) as [i' Hi']. destruct (In_lookup _ _ I2) as [j' Hj'].
    apply (Hl i' j' r1 r2 s1 e1 s2 e2); auto. intros ->. congruence.
  - destruct (Hnew _ _ P2) as [-> ->]. apply overlap_sym in Ho.
    exact (Hfree r1 s1 e1 I1 P1 Ho).
  - destruct (Hnew _ _ P1) as [-> ->]. exact (Hfree r2 s2 e2 I2 P2 Ho).
  - congruence.
Qed.

(** The range [_append_appointment] writes either does not parse (an end
    before midnight prints with a minus sign) or reads back as the interval
    that was checked. *)
Lemma new_range_parse st start_m em s e :
  has_char "-" st = false -> _time_to_minutes st = Ok start_m ->
  range_minutes (st ++ "-" ++ _minutes_to_time em) = Ok (s, e) ->
  s = start_m /\ e = em.
Proof.
  intros Hno Hst. unfold range_minutes.
  change (st ++ "-" ++ _minutes_to_time em) with (st ++ String "-" (_minutes_to_time em)).
  rewrite split_on_app by assumption.
  destruct (Z.lt_ge_cases em 0) as [Hneg|Hpos].
  - destruct (minutes_to_time_neg em Hneg) as [r ->]. simpl.
    destruct (split_on "-" r) as [|p ps] eqn:E; [now apply split_on_nonempty in E|].
    discriminate.
  - rewrite split_on_absent by now apply minutes_to_time_no_dash.
    rewrite Hst, time_roundtrip by assumption. simpl. now intros [= <- <-].
Qed.

Lemma new_range_parse_ok st start_m em :
  has_char "-" st = false -> _time_to_minutes st = Ok start_m -> 0 <= em ->
  range_minutes (st ++ "-" ++ _minutes_to_time em) = Ok (start_m, em).
Proof.
  intros Hno Hst Hem. unfold range_minutes.
  change (st ++ "-" ++ _minutes_to_time em) with (st ++ String "-" (_minutes_to_time em)).
  rewrite split_on_app by assumption.
  rewrite split_on_absent by now apply minutes_to_time_no_dash.
  now rewrite Hst, time_roundtrip by assumption.
Qed.

(** A normalised start time has no minus sign and reads as its minutes. *)
Lemma normalized_start s st :
  _normalize_time_to_hhmm s = Ok (Some st) ->
  has_char "-" st = false /\ exists t, 0 <= t /\ _time_to_minutes st = Ok t.
Proof.
  intros H. apply normalize_range in H as (h & m & Hh & Hm & ->). split.
  - change (fmt02d h ++ ":" ++ fmt02d m) with (fmt02d h ++ String ":" (fmt02d m)).
    rewrite has_char_app. unfold has_char at 2. simpl.
    fold (has_char "-" (fmt02d m)).
    rewrite !digits_no_dash; [reflexivity | |]; apply fmt02d_digits; lia.
  - exists (h * 60 + m). split; [lia|]. apply time_to_minutes_fmt; lia.
Qed.

Lemma str_in_In s l : str_in s l = true <-> In s l.
Proof.
  unfold str_in. rewrite existsb_exists. split.
  - intros (x & Hx & E). apply String.eqb_eq in E. now subst.
  - intros H. exists s. split; [exact H | apply String.eqb_refl].
Qed.

(** The key the stored list is sorted by is the start of every range that
    reads as an interval. *)
Lemma sort_key_start r s e : range_minutes r = Ok (s, e) -> _sort_key r = s.
Proof.
  unfold range_minutes, _sort_key.
  destruct (split_on "-" r) as [|a [|b [|c l]]]; try discriminate.
  destruct (_time_to_minutes a) as [x|]; simpl; [|discriminate].
  destruct (_time_to_minutes b); simpl; [|discriminate]. now intros [= <- _].
Qed.

Lemma sorted_lookup {A : Type} (R : A -> A -> Prop) (l : list A) i j a b :
  StronglySorted R l -> (i < j)%nat -> l !! i = Some a -> l !! j = Some b -> R a b.
Proof.
  intros H. revert i j. induction H as [|x l Hs IH Hx]; intros i j Hij Hi Hj.
  - now rewrite lookup_nil in Hi.
  - destruct j as [|j]; [lia|]. destruct i as [|i]; simpl in *.
    + injection Hi as <-. apply (proj1 (List.Forall_forall _ _) Hx).
      apply list_elem_of_In. eapply list_elem_of_lookup_2; eauto.
    + apply (IH i j); [lia | assumption..].
Qed.

(** ** The booking transactor *)

Section Booking.

Variable set_list : list string -> list string.
Hypothesis set_list_spec : set_list_ok set_list.


Lemma append_appointment_cases w date_str st d cn ph em :
  (fst (fst (_append_appointment set_list w date_str st d cn ph em)) = false /\
   snd (_append_appointment set_list w date_str st d cn ph em) = w) \/
  (exists start_m,
      _time_to_minutes st = Ok start_m /\
      existsb (conflicts start_m (start_m + d)) (_get_taken_ranges_from_calendar w date_str)
      = false /\
      fst (fst (_append_appointment set_list w date_str st d cn ph em)) = true /\
      snd (_append_appointment set_list w date_str st d cn ph em)
      = set_appointments w
          (<[date_str := stored_after set_list w date_str (st ++ "-" ++ _minutes_to_time (start_m + d))]>
             (appointments w))).
Proof.
  unfold _append_appointment, stored_after.
  destruct (_time_to_minutes st) as [start_m|]; [|left; auto].
  destruct (existsb _ _) eqn:E; [left; auto|].
  right. exists start_m. auto.
Qed.

Lemma stored_after_In w date_str new x :
  In x (stored_after set_list w date_str new) <->
  In x (default [] (appointments w !! date_str)) \/ x = new.
Proof using set_list_spec.
  unfold stored_after.
  set (stored := default [] (appointments w !! date_str)).
  split.
  - intros H. eapply Permutation_in in H; [|apply sorted_by_perm].
    apply (proj1 (proj2 (set_list_spec _) x)) in H.
    destruct (str_in new stored); [left; exact H|].
    apply in_app_iff in H as [H | [<- | []]]; auto.
  - intros H. eapply Permutation_in; [symmetry; apply sorted_by_perm|].
    apply (proj2 (proj2 (set_list_spec _) x)).
    destruct (str_in new stored) eqn:E.
    + destruct H as [H | ->]; [exact H | now apply str_in_In].
    + apply in_app_iff. destruct H as [H | ->]; [now left | right; now left].
Qed.

Lemma stored_after_NoDup w date_str new : NoDup (stored_after set_list w date_str new).
Proof using set_list_spec.
  unfold stored_after. rewrite sorted_by_perm. apply set_list_spec.
Qed.

Lemma stored_after_sorted w date_str new :
  StronglySorted (fun a b => _sort_key a <= _sort_key b) (stored_after set_list w date_str new).
Proof. apply sorted_by_sorted. Qed.


Lemma book_appointment_outcome others w date_str start_time service_name cn ph em r w' :
  book_appointment_with set_list others w date_str start_time service_name cn ph em
  = Ok (r, w') ->
  outcome_of set_list others w (date_passed date_str) start_time service_name cn ph em r w'.
Proof.
  unfold book_appointment_with. fold (date_passed date_str).
  destruct (_normalize_time_to_hhmm start_time) as [[st|]|] eqn:En; simpl; try discriminate.
  2:{ intros [= <- <-]. now apply BadTime. }
  destruct (check_availability w (Some (date_passed date_str)) service_name 10000 None)
    as [av|] eqn:Eav; simpl; [|discriminate].
  destruct (av_closed av) as [[|]|] eqn:Ec; simpl.
  { intros [= <- <-]. eapply ClosedDay; eauto. }
  all: destruct (str_in st (av_available av)) eqn:Ein; simpl.
  all: try (intros [= <- <-]; eapply NotAvailable; eauto; try congruence;
            rewrite <- str_in_In; congruence).
  all: apply str_in_In in Ein.
  all: destruct (av_date av) as [d|] eqn:Ed; simpl; try discriminate.
  all: destruct (append_appointment_cases (others w) d st
                   (_get_service_minutes w service_name) cn ph em)
         as [[Hf Hw] | (start_m & Hst & Hc & Ht & Hw)].
  all: destruct (_append_appointment set_list (others w) d st
                   (_get_service_minutes w service_name) cn ph em)
         as [[ok msg] w1] eqn:Ea; simpl in *; subst.
  all: simpl.
  all: try (destruct (check_availability (others w) (Some d) service_name 8 None)
              as [fresh|] eqn:Ef; simpl; [|discriminate];
            intros [= <- <-]; eapply JustTaken; eauto; rewrite Ea; reflexivity).
  all: rewrite Hst; simpl; intros [= <- <-]; eapply Booked; eauto; congruence.
Qed.

End Booking.

(** ** What a check of availability tells, and how it changes with the calendar *)

Lemma check_availability_inv w phrase svc limit dp av :
  check_availability w phrase svc limit dp = Ok av ->
  (parse_natural_date (phrase_parsed phrase) (now w) = Ok None /\
   av = mkAvail (Some MSG_PARSE) None None None None [] None None) \/
  (exists dt,
      parse_natural_date (phrase_parsed phrase) (now w) = Ok (Some dt) /\
      let date_str := strftime_date dt in
      let wd := weekday_name (weekday dt) in
      let ranges := default [] (applicable_ranges (working w) date_str wd) in
      let service_min := _get_service_minutes w svc in
      (ranges = [] /\
       av = mkAvail None (Some date_str) (Some wd) None None [] None (Some true)) \/
      (ranges <> [] /\
       exists all_slots free free1 free2,
         _expand_ranges_to_slots ranges (slot_interval_minutes (working w)) service_min
         = Ok all_slots /\
         _subtract_appointments all_slots (_get_taken_ranges_from_calendar w date_str)
                                service_min = Ok free /\
         daypart_filter (daypart_used phrase dp) service_min free = Ok free1 /\
         today_filter w date_str service_min free1 = Ok free2 /\
         av = mkAvail None (Some date_str) (Some wd) svc (Some service_min)
                      (firstn (Z.to_nat (Z.max 1 limit)) free2)
                      (Some (Z.of_nat (List.length free2))) None)).
Proof.
  intros H.
  destruct (parse_natural_date (phrase_parsed phrase) (now w)) as [[dt|]|e] eqn:Ep.
  - right. exists dt. split; [reflexivity|]. cbv zeta.
    destruct (default [] (applicable_ranges (working w) (strftime_date dt)
                                            (weekday_name (weekday dt)))) as [|x l] eqn:Er.
    + left. split; [reflexivity|].
      rewrite (check_availability_closed _ _ _ _ _ dt Ep Er) in H. now injection H.
    + right. split; [discriminate|].
      rewrite (check_availability_open _ _ _ _ _ dt Ep) in H by (rewrite Er; discriminate).
      cbv zeta in H. rewrite Er in H.
      destruct (_expand_ranges_to_slots _ _ _) as [all_slots|] eqn:Ex;
        simpl in H; [|discriminate].
      destruct (_subtract_appointments _ _ _) as [free|] eqn:Es; simpl in H; [|discriminate].
      destruct (daypart_filter _ _ _) as [f1|] eqn:Ed; simpl in H; [|discriminate].
      destruct (today_filter _ _ _ _) as [f2|] eqn:Et; simpl in H; [|discriminate].
      injection H as <-. exists all_slots, free, f1, f2. auto.
  - left. split; [reflexivity|].
    rewrite (check_availability_unparsed _ _ _ _ _ Ep) in H. now injection H.
  - exfalso. unfold check_availability, phrase_parsed in *.
    destruct (extract_daypart (default "" phrase)) as [c x]. simpl in Ep.
    rewrite Ep in H. discriminate.
Qed.

Lemma service_minutes_same w w' svc :
  services w' = services w -> _get_service_minutes w' svc = _get_service_minutes w svc.
Proof. intros H. unfold _get_service_minutes. now rewrite H. Qed.

Lemma existsb_incl {A : Type} (p : A -> bool) l l' :
  incl l l' -> existsb p l' = false -> existsb p l = false.
Proof.
  intros Hi H. destruct (existsb p l) eqn:E; [|reflexivity].
  apply existsb_exists in E as (x & Hx & Hp).
  assert (existsb p l' = true) by (apply existsb_exists; exists x; auto). congruence.
Qed.

(** Between two worlds that differ only by bookings added to the calendar,
    a check that returned still returns, for the same date, and offers only
    slots free of every range now stored. *)
Lemma check_availability_more_taken w w' phrase svc limit dp av :
  working w' = working w -> services w' = services w -> now w' = now w ->
  (forall d, incl (_get_taken_ranges_from_calendar w d)
                  (_get_taken_ranges_from_calendar w' d)) ->
  check_availability w phrase svc limit dp = Ok av ->
  exists av',
    check_availability w' phrase svc limit dp = Ok av' /\
    av_closed av' = av_closed av /\ av_date av' = av_date av /\
    forall s d,
      In s (av_available av') -> av_date av = Some d ->
      exists t, _time_to_minutes s = Ok t /\
                existsb (conflicts t (t + _get_service_minutes w svc))
                        (_get_taken_ranges_from_calendar w' d) = false.
Proof.
  intros Hwk Hsv Hnow Hinc H.
  apply check_availability_inv in H as [[Hp ->] | (dt & Hp & H)].
  - eexists. split; [apply check_availability_unparsed; now rewrite Hnow|].
    simpl. repeat split; auto. intros s d [].
  - cbv zeta in H. destruct H as [[Hr ->] | (Hr & all_slots & free & f1 & f2 & Ex & Es & Ed & Et & ->)].
    + eexists. split; [apply (check_availability_closed _ _ _ _ _ dt); now rewrite ?Hnow, ?Hwk|].
      simpl. repeat split; auto. intros s d [].
    + set (date_str := strftime_date dt) in *.
      set (sm := _get_service_minutes w svc) in *.
      destruct (subtract_ok all_slots (_get_taken_ranges_from_calendar w' date_str) sm)
        as [free' Es'].
      { intros s Hs. eapply subtract_defined; eauto. }
      assert (Hff : incl free' free).
      { intros s Hs. apply (subtract_In _ _ _ _ Es') in Hs as (Hs & t & Ht & Hc).
        apply (subtract_In _ _ _ _ Es). split; [exact Hs|]. exists t. split; [exact Ht|].
        eapply existsb_incl; [apply Hinc | exact Hc]. }
      destruct (daypart_filter_sub _ _ _ _ _ Ed Hff) as (f1' & Ed' & Hi1 & Hi1').
      destruct (today_filter_sub _ _ _ _ _ _ Et Hi1') as (f2' & Et' & Hi2 & _).
      assert (Et'' : today_filter w' date_str sm f1' = Ok f2').
      { unfold today_filter in *. now rewrite Hnow. }
      eexists. split.
      * rewrite (check_availability_open _ _ _ _ _ dt) by (now rewrite ?Hnow, ?Hwk).
        cbv zeta. rewrite Hwk, (service_minutes_same _ _ _ Hsv).
        fold date_str sm. rewrite Ex. simpl. rewrite Es'. simpl. rewrite Ed'. simpl.
        rewrite Et''. simpl. reflexivity.
      * simpl. repeat split; auto. intros s d Hs [= <-].
        apply firstn_In in Hs. apply Hi2, Hi1 in Hs.
        apply (subtract_In _ _ _ _ Es') in Hs as (_ & t & Ht & Hc). eauto.
Qed.

Section Transactor.

Variable set_list : list string -> list string.
Hypothesis set_list_spec : set_list_ok set_list.

Lemma no_overlaps_nil : no_overlaps [].
Proof. intros i j r1 r2 s1 e1 s2 e2 _ H. now rewrite lookup_nil in H. Qed.

Lemma calendar_ok_taken w d : calendar_ok w -> no_overlaps (_get_taken_ranges_from_calendar w d).
Proof.
  intros H. unfold _get_taken_ranges_from_calendar.
  destruct (appointments w !! d) as [l|] eqn:E; simpl; [eapply H; eauto | apply no_overlaps_nil].
Qed.

(** One call keeps the calendar free of overlaps, whatever it returns. *)
Lemma book_appointment_calendar_ok w date_str start_time service_name cn ph em r w' :
  calendar_ok w ->
  book_appointment set_list w date_str start_time service_name cn ph em = Ok (r, w') ->
  calendar_ok w'.
Proof using set_list_spec.
  intros Hok Hb. apply book_appointment_outcome in Hb.
  destruct Hb as [? ? ?|st av ? ? ? ? ?|st av ? ? ? ? ? ?|st av d fresh ? ? ? ? ? ? ? ?
                 |st av d start_m Hn Hav Hc Hin Hd Hst Hfree dur end_time Hw Hr];
    subst; try assumption.
  intros date l. simpl. destruct (decide (d = date)) as [<- | Hne].
  - rewrite lookup_insert_eq. intros [= <-].
    destruct (normalized_start _ _ Hn) as [Hdash _].
    apply (no_overlaps_add (_get_taken_ranges_from_calendar w d) _
             (st ++ "-" ++ end_time) start_m (start_m + dur)).
    + now apply calendar_ok_taken.
    + intros r0 rs re Hr0 Hp Ho. apply conflicts_false_iff in Hfree. apply Hfree.
      exists r0, rs, re. split; [exact Hr0|]. split; [exact Hp | exact Ho].
    + intros s e. now apply new_range_parse.
    + apply stored_after_NoDup. exact set_list_spec.
    + intros x Hx. now apply (stored_after_In set_list set_list_spec) in Hx.
  - rewrite lookup_insert_ne by assumption. apply Hok.
Qed.

(** C1. From a calendar whose lists have no two overlapping ranges, every
    sequence of bookings made one after the other and all successful
    leaves a calendar in which, for every date, no two stored ranges
    [s1,e1) and [s2,e2) have s1 < e2 and e1 > s2. *)
Theorem bookings_preserve_no_overlap (w : World) (reqs : list Request)
    (results : list BookResult) (w' : World) :
  calendar_ok w ->
  book_all set_list w reqs = Ok (results, w') ->
  Forall (fun r => success r = true) results ->
  calendar_ok w'.
Proof using set_list_spec.
  intros Hok Hb _. revert w results w' Hok Hb.
  induction reqs as [|q reqs IH]; intros w results w' Hok Hb; simpl in Hb.
  - injection Hb as <- <-. exact Hok.
  - destruct (book_appointment set_list w (rq_date q) (rq_start q) (rq_service q)
                               (rq_client q) (rq_phone q) (rq_email q))
      as [[r w1]|] eqn:E1; simpl in Hb; [|discriminate].
    destruct (book_all set_list w1 reqs) as [[rs w2]|] eqn:E2; simpl in Hb; [|discriminate].
    injection Hb as <- <-.
    eapply IH; [|exact E2]. eapply book_appointment_calendar_ok; eauto.
Qed.

(** C3, amended. When [book_appointment] succeeds for a service of
    positive duration, the same call made again at once is rejected as not
    available and leaves the stores as they were.  The list stored for the
    date then holds the ranges it held before and the range just booked,
    none of them twice, and of two stored ranges that read as intervals
    the earlier in the list does not start later. *)
Theorem rebooking_is_rejected (w : World) (date_str start_time : string)
    (service_name : option string) (client_name phone email : string)
    (r : BookResult) (w' : World) :
  0 < _get_service_minutes w service_name ->
  book_appointment set_list w date_str start_time service_name client_name phone email
  = Ok (r, w') ->
  success r = true ->
  exists r2 d st en stored,
    book_appointment set_list w' date_str start_time service_name client_name phone email
    = Ok (r2, w') /\
    success r2 = false /\ error r2 = Some MSG_NOT_AVAILABLE /\
    b_date r = Some d /\ b_start_time r = Some st /\ b_end_time r = Some en /\
    appointments w' !! d = Some stored /\
    (forall x, In x stored <->
               In x (default [] (appointments w !! d)) \/ x = st ++ "-" ++ en) /\
    NoDup stored /\
    StronglySorted (fun a b => _sort_key a <= _sort_key b) stored /\
    (forall i j a b sa ea sb eb,
        (i < j)%nat -> stored !! i = Some a -> stored !! j = Some b ->
        range_minutes a = Ok (sa, ea) -> range_minutes b = Ok (sb, eb) -> sa <= sb).
Proof using set_list_spec.
  intros Hdur Hb Hs. pose proof Hb as Hout. apply book_appointment_outcome in Hout.
  destruct Hout as [? ? ?|st av ? ? ? ? ?|st av ? ? ? ? ? ?|st av d fresh ? ? ? ? ? ? ? ?
                   |st av d start_m Hn Hav Hc Hin Hd Hst Hfree dur end_time Hw Hr];
    subst; try discriminate.
  set (new := st ++ "-" ++ end_time) in *.
  set (w1 := set_appointments w (<[d := stored_after set_list w d new]> (appointments w))) in *.
  set (w' := _append_booking_record w1 d st end_time service_name dur client_name phone email).
  assert (Hlook : appointments w' !! d = Some (stored_after set_list w d new))
    by (simpl; apply lookup_insert_eq).
  destruct (check_availability_more_taken w w' (Some (date_passed date_str)) service_name
              10000 None av eq_refl eq_refl eq_refl) as (av' & Hav' & Hc' & Hd' & Hfree').
  { intros d0 x Hx. unfold _get_taken_ranges_from_calendar in *. simpl.
    destruct (decide (d = d0)) as [<- | Hne].
    - rewrite lookup_insert_eq. simpl. apply (stored_after_In set_list set_list_spec). now left.
    - now rewrite lookup_insert_ne. }
  { exact Hav. }
  assert (Hnot : ~ In st (av_available av')).
  { intros Hin'. destruct (Hfree' st d Hin' Hd) as (t & Ht & Hno).
    rewrite Hst in Ht. injection Ht as <-.
    apply conflicts_false_iff in Hno. apply Hno.
    destruct (normalized_start _ _ Hn) as (Hdash & t0 & Ht0 & Hst0).
    rewrite Hst in Hst0. injection Hst0 as <-.
    exists new, start_m, (start_m + dur). split; [|split].
    - unfold _get_taken_ranges_from_calendar. rewrite Hlook. simpl.
      apply (stored_after_In set_list set_list_spec). now right.
    - apply new_range_parse_ok; auto. fold dur in Hdur. lia.
    - unfold overlap. fold dur in Hdur. lia. }
  exists (mkBook false (Some MSG_NOT_AVAILABLE) None (Some (firstn 10 (av_available av')))
                 (av_date av') None None service_name
                 (Some (_get_service_minutes w' service_name)) None),
         d, st, end_time, (stored_after set_list w d new).
  split.
  - unfold book_appointment, book_appointment_with. fold (date_passed date_str).
    rewrite Hn. simpl. rewrite Hav'. simpl.
    rewrite Hc'. destruct (av_closed av) as [[|]|]; [congruence| |]; simpl.
    + destruct (str_in st (av_available av')) eqn:E; [apply str_in_In in E; contradiction|].
      reflexivity.
    + destruct (str_in st (av_available av')) eqn:E; [apply str_in_In in E; contradiction|].
      reflexivity.
  - do 5 (split; [reflexivity|]). split; [exact Hlook|].
    split; [|split; [|split]].
    + intros x. apply (stored_after_In set_list set_list_spec).
    + apply stored_after_NoDup. exact set_list_spec.
    + apply stored_after_sorted.
    + intros i j a b sa ea sb eb Hij Hi Hj Ha Hb'.
      pose proof (sorted_lookup _ _ i j a b (stored_after_sorted set_list w d new) Hij Hi Hj)
        as Hk.
      simpl in Hk. now rewrite (sort_key_start _ _ _ Ha), (sort_key_start _ _ _ Hb') in Hk.
Qed.

End Transactor.

Lemma seed_world_ok : calendar_ok seed_world.
Proof. intros d l H. simpl in H. now rewrite lookup_empty in H. Qed.

Lemma bookings_preserve_no_overlap_witness :
  set_list_ok set_list_first /\ calendar_ok seed_world /\
  exists results w',
    book_all set_list_first seed_world sample_requests = Ok (results, w') /\
    Forall (fun r => success r = true) results /\
    appointments w' !! "2025-11-04" = Some ["10:30-11:15"; "11:15-11:45"] /\
    calendar_ok w'.
Proof.
  split; [exact set_list_first_ok|]. split; [exact seed_world_ok|].
  destruct (book_all set_list_first seed_world sample_requests) as [[results w']|] eqn:E;
    [|vm_compute in E; discriminate].
  exists results, w'. split; [reflexivity|].
  assert (Hall : Forall (fun r => success r = true) results).
  { vm_compute in E. injection E as <- _. repeat constructor. }
  split; [exact Hall|]. split.
  - vm_compute in E. injection E as _ <-. reflexivity.
  - exact (bookings_preserve_no_overlap set_list_first set_list_first_ok seed_world
             sample_requests results w' seed_world_ok E Hall).
Defined.

(** C3 as stated fails for a service that takes no time: the range it
    stores, 10:30-10:30, meets no candidate under the half-open test, so
    the same call made again succeeds again and the log holds two
    records of the one appointment. *)
Lemma rebooking_free_service_counterexample :
  _get_service_minutes free_advice_world (Some "Advice") = 0 /\
  exists r w' r2 w'',
    book_appointment set_list_first free_advice_world "tomorrow" "10:30" (Some "Advice")
                     "Ann" "555-0100" "ann@example.org" = Ok (r, w') /\
    success r = true /\
    book_appointment set_list_first w' "tomorrow" "10:30" (Some "Advice")
                     "Ann" "555-0100" "ann@example.org" = Ok (r2, w'') /\
    success r2 = true /\ error r2 = None /\ message r2 = Some MSG_CONFIRMED /\
    appointments w' !! "2025-11-04" = Some ["10:30-10:30"] /\
    appointments w'' !! "2025-11-04" = Some ["10:30-10:30"] /\
    List.length (bookings w') = 1%nat /\ List.length (bookings w'') = 2%nat.
Proof.
  split; [reflexivity|].
  destruct (book_appointment set_list_first free_advice_world "tomorrow" "10:30"
              (Some "Advice") "Ann" "555-0100" "ann@example.org") as [[r w']|] eqn:E;
    [|vm_compute in E; discriminate].
  destruct (book_appointment set_list_first w' "tomorrow" "10:30"
              (Some "Advice") "Ann" "555-0100" "ann@example.org") as [[r2 w'']|] eqn:E2;
    [|vm_compute in E; injection E as <- <-; vm_compute in E2; discriminate].
  exists r, w', r2, w''. split; [reflexivity|].
  vm_compute in E. injection E as <- <-.
  vm_compute in E2. injection E2 as <- <-.
  repeat split.
Qed.

Lemma rebooking_is_rejected_witness :
  exists r w' r2,
    0 < _get_service_minutes (rival_booking seed_world) (Some "Skin Fade") /\
    appointments (rival_booking seed_world) !! "2025-11-04" = Some ["10:00-11:00"] /\
    book_appointment set_list_first (rival_booking seed_world) "tomorrow" "9:15"
                     (Some "Skin Fade") "Ann" "555-0100" "ann@example.org" = Ok (r, w') /\
    success r = true /\
    book_appointment set_list_first w' "tomorrow" "9:15" (Some "Skin Fade")
                     "Ann" "555-0100" "ann@example.org" = Ok (r2, w') /\
    success r2 = false /\ error r2 = Some MSG_NOT_AVAILABLE /\
    b_date r = Some "2025-11-04" /\ b_start_time r = Some "09:15" /\
    b_end_time r = Some "10:00" /\
    appointments w' !! "2025-11-04" = Some ["09:15-10:00"; "10:00-11:00"] /\
    List.length (bookings w') = 1%nat.
Proof.
  destruct (book_appointment set_list_first (rival_booking seed_world) "tomorrow" "9:15"
              (Some "Skin Fade") "Ann" "555-0100" "ann@example.org") as [[r w']|] eqn:E;
    [|vm_compute in E; discriminate].
  assert (Hd : 0 < _get_service_minutes (rival_booking seed_world) (Some "Skin Fade"))
    by reflexivity.
  assert (Hs : success r = true) by (vm_compute in E; injection E as <- _; reflexivity).
  destruct (rebooking_is_rejected set_list_first set_list_first_ok (rival_booking seed_world)
              "tomorrow" "9:15" (Some "Skin Fade") "Ann" "555-0100" "ann@example.org"
              r w' Hd E Hs) as (r2 & d & st & en & stored & H2 & Hf & He & _).
  exists r, w', r2. split; [exact Hd|]. split; [reflexivity|]. split; [reflexivity|].
  split; [exact Hs|]. split; [exact H2|]. split; [exact Hf|]. split; [exact He|].
  vm_compute in E. injection E as <- <-. repeat split.
Defined.

(** ** Phrases that are not dates *)


Lemma lower_is_initial c :
  (lower_char c = "m"%char -> upper_char c = "M"%char) /\
  (lower_char c = "t"%char -> upper_char c = "T"%char) /\
  (lower_char c = "w"%char -> upper_char c = "W"%char) /\
  (lower_char c = "f"%char -> upper_char c = "F"%char) /\
  (lower_char c = "s"%char -> upper_char c = "S"%char).
Proof.
  destruct c as [[] [] [] [] [] [] [] []]; vm_compute;
    repeat split; intros H; solve [reflexivity | discriminate H].
Qed.


Lemma weekday_prefix_index tok :
  weekday_prefix tok = true -> exists i, 0 <= i < 7 /\ _weekday_index tok = Some i.
Proof.
  unfold weekday_prefix, _weekday_index.
  destruct (str_take 3 tok) as [|c r]; [discriminate|].
  cbn [capitalize lower str_map]. fold (lower r).
  generalize (lower r). intros l H.
  destruct (lower_is_initial c) as (HM & HT & HW & HF & HS).
  apply str_in_In in H. cbn [In] in H.
  repeat match type of H with
         | _ \/ _ => destruct H as [E | H];
                     [injection E as Ec El; symmetry in Ec; subst l;
                      first [ rewrite (HM Ec) | rewrite (HT Ec) | rewrite (HW Ec)
                            | rewrite (HF Ec) | rewrite (HS Ec) ];
                      eexists; split; [|vm_compute; reflexivity]; lia
                     |]
         end.
  destruct H.
Qed.





Lemma phrase_parsed_nonempty phrase :
  fst (extract_daypart (default "" phrase)) <> "" ->
  phrase_parsed phrase = fst (extract_daypart (default "" phrase)).
Proof.
  intros H. unfold phrase_parsed, or_today.
  destruct (String.eqb_spec (fst (extract_daypart (default "" phrase))) ""); congruence.
Qed.




(** C10 as stated fails when nothing is left of the date argument after
    the daypart word: the date does not parse, yet the booking is made for
    today. *)
Lemma empty_date_counterexample :
  parse_natural_date (fst (extract_daypart "")) (now seed_world) = Ok None /\
  _normalize_time_to_hhmm "10:00" = Ok (Some "10:00") /\
  exists r w',
    book_appointment set_list_first seed_world "" "10:00" None
                     "Ann" "555-0100" "ann@example.org" = Ok (r, w') /\
    success r = true /\ b_date r = Some "2025-11-03" /\
    appointments w' !! "2025-11-03" = Some ["10:00-10:30"].
Proof.
  split; [reflexivity|]. split; [reflexivity|].
  eexists _, _. split; [vm_compute; reflexivity|]. repeat split.
Qed.

(** C10, amended. When the start time is valid and the phrase left of the
    date argument, once [book_appointment] and then [check_availability]
    have removed the daypart word, is not empty and does not parse,
    [book_appointment] answers that the start time is not available, with
    an empty list of alternatives and no date, and writes nothing. *)
Theorem unparsed_date_is_reported_unavailable (set_list : list string -> list string)
    (others : World -> World) (w : World) (date_str start_time : string)
    (service_name : option string) (client_name phone email st : string) :
  _normalize_time_to_hhmm start_time = Ok (Some st) ->
  booking_phrase date_str <> "" ->
  parse_natural_date (booking_phrase date_str) (now w) = Ok None ->
  book_appointment_with set_list others w date_str start_time service_name
                        client_name phone email
  = Ok (mkBook false (Some MSG_NOT_AVAILABLE) None (Some []) None None None service_name
               (Some (_get_service_minutes w service_name)) None, w).
Proof.
  intros Hn Hne Hp. unfold book_appointment_with. fold (date_passed date_str).
  rewrite Hn. simpl.
  rewrite check_availability_unparsed; [reflexivity|].
  rewrite phrase_parsed_nonempty; [exact Hp | exact Hne].
Qed.

Lemma unparsed_date_is_reported_unavailable_witness :
  _normalize_time_to_hhmm "10 am" = Ok (Some "10:00") /\
  booking_phrase "some morning" <> "" /\
  parse_natural_date (booking_phrase "some morning") (now seed_world) = Ok None /\
  book_appointment set_list_first seed_world "some morning" "10 am" None
                   "Ann" "555-0100" "ann@example.org"
  = Ok (mkBook false (Some MSG_NOT_AVAILABLE) None (Some []) None None None None
               (Some 30) None, seed_world).
Proof.
  split; [reflexivity|]. split; [discriminate|]. split; [reflexivity|].
  apply (unparsed_date_is_reported_unavailable set_list_first (fun w => w) seed_world
           "some morning" "10 am" None "Ann" "555-0100" "ann@example.org" "10:00");
    [reflexivity | discriminate | reflexivity].
Defined.

(** ** Rejections *)

(** C5 as stated fails: the rejections for a bad time format and for a
    closed day carry no list of alternatives. *)
Lemma rejection_without_alternatives :
  (exists r w',
      book_appointment set_list_first seed_world "tomorrow" "half past ten" None
                       "Ann" "555-0100" "ann@example.org" = Ok (r, w') /\
      success r = false /\ error r = Some MSG_BAD_TIME /\ alternatives r = None) /\
  (exists r w',
      book_appointment set_list_first seed_world "Sun" "10:00" None
                       "Ann" "555-0100" "ann@example.org" = Ok (r, w') /\
      success r = false /\ error r = Some MSG_CLOSED /\ alternatives r = None).
Proof.
  split; eexists _, _; (split; [vm_compute; reflexivity|]); repeat split.
Qed.

(** C5, amended. A rejection because the slot is not available carries
    the date of the check just made on the stores as they are and the
    first ten of its slots; a rejection because the slot was taken
    between the check and the commit carries the date of that check and
    the slots of a fresh [check_availability] made for that date on the
    stores after the failed commit.  The rejections for a bad time format
    and for a closed day carry no list of alternatives. *)
Theorem rejections_and_alternatives (set_list : list string -> list string)
    (others : World -> World) (w : World) (date_str start_time : string)
    (service_name : option string) (client_name phone email : string)
    (r : BookResult) (w' : World) :
  book_appointment_with set_list others w date_str start_time service_name
                        client_name phone email = Ok (r, w') ->
  success r = false ->
  (error r = Some MSG_BAD_TIME /\ alternatives r = None /\ w' = w) \/
  (error r = Some MSG_CLOSED /\ alternatives r = None /\ w' = w) \/
  (error r = Some MSG_NOT_AVAILABLE /\ w' = w /\
   exists av,
     check_availability w (Some (date_passed date_str)) service_name 10000 None = Ok av /\
     b_date r = av_date av /\
     alternatives r = Some (firstn 10 (av_available av))) \/
  (error r = Some MSG_JUST_TAKEN /\ w' = others w /\
   exists av d fresh,
     check_availability w (Some (date_passed date_str)) service_name 10000 None = Ok av /\
     av_date av = Some d /\ b_date r = Some d /\
     check_availability w' (Some d) service_name 8 None = Ok fresh /\
     alternatives r = Some (av_available fresh)).
Proof.
  intros Hb Hs. apply book_appointment_outcome in Hb.
  destruct Hb as [? ? ?|st av ? ? ? ? ?|st av ? ? ? ? ? ?|st av d fresh Hn Hav Hin Hd Hf Hw Hfr Hr
                 |st av d start_m Hn Hav Hc Hin Hd Hst Hfree dur end_time Hw Hr];
    subst; try discriminate.
  - left. auto.
  - right. left. auto.
  - right. right. left. simpl. split; [reflexivity|]. split; [reflexivity|].
    exists av. auto.
  - right. right. right. simpl. split; [|split; [reflexivity|]].
    2:{ exists av, d, fresh. auto. }
    destruct (normalized_start _ _ Hn) as (_ & t & _ & Ht).
    unfold _append_appointment in *. rewrite Ht in *.
    destruct (existsb _ _); [reflexivity | discriminate].
Qed.

Lemma rejections_and_alternatives_witness :
  exists r w',
    book_appointment_with set_list_first rival_booking seed_world "tomorrow" "10:30"
                          (Some "Skin Fade") "Ann" "555-0100" "ann@example.org"
    = Ok (r, w') /\
    success r = false /\
    error r = Some MSG_JUST_TAKEN /\ b_date r = Some "2025-11-04" /\
    w' = rival_booking seed_world /\
    alternatives r = Some ["09:00"; "09:15"; "11:00"; "11:15"; "11:30"; "11:45"; "12:00"; "12:15"].
Proof.
  destruct (book_appointment_with set_list_first rival_booking seed_world "tomorrow" "10:30"
              (Some "Skin Fade") "Ann" "555-0100" "ann@example.org") as [[r w']|] eqn:E;
    [|vm_compute in E; discriminate].
  assert (Hs : success r = false) by (vm_compute in E; injection E as <- _; reflexivity).
  pose proof (rejections_and_alternatives set_list_first rival_booking seed_world
                "tomorrow" "10:30" (Some "Skin Fade") "Ann" "555-0100" "ann@example.org"
                r w' E Hs) as Hcases.
  exists r, w'. split; [reflexivity|]. split; [exact Hs|].
  destruct Hcases as [(He & _) | [(He & _) | [(He & _) | (He & _ & _)]]];
    vm_compute in E; injection E as <- <-; try discriminate He.
  repeat split.
Defined.

(** * Further properties of the engine *)

(** ** Times and minutes *)

Lemma dec_no_space n : 0 <= n -> str_existsb int_isspace (dec n) = false.
Proof.
  intros Hn. destruct (dec_spec n Hn) as (Hd & _ & _). revert Hd.
  apply str_forallb_not_exists. intros c Hc. apply (digit_char_facts c Hc).
Qed.

Lemma int_fmt02d_any n : int (fmt02d n) = Ok n.
Proof.
  destruct (Z.lt_ge_cases n 0) as [Hneg|Hpos]; [|now apply int_fmt02d].
  unfold fmt02d. assert (E : (n <? 0) = true) by lia. rewrite E.
  destruct (dec_spec (- n)) as (Hd & Hne & Hv); [lia|].
  unfold int. rewrite strip_with_id.
  2:{ simpl. rewrite dec_no_space by lia. reflexivity. }
  simpl. rewrite int_digits_val; [|exact Hd | now right].
  rewrite Hv. simpl. f_equal. lia.
Qed.

Lemma fmt02d_no_colon n : has_char ":" (fmt02d n) = false.
Proof.
  destruct (Z.lt_ge_cases n 0) as [Hneg|Hpos].
  - unfold fmt02d. assert (E : (n <? 0) = true) by lia. rewrite E.
    destruct (dec_spec (- n)) as (Hd & _ & _); [lia|].
    unfold has_char. simpl. fold (has_char ":" (dec (- n))). now apply digits_no_colon.
  - apply digits_no_colon. now apply fmt02d_digits.
Qed.

(** X1. Printing minutes as a time and reading the time back gives the
    minutes again, for every integer, negative ones included. *)
Theorem minutes_time_roundtrip (t : Z) :
  _time_to_minutes (_minutes_to_time t) = Ok t.
Proof.
  unfold _minutes_to_time, _time_to_minutes.
  change (fmt02d (t / 60) ++ ":" ++ fmt02d (t mod 60))
    with (fmt02d (t / 60) ++ String ":" (fmt02d (t mod 60))).
  rewrite split_on_app, split_on_absent by apply fmt02d_no_colon.
  rewrite !int_fmt02d_any. simpl. f_equal. pose proof (Z.div_mod t 60). lia.
Qed.

(** X2. A time [_normalize_time_to_hhmm] returns reads as a minute of the
    day, from 0 to 1439, and is the way [_minutes_to_time] prints that
    minute. *)
Theorem normalized_time_is_minute_of_day (s st : string) :
  _normalize_time_to_hhmm s = Ok (Some st) ->
  exists t, 0 <= t < 1440 /\ _time_to_minutes st = Ok t /\ _minutes_to_time t = st.
Proof.
  intros H. apply normalize_range in H as (h & m & Hh & Hm & ->).
  exists (h * 60 + m). split; [lia|]. split; [apply time_to_minutes_fmt; lia|].
  unfold _minutes_to_time.
  replace ((h * 60 + m) / 60) with h by (Z.div_mod_to_equations; lia).
  replace ((h * 60 + m) mod 60) with m by (Z.div_mod_to_equations; lia).
  reflexivity.
Qed.

Lemma normalized_time_is_minute_of_day_witness :
  _normalize_time_to_hhmm "1.30 PM" = Ok (Some "13:30") /\
  exists t, 0 <= t < 1440 /\ _time_to_minutes "13:30" = Ok t /\ _minutes_to_time t = "13:30".
Proof.
  split; [reflexivity|].
  apply (normalized_time_is_minute_of_day "1.30 PM" "13:30"). reflexivity.
Defined.

(** ** Dates printed and parsed *)

Lemma fmt_lengths_table :
  forallb (fun k => let n := Z.of_nat k in
                    (String.length (fmt04d n) =? 4)%nat &&
                    ((99 <? n) || (String.length (fmt02d n) =? 2)%nat))
          (seq 0 (Z.to_nat 10000)) = true.
Proof. vm_compute. reflexivity. Qed.

Lemma fmt_lengths n :
  0 <= n <= 9999 ->
  String.length (fmt04d n) = 4%nat /\ (n <= 99 -> String.length (fmt02d n) = 2%nat).
Proof.
  intros Hn. pose proof fmt_lengths_table as T. rewrite forallb_forall in T.
  assert (Hin : In (Z.to_nat n) (seq 0 (Z.to_nat 10000))) by (apply in_seq; lia).
  specialize (T (Z.to_nat n) Hin). cbv zeta in T. rewrite Z2Nat.id in T by lia.
  apply andb_true_iff in T as [T1 T2].
  split; [now apply Nat.eqb_eq|].
  intros H99. apply orb_true_iff in T2 as [T2 | T2]; [lia | now apply Nat.eqb_eq].
Qed.

Lemma fmt04d_spec y : 0 <= y -> isdecimal (fmt04d y) = true /\ str_val 0 (fmt04d y) = y.
Proof.
  intros Hy. destruct (dec_spec y Hy) as (Hd & Hne & Hv). unfold fmt04d.
  destruct (y <? 10); [|destruct (y <? 100); [|destruct (y <? 1000)]].
  - split; [apply isdecimal_digits; split; [discriminate|] |]; simpl; auto.
  - split; [apply isdecimal_digits; split; [discriminate|] |]; simpl; auto.
  - split; [apply isdecimal_digits; split; [discriminate|] |]; simpl; auto.
  - split; [apply isdecimal_digits; auto | exact Hv].
Qed.

Lemma lower_strip_plain s : str_forallb plain_char s = true -> lower (strip s) = s.
Proof.
  intros H. unfold strip, lower. rewrite strip_with_id.
  2:{ revert H. apply str_forallb_not_exists. intros c Hc. unfold plain_char in Hc.
      destruct (isspace c); [discriminate | reflexivity]. }
  apply str_map_id. revert H. apply str_forallb_impl. intros c Hc. unfold plain_char in Hc.
  destruct (Ascii.eqb (lower_char c) c); [reflexivity|]. now rewrite andb_false_r in Hc.
Qed.

Lemma valid_datetime_fields dt :
  valid_datetime dt = true ->
  1 <= year dt <= 9999 /\ 1 <= month dt <= 12 /\
  1 <= day dt <= _days_in_month (year dt) (month dt) /\ day dt <= 31 /\
  0 <= hour dt <= 23 /\ 0 <= minute dt <= 59.
Proof.
  unfold valid_datetime. intros Hv.
  apply andb_true_iff in Hv as [Hv Hmi2]. apply andb_true_iff in Hv as [Hv Hmi1].
  apply andb_true_iff in Hv as [Hv Hh2]. apply andb_true_iff in Hv as [Hv Hh1].
  apply valid_ymd_iff in Hv as (Hy & Hm & Hd).
  pose proof (days_in_month_bounds (year dt) (month dt) Hm). lia.
Qed.

Lemma fmt04d_dec y : 1000 <= y -> fmt04d y = dec y.
Proof.
  intros Hy. unfold fmt04d.
  destruct (Z.ltb_spec y 10); [lia|]. destruct (Z.ltb_spec y 100); [lia|].
  destruct (Z.ltb_spec y 1000); [lia | reflexivity].
Qed.

(** From the year 1000 on [strftime] prints the ISO form. *)
Lemma strftime_iso dt : 1000 <= year dt -> strftime_date dt = iso_date dt.
Proof. intros Hy. unfold strftime_date, iso_date. now rewrite fmt04d_dec. Qed.

Lemma parse_iso_date (dt anchor : datetime) :
  valid_datetime dt = true -> 1000 <= year dt ->
  parse_natural_date (strftime_date dt) anchor = Ok (Some (at_midnight dt)).
Proof.
  intros Hv H1000. rewrite (strftime_iso dt H1000).
  pose proof Hv as Hf. apply valid_datetime_fields in Hf as (Hy & Hm & Hd & Hd31 & _).
  unfold valid_datetime in Hv.
  assert (Hymd : valid_ymd (year dt) (month dt) (day dt) = true).
  { apply valid_ymd_iff. lia. }
  unfold iso_date, at_midnight.
  destruct (fmt04d_spec (year dt)) as [HY HYv]; [lia|].
  destruct (fmt02d_spec (month dt)) as [HM HMv]; [lia|].
  destruct (fmt02d_spec (day dt)) as [HD HDv]; [lia|].
  destruct (fmt_lengths (year dt)) as [LY _]; [lia|].
  destruct (fmt_lengths (month dt)) as [_ LM]; [lia|]. specialize (LM ltac:(lia)).
  destruct (fmt_lengths (day dt)) as [_ LD]; [lia|]. specialize (LD ltac:(lia)).
  set (Y := fmt04d (year dt)) in *. set (M := fmt02d (month dt)) in *.
  set (D := fmt02d (day dt)) in *.
  pose proof HY as HY'. pose proof HM as HM'. pose proof HD as HD'.
  apply isdecimal_digits in HY' as [_ HY']. apply isdecimal_digits in HM' as [_ HM'].
  apply isdecimal_digits in HD' as [_ HD'].
  change (Y ++ "-" ++ M ++ "-" ++ D) with (Y ++ String "-" (M ++ String "-" D)).
  set (s := Y ++ String "-" (M ++ String "-" D)).
  unfold parse_natural_date. rewrite lower_strip_plain.
  2:{ unfold s. rewrite !str_forallb_app. simpl. rewrite str_forallb_app. simpl.
      now rewrite (digits_plain _ HY'), (digits_plain _ HM'), (digits_plain _ HD'). }
  fold s. replace (String.eqb s "") with false
    by (symmetry; apply (isdecimal_nonempty_app Y _ HY)).
  assert (Hiso : parse_iso s anchor
                 = Ok (Some (mkDatetime (year dt) (month dt) (day dt) 0 0))).
  { unfold parse_iso.
    assert (L : String.length s = 10%nat).
    { unfold s. rewrite length_app_str. simpl. rewrite length_app_str. simpl. lia. }
    assert (D4 : str_drop 4 s = String "-" (M ++ String "-" D)).
    { rewrite <- LY. apply str_drop_app. }
    assert (D7 : str_drop 7 s = String "-" D).
    { unfold s. replace (Y ++ String "-" (M ++ String "-" D))
        with ((Y ++ String "-" M) ++ String "-" D) by (now rewrite app_assoc_str).
      replace 7%nat with (String.length (Y ++ String "-" M))
        by (rewrite length_app_str; simpl; lia).
      apply str_drop_app. }
    rewrite L, D4, D7. simpl andb. cbv iota.
    unfold s. rewrite split_on_app by now apply digits_no_dash.
    rewrite split_on_app by now apply digits_no_dash.
    rewrite split_on_absent by now apply digits_no_dash.
    rewrite (int_isdecimal _ HY), (int_isdecimal _ HM), (int_isdecimal _ HD), HYv, HMv, HDv.
    simpl. unfold replace_date. rewrite Hymd. reflexivity. }
  rewrite Hiso. reflexivity.
Qed.

(** X3. For a date of the year 1000 or later [strftime] prints the ISO
    form YYYY-MM-DD, and [parse_natural_date] reads it back to that date
    at midnight, whatever the anchor.  Below the year 1000 the year is
    printed without its leading zeros and the string is no date to the
    parser: 999-01-01 gives [None]. *)
Theorem iso_date_roundtrip (dt anchor : datetime) :
  valid_datetime dt = true -> 1000 <= year dt ->
  strftime_date dt = iso_date dt /\
  parse_natural_date (strftime_date dt) anchor = Ok (Some (at_midnight dt)) /\
  strftime_date (mkDatetime 999 1 1 0 0) = "999-01-01" /\
  parse_natural_date (strftime_date (mkDatetime 999 1 1 0 0)) anchor = Ok None.
Proof.
  intros Hv Hy. split; [exact (strftime_iso dt Hy)|].
  split; [exact (parse_iso_date dt anchor Hv Hy)|]. split; reflexivity.
Qed.

Lemma iso_date_roundtrip_witness :
  valid_datetime (mkDatetime 2024 2 29 17 45) = true /\
  1000 <= year (mkDatetime 2024 2 29 17 45) /\
  strftime_date (mkDatetime 2024 2 29 17 45) = "2024-02-29" /\
  parse_natural_date "2024-02-29" (mkDatetime 2025 11 3 9 30)
  = Ok (Some (mkDatetime 2024 2 29 0 0)).
Proof.
  split; [reflexivity|]. split; [vm_compute; discriminate|]. split; [reflexivity|].
  apply (iso_date_roundtrip (mkDatetime 2024 2 29 17 45) (mkDatetime 2025 11 3 9 30));
    [reflexivity | vm_compute; discriminate].
Defined.

(** ** Relative dates *)

Lemma parse_weekday_token i name anchor :
  0 <= i < 7 -> In name (weekday_spellings i) ->
  parse_natural_date name anchor
  = (do r <- plus_days anchor (Z.to_nat ((i - weekday anchor) mod 7));
     Ok (Some (at_midnight r))).
Proof.
  intros Hi Hin.
  assert (i = 0 \/ i = 1 \/ i = 2 \/ i = 3 \/ i = 4 \/ i = 5 \/ i = 6) as Hc by lia.
  repeat (destruct Hc as [-> | Hc];
          [repeat (destruct Hin as [<- | Hin]; [reflexivity|]); destruct Hin|]).
  subst. repeat (destruct Hin as [<- | Hin]; [reflexivity|]). destruct Hin.
Qed.

(** X4. A weekday name alone is the next day of that name counted from
    the anchor's day, the anchor's day included: midnight, zero to six days
    on, and the anchor's own day exactly when its weekday is the one
    asked for. *)
Theorem parse_weekday_on_or_after (anchor : datetime) (i : Z) (name : string) :
  valid_datetime anchor = true ->
  toordinal anchor + 6 <= MAXORDINAL ->
  0 <= i < 7 ->
  In name (weekday_spellings i) ->
  exists r,
    parse_natural_date name anchor = Ok (Some r) /\
    weekday r = i /\ hour r = 0 /\ minute r = 0 /\
    0 <= toordinal r - toordinal anchor <= 6 /\
    (weekday anchor = i <-> toordinal r = toordinal anchor).
Proof.
  intros Hv Hmax Hi Hname. rewrite (parse_weekday_token i) by assumption.
  set (delta := (i - weekday anchor) mod 7).
  assert (Hd : 0 <= delta < 7) by (apply Z.mod_pos_bound; lia).
  destruct (plus_days_spec (Z.to_nat delta) anchor Hv) as (r & Hr & Or & _); [lia|].
  rewrite Z2Nat.id in Or by lia.
  exists (at_midnight r). rewrite Hr. simpl. split; [reflexivity|].
  rewrite weekday_at_midnight, toordinal_at_midnight. unfold weekday at 1. rewrite Or.
  assert (Hw : 0 <= weekday anchor < 7) by (apply Z.mod_pos_bound; lia).
  unfold delta in *. unfold weekday in *.
  split; [Z.div_mod_to_equations; lia|].
  split; [reflexivity|]. split; [reflexivity|]. split; [lia|].
  split; intros E; Z.div_mod_to_equations; lia.
Qed.

Lemma parse_weekday_on_or_after_witness :
  valid_datetime (mkDatetime 2025 11 3 9 30) = true /\
  toordinal (mkDatetime 2025 11 3 9 30) + 6 <= MAXORDINAL /\
  0 <= 5 < 7 /\ In "Saturday" (weekday_spellings 5) /\
  exists r,
    parse_natural_date "Saturday" (mkDatetime 2025 11 3 9 30) = Ok (Some r) /\
    weekday r = 5 /\ hour r = 0 /\ minute r = 0 /\
    0 <= toordinal r - toordinal (mkDatetime 2025 11 3 9 30) <= 6 /\
    (weekday (mkDatetime 2025 11 3 9 30) = 5 <->
     toordinal r = toordinal (mkDatetime 2025 11 3 9 30)).
Proof.
  assert (Hname : In "Saturday" (weekday_spellings 5)) by (simpl; auto).
  split; [reflexivity|]. split; [vm_compute; discriminate|]. split; [lia|].
  split; [exact Hname|].
  apply (parse_weekday_on_or_after (mkDatetime 2025 11 3 9 30) 5 "Saturday");
    [reflexivity | vm_compute; discriminate | lia | exact Hname].
Defined.

(** X5. "tomorrow" and its aliases tmrw and tmr, in any case and with
    blanks around, are midnight of the calendar day after the anchor's,
    across the ends of months and years; on 9999-12-31 the call raises
    OverflowError instead of returning. *)
Theorem parse_tomorrow (anchor : datetime) (phrase : string) :
  valid_datetime anchor = true ->
  In (lower (strip phrase)) ["tomorrow"; "tmrw"; "tmr"] ->
  (toordinal anchor < MAXORDINAL ->
   exists r, parse_natural_date phrase anchor = Ok (Some r) /\
             toordinal r = toordinal anchor + 1 /\ hour r = 0 /\ minute r = 0 /\
             valid_datetime r = true) /\
  (year anchor = 9999 -> month anchor = 12 -> day anchor = 31 ->
   parse_natural_date phrase anchor = Fail OverflowError).
Proof.
  intros Hv Hin.
  assert (E : parse_natural_date phrase anchor
              = (do r <- plus_days anchor 1; Ok (Some (at_midnight r)))).
  { unfold parse_natural_date.
    destruct Hin as [E|[E|[E|[]]]]; rewrite <- E; reflexivity. }
  rewrite E. split.
  - intros Hlt. destruct (next_day_spec anchor Hv Hlt) as (r & Hr & Or & Vr & _).
    exists (at_midnight r). simpl. rewrite Hr. simpl. split; [reflexivity|].
    rewrite toordinal_at_midnight. repeat split; auto.
    apply valid_datetime_fields in Vr. unfold valid_datetime, at_midnight. simpl.
    rewrite !andb_true_iff. repeat split; try lia. apply valid_ymd_iff. lia.
  - intros Hy Hm Hd. simpl. unfold next_day. rewrite Hy, Hm, Hd. reflexivity.
Qed.

Lemma parse_tomorrow_witness :
  valid_datetime (mkDatetime 2024 12 31 23 59) = true /\
  In (lower (strip "  TmRW ")) ["tomorrow"; "tmrw"; "tmr"] /\
  parse_natural_date "  TmRW " (mkDatetime 2024 12 31 23 59)
  = Ok (Some (mkDatetime 2025 1 1 0 0)) /\
  (toordinal (mkDatetime 2024 12 31 23 59) < MAXORDINAL ->
   exists r, parse_natural_date "  TmRW " (mkDatetime 2024 12 31 23 59) = Ok (Some r) /\
             toordinal r = toordinal (mkDatetime 2024 12 31 23 59) + 1 /\
             hour r = 0 /\ minute r = 0 /\ valid_datetime r = true) /\
  (year (mkDatetime 2024 12 31 23 59) = 9999 -> month (mkDatetime 2024 12 31 23 59) = 12 ->
   day (mkDatetime 2024 12 31 23 59) = 31 ->
   parse_natural_date "  TmRW " (mkDatetime 2024 12 31 23 59) = Fail OverflowError).
Proof.
  assert (Hin : In (lower (strip "  TmRW ")) ["tomorrow"; "tmrw"; "tmr"])
    by (vm_compute; auto).
  split; [reflexivity|]. split; [exact Hin|]. split; [reflexivity|].
  apply (parse_tomorrow (mkDatetime 2024 12 31 23 59) "  TmRW "); [reflexivity | exact Hin].
Defined.

(** ** MM/DD, and what every parsed date is *)

Lemma split_ws_single s :
  str_existsb isspace s = false -> s <> "" -> split_ws s = [s].
Proof.
  induction s as [|c s IH]; [congruence|]. simpl. intros H _.
  apply orb_false_iff in H as [Hc Hs]. rewrite Hc.
  destruct s as [|c' s']; [reflexivity|].
  simpl in Hs. apply orb_false_iff in Hs as [Hc' Hs']. rewrite Hc'.
  rewrite IH; [reflexivity | simpl; now rewrite Hc', Hs' | discriminate].
Qed.

Lemma no_dash_at n : forall s,
  has_char "-" s = false -> String.eqb (str_take 1 (str_drop n s)) "-" = false.
Proof.
  induction n as [|n IH]; intros [|c s] H; try reflexivity.
  - unfold has_char in H. simpl in H. apply orb_false_iff in H as [Hc _].
    simpl. rewrite Hc. reflexivity.
  - simpl. apply IH. unfold has_char in *. simpl in H. now apply orb_false_iff in H.
Qed.

Lemma digit_first_facts c r :
  isdecimal_char c = true ->
  _weekday_index (String c r) = None /\
  str_in (String c r) ["today"; "todays"; "to day"] = false /\
  str_in (String c r) ["tomorrow"; "tmrw"; "tmr"] = false.
Proof.
  destruct c as [[] [] [] [] [] [] [] []]; vm_compute isdecimal_char; intros H;
    try discriminate H; repeat split; destruct r as [|c1 [|c2 r]]; reflexivity.
Qed.

(** X6. Month/day written with digits and a slash is that day of the
    anchor's year at midnight, and is not parsed at all when the anchor's
    year has no such day (02/30 ever, 02/29 outside leap years). *)
Theorem parse_month_day (anchor : datetime) (M D : string) (m d : Z) :
  isdigit M = true -> isdigit D = true -> int M = Ok m -> int D = Ok d ->
  parse_natural_date (M ++ "/" ++ D) anchor
  = Ok (if valid_ymd (year anchor) m d
        then Some (mkDatetime (year anchor) m d 0 0) else None).
Proof.
  intros HMg HDg Hm Hd.
  pose proof (isdigit_int _ _ HMg Hm) as HM. pose proof (isdigit_int _ _ HDg Hd) as HD.
  pose proof HM as HM'. pose proof HD as HD'.
  apply isdecimal_digits in HM' as [HMne HM']. apply isdecimal_digits in HD' as [_ HD'].
  change (M ++ "/" ++ D) with (M ++ String "/" D). set (s := M ++ String "/" D).
  assert (Hplain : str_forallb plain_char s = true).
  { unfold s. rewrite str_forallb_app. simpl.
    now rewrite (digits_plain _ HM'), (digits_plain _ HD'). }
  assert (Hslash : has_char "/" M = false /\ has_char "/" D = false).
  { split; eapply digits_no_char; eauto; intros c Hc; apply (digit_char_facts c Hc). }
  assert (Hdash : has_char "-" s = false).
  { unfold s. rewrite has_char_app. unfold has_char at 2. simpl.
    fold (has_char "-" D). now rewrite !digits_no_dash. }
  unfold parse_natural_date. rewrite lower_strip_plain by assumption. fold s.
  replace (String.eqb s "") with false by (symmetry; apply (isdecimal_nonempty_app M _ HM)).
  unfold parse_iso. rewrite (no_dash_at 4 s Hdash), andb_false_r. simpl andb. cbv iota.
  simpl try_except at 1. cbv iota.
  unfold parse_slash. rewrite contains_char.
  replace (has_char "/" s) with true
    by (unfold s; rewrite has_char_app; unfold has_char at 2; simpl; now rewrite orb_true_r).
  unfold s at 1. rewrite split_on_app, split_on_absent by apply Hslash.
  rewrite Hm, Hd. cbn [bind]. unfold replace_date.
  destruct (valid_ymd (year anchor) m d); cbn [bind try_except]; [reflexivity|].
  assert (Hws : str_existsb isspace s = false).
  { revert Hplain. apply str_forallb_not_exists. intros c Hc. unfold plain_char in Hc.
    destruct (isspace c); [discriminate | reflexivity]. }
  assert (Hne : s <> "") by (unfold s; destruct M; [congruence | discriminate]).
  rewrite (split_ws_single s Hws Hne).
  destruct M as [|c M0]; [congruence|]. unfold s.
  change (String c M0 ++ String "/" D) with (String c (M0 ++ String "/" D)).
  apply andb_true_iff in HM' as [Hc _].
  destruct (digit_first_facts c (M0 ++ String "/" D) Hc) as (Hw & Ht & Htm).
  rewrite Ht, Htm, Hw. reflexivity.
Qed.

Lemma parse_month_day_witness :
  isdigit "02" = true /\ isdigit "29" = true /\ int "02" = Ok 2 /\ int "29" = Ok 29 /\
  parse_natural_date ("02" ++ "/" ++ "29") (mkDatetime 2025 11 3 9 30)
  = Ok (if valid_ymd (year (mkDatetime 2025 11 3 9 30)) 2 29
        then Some (mkDatetime (year (mkDatetime 2025 11 3 9 30)) 2 29 0 0) else None) /\
  valid_ymd 2025 2 29 = false /\ valid_ymd 2024 2 29 = true.
Proof.
  do 4 (split; [reflexivity|]). split; [|split; reflexivity].
  apply (parse_month_day (mkDatetime 2025 11 3 9 30) "02" "29" 2 29); reflexivity.
Defined.

Lemma next_day_ok dt r :
  valid_datetime dt = true -> next_day dt = Ok r ->
  valid_datetime r = true /\ toordinal r = toordinal dt + 1.
Proof.
  intros Hv. pose proof (valid_datetime_fields dt Hv) as (Hy & Hm & Hd & _ & Hh & Hmi).
  destruct dt as [y m d hh mi]. unfold next_day, toordinal. cbn [year month day hour minute] in *.
  assert (Hvalid : forall y' m' d', 1 <= y' <= 9999 -> 1 <= m' <= 12 ->
                                    1 <= d' <= _days_in_month y' m' ->
                                    valid_datetime (mkDatetime y' m' d' hh mi) = true).
  { intros y' m' d' ? ? ?. unfold valid_datetime. cbn [year month day hour minute].
    rewrite !andb_true_iff. repeat split; try lia. apply valid_ymd_iff. lia. }
  destruct (Z.ltb_spec d (_days_in_month y m)).
  - intros [= <-]. split; [apply Hvalid; lia|]. cbn [year month day]. unfold _ymd2ord. lia.
  - destruct (Z.ltb_spec m 12).
    + intros [= <-]. split.
      * apply Hvalid; try lia. pose proof (days_in_month_bounds y (m + 1)). lia.
      * cbn [year month day]. unfold _ymd2ord. rewrite days_before_month_succ by lia. lia.
    + unfold MAXYEAR. destruct (Z.ltb_spec y 9999); [|discriminate].
      intros [= <-]. assert (m = 12) by lia. subst m.
      assert (d = 31) by (unfold _days_in_month, _DAYS_IN_MONTH in *; simpl in *; lia).
      subst d. split.
      * apply Hvalid; try lia. unfold _days_in_month, _DAYS_IN_MONTH. simpl. lia.
      * cbn [year month day]. unfold _ymd2ord. rewrite days_before_year_succ.
        unfold _days_before_month. simpl. destruct (_is_leap y); lia.
Qed.

Lemma plus_days_ok n : forall dt r,
  valid_datetime dt = true -> plus_days dt n = Ok r ->
  valid_datetime r = true /\ toordinal r = toordinal dt + Z.of_nat n.
Proof.
  induction n as [|n IH]; intros dt r Hv; cbn [plus_days].
  - intros [= <-]. split; [exact Hv | lia].
  - destruct (next_day dt) as [d1|] eqn:E1; simpl; [|discriminate].
    destruct (next_day_ok dt d1 Hv E1) as [V1 O1]. intros H.
    destruct (IH d1 r V1 H) as [Vr Or]. split; [exact Vr | lia].
Qed.

Lemma at_midnight_valid dt :
  valid_datetime dt = true ->
  valid_datetime (at_midnight dt) = true /\ hour (at_midnight dt) = 0 /\
  minute (at_midnight dt) = 0.
Proof.
  intros Hv. apply valid_datetime_fields in Hv.
  unfold valid_datetime, at_midnight. cbn [year month day hour minute].
  rewrite !andb_true_iff. repeat split; try lia. apply valid_ymd_iff. lia.
Qed.

Lemma replace_date_ok anchor y m d r :
  replace_date anchor y m d = Ok r ->
  valid_datetime r = true /\ hour r = 0 /\ minute r = 0.
Proof.
  unfold replace_date. destruct (valid_ymd y m d) eqn:E; [|discriminate].
  intros [= <-]. unfold valid_datetime. cbn [year month day hour minute]. now rewrite E.
Qed.

Lemma parsed_date_valid (phrase : string) (anchor r : datetime) :
  valid_datetime anchor = true ->
  parse_natural_date phrase anchor = Ok (Some r) ->
  valid_datetime r = true /\ hour r = 0 /\ minute r = 0.
Proof.
  intros Hv. unfold parse_natural_date. set (s := lower (strip phrase)).
  destruct (String.eqb s ""); [discriminate|].
  assert (Hplus : forall n k,
             (do x <- plus_days anchor n; Ok (Some (at_midnight x))) = Ok (Some k) ->
             valid_datetime k = true /\ hour k = 0 /\ minute k = 0).
  { intros n k. destruct (plus_days anchor n) as [x|] eqn:E; simpl; [|discriminate].
    intros [= <-]. apply at_midnight_valid. now apply (plus_days_ok n anchor x). }
  destruct (parse_iso s anchor) as [[r0|]|e0] eqn:Ei; cbn [try_except].
  { intros [= <-]. unfold parse_iso in Ei.
    destruct (_ && _); [|discriminate].
    destruct (split_on "-" s) as [|y [|m [|d [|? ?]]]]; try discriminate.
    destruct (int y) as [yv|]; simpl in Ei; [|discriminate].
    destruct (int m) as [mv|]; simpl in Ei; [|discriminate].
    destruct (int d) as [dv|]; simpl in Ei; [|discriminate].
    destruct (replace_date anchor yv mv dv) as [x|] eqn:Er; simpl in Ei; [|discriminate].
    injection Ei as <-. eapply replace_date_ok; eauto. }
  all: destruct (parse_slash s anchor) as [[r1|]|e1] eqn:Es; cbn [try_except].
  all: try (intros [= <-]; unfold parse_slash in Es;
            destruct (contains "/" s); [|discriminate];
            destruct (split_on "/" s) as [|m [|d [|? ?]]]; try discriminate;
            destruct (int m) as [mv|]; simpl in Es; [|discriminate];
            destruct (int d) as [dv|]; simpl in Es; [|discriminate];
            destruct (replace_date anchor (year anchor) mv dv) as [x|] eqn:Er;
            simpl in Es; [|discriminate];
            injection Es as <-; eapply replace_date_ok; eauto).
  all: destruct (str_in s ["today"; "todays"; "to day"]);
    [intros [= <-]; now apply at_midnight_valid|].
  all: destruct (str_in s ["tomorrow"; "tmrw"; "tmr"]); [apply Hplus|].
  all: destruct (match split_ws s with [tok] => _weekday_index tok | _ => None end);
    [apply Hplus|].
  all: destruct (match split_ws s with
                 | [t0; t1] => if String.eqb t0 "next" then _weekday_index t1 else None
                 | _ => None
                 end); [apply Hplus | discriminate].
Qed.

(** X7. Whatever phrase it is given, the date [parse_natural_date] returns
    is a day of the calendar (month 1 to 12, a day that month has, year 1
    to 9999), at midnight. *)
Theorem parsed_date_is_valid_midnight (phrase : string) (anchor r : datetime) :
  valid_datetime anchor = true ->
  parse_natural_date phrase anchor = Ok (Some r) ->
  valid_datetime r = true /\ hour r = 0 /\ minute r = 0.
Proof. exact (parsed_date_valid phrase anchor r). Qed.

Lemma parsed_date_is_valid_midnight_witness :
  valid_datetime (mkDatetime 2025 11 3 9 30) = true /\
  parse_natural_date "next fri" (mkDatetime 2025 11 3 9 30)
  = Ok (Some (mkDatetime 2025 11 7 0 0)) /\
  valid_datetime (mkDatetime 2025 11 7 0 0) = true /\
  hour (mkDatetime 2025 11 7 0 0) = 0 /\ minute (mkDatetime 2025 11 7 0 0) = 0.
Proof.
  split; [reflexivity|]. split; [reflexivity|].
  apply (parsed_date_is_valid_midnight "next fri" (mkDatetime 2025 11 3 9 30));
    reflexivity.
Defined.

(** ** The slot engine off its intended inputs *)

(** X8. With a slot interval of zero or less the loop of
    [_expand_ranges_to_slots] never ends as soon as one range parses and
    is long enough for the service; when every range that parses is too
    short the loop is never entered and the result is the empty list. *)
Theorem expand_nonpositive_step (ranges : list string) (step service : Z) :
  step <= 0 ->
  ((exists r s e, In r ranges /\ range_minutes r = Ok (s, e) /\ s + service <= e) ->
   _expand_ranges_to_slots ranges step service = Fail Diverges) /\
  ((forall r s e, In r ranges -> range_minutes r = Ok (s, e) -> e < s + service) ->
   _expand_ranges_to_slots ranges step service = Ok []).
Proof. exact (expand_stalls ranges step service). Qed.

Lemma expand_nonpositive_step_witness :
  0 <= 0 /\ _expand_ranges_to_slots ["12:00-12:10"; "09:00-10:00"] 0 30 = Fail Diverges.
Proof.
  split; [lia|].
  destruct (expand_nonpositive_step ["12:00-12:10"; "09:00-10:00"] 0 30) as [H _]; [lia|].
  apply H. exists "09:00-10:00", 540, 600.
  split; [right; now left|]. split; [reflexivity|lia].
Defined.

(** X9. [_subtract_appointments] keeps the slots it keeps in the order it
    was given them, and a calendar none of whose stored ranges can be read
    removes nothing. *)
Theorem subtract_keeps_order (slots taken : list string) (service_min : Z)
    (keep : list string) :
  _subtract_appointments slots taken service_min = Ok keep ->
  sublist keep slots /\
  ((forall r, In r taken -> exists e, range_minutes r = Fail e) -> keep = slots).
Proof.
  revert keep. induction slots as [|s slots IH]; intros keep; cbn [_subtract_appointments].
  - intros [= <-]. split; [constructor | reflexivity].
  - destruct (_time_to_minutes s) as [t|] eqn:Et; cbn [bind]; [|discriminate].
    destruct (_subtract_appointments slots taken service_min) as [k|] eqn:Ek;
      cbn [bind]; [|discriminate].
    destruct (IH k eq_refl) as [Hsub Hall].
    intros [= <-]. split.
    + destruct (existsb _ taken); [now apply sublist_cons | now apply sublist_skip].
    + intros Hbad.
      assert (existsb (conflicts t (t + service_min)) taken = false) as ->.
      { apply not_true_is_false. intros H. apply existsb_exists in H as (r & Hr & Hc).
        destruct (Hbad r Hr) as [e He]. unfold conflicts in Hc. now rewrite He in Hc. }
      f_equal. now apply Hall.
Qed.

Lemma subtract_keeps_order_witness :
  _subtract_appointments ["09:00"; "09:30"; "10:00"] ["lunch"; "9-10"] 30
  = Ok ["09:00"; "09:30"; "10:00"] /\
  sublist ["09:00"; "09:30"; "10:00"] ["09:00"; "09:30"; "10:00"] /\
  ((forall r, In r ["lunch"; "9-10"] -> exists e, range_minutes r = Fail e) ->
   ["09:00"; "09:30"; "10:00"] = ["09:00"; "09:30"; "10:00"]).
Proof.
  split; [reflexivity|].
  apply (subtract_keeps_order ["09:00"; "09:30"; "10:00"] ["lunch"; "9-10"] 30).
  reflexivity.
Defined.

(** X10. A slot that is not of the form hours:minutes makes
    [_subtract_appointments] raise, whatever the calendar holds: only the
    reading of a stored range is guarded by a [try]. *)
Theorem subtract_bad_slot_raises (slots taken : list string) (service_min : Z)
    (s : string) (e : fault) :
  In s slots -> _time_to_minutes s = Fail e ->
  exists e', _subtract_appointments slots taken service_min = Fail e'.
Proof.
  intros Hin Hs. induction slots as [|a slots IH]; [destruct Hin|].
  cbn [_subtract_appointments]. destruct Hin as [->|Hin].
  - rewrite Hs. now exists e.
  - destruct (_time_to_minutes a) as [t|ea]; cbn [bind]; [|now exists ea].
    destruct (IH Hin) as [e' ->]. now exists e'.
Qed.

Lemma subtract_bad_slot_raises_witness :
  In "noon" ["09:00"; "noon"] /\ _time_to_minutes "noon" = Fail ValueError /\
  exists e', _subtract_appointments ["09:00"; "noon"] ["09:00-10:00"] 30 = Fail e'.
Proof.
  split; [right; now left|]. split; [reflexivity|].
  apply (subtract_bad_slot_raises ["09:00"; "noon"] ["09:00-10:00"] 30 "noon" ValueError);
    [right; now left | reflexivity].
Defined.

(** X11. For a non-empty service name [_get_service_minutes] returns the
    duration of the first entry of services.json whose name equals it up
    to case and surrounding blanks and whose duration converts to an
    integer; with no such entry it returns 30. *)
Theorem service_minutes_first_match (w : World) (name : string) (d : Z) :
  name <> "" ->
  _get_service_minutes w (Some name) = d ->
  (exists pre s post,
      services w = (pre ++ s :: post)%list /\
      lower (svc_name s) = lower (strip name) /\ svc_duration s = Some d /\
      Forall (fun s' => lower (svc_name s') = lower (strip name) -> svc_duration s' = None)
             pre) \/
  (d = 30 /\
   Forall (fun s' => lower (svc_name s') = lower (strip name) -> svc_duration s' = None)
          (services w)).
Proof.
  intros Hne. unfold _get_service_minutes.
  destruct name as [|c n]; [contradiction|]. clear Hne.
  generalize (String c n) as nm. intros nm. revert d.
  induction (services w) as [|s l IH]; intros d; cbn [_get_service_minutes_loop].
  - intros <-. right. split; [reflexivity | constructor].
  - destruct (String.eqb_spec (lower (svc_name s)) (lower (strip nm))) as [E|E].
    + destruct (svc_duration s) as [ds|] eqn:Ed.
      * intros <-. left. exists [], s, l. repeat split; auto.
      * intros H. destruct (IH d H) as [(pre & s0 & post & -> & Hm & Hd & Hpre)|[-> Hall]].
        -- left. exists (s :: pre), s0, post. repeat split; auto.
        -- right. split; [reflexivity|]. constructor; auto.
    + intros H. destruct (IH d H) as [(pre & s0 & post & -> & Hm & Hd & Hpre)|[-> Hall]].
      * left. exists (s :: pre), s0, post. repeat split; auto.
        constructor; [intros; contradiction | assumption].
      * right. split; [reflexivity|]. constructor; [intros; contradiction | assumption].
Qed.

Lemma service_minutes_first_match_witness :
  " skin FADE " <> "" /\ _get_service_minutes seed_world (Some " skin FADE ") = 45 /\
  ((exists pre s post,
       services seed_world = (pre ++ s :: post)%list /\
       lower (svc_name s) = lower (strip " skin FADE ") /\ svc_duration s = Some 45 /\
       Forall (fun s' => lower (svc_name s') = lower (strip " skin FADE ") ->
                         svc_duration s' = None) pre) \/
   (45 = 30 /\
    Forall (fun s' => lower (svc_name s') = lower (strip " skin FADE ") ->
                      svc_duration s' = None) (services seed_world))).
Proof.
  split; [discriminate|]. split; [reflexivity|].
  apply (service_minutes_first_match seed_world " skin FADE " 45); [discriminate | reflexivity].
Defined.

(** ** What [check_availability] offers *)

(** X12. The list [check_availability] returns holds the first
    [max(1, limit)] of the free slots it counted in [total_available], so
    its length is the smaller of the two numbers, a limit of zero or less
    still gives one slot, and a call with a smaller limit returns a prefix
    of the call with a larger one. *)
Theorem availability_limit (w : World) (phrase svc : option string) (limit : Z)
    (dp : option (string * string)) (av : AvailResult) (n : Z) :
  check_availability w phrase svc limit dp = Ok av ->
  av_total_available av = Some n ->
  Z.of_nat (List.length (av_available av)) = Z.min (Z.max 1 limit) n /\
  forall limit', exists av',
    check_availability w phrase svc limit' dp = Ok av' /\
    av_total_available av' = Some n /\
    (limit <= limit' ->
     av_available av = firstn (Z.to_nat (Z.max 1 limit)) (av_available av')).
Proof.
  intros H Hn. apply check_availability_inv in H as [[Hp ->] | (dt & Hp & H)];
    [discriminate|].
  cbv zeta in H.
  destruct H as [[Hr ->] | (Hr & all_slots & free & f1 & f2 & Ex & Es & Ed & Et & ->)];
    [discriminate|].
  cbn [av_total_available av_available] in *. injection Hn as <-. split.
  - rewrite List.length_firstn. lia.
  - intros limit'. rewrite (check_availability_open w phrase svc limit' dp dt Hp Hr).
    cbv zeta. rewrite Ex. cbn [bind]. rewrite Es. cbn [bind]. rewrite Ed. cbn [bind].
    rewrite Et. cbn [bind]. eexists. split; [reflexivity|].
    cbn [av_total_available av_available]. split; [reflexivity|].
    intros Hle. rewrite List.firstn_firstn. f_equal. lia.
Qed.

Lemma availability_limit_witness :
  exists av,
    check_availability seed_world (Some "tomorrow morning") None 0 None = Ok av /\
    av_total_available av = Some 10 /\
    av_available av = ["09:00"] /\
    Z.of_nat (List.length (av_available av)) = Z.min (Z.max 1 0) 10.
Proof.
  destruct (check_availability seed_world (Some "tomorrow morning") None 0 None)
    as [av|] eqn:E; vm_compute in E; [|discriminate].
  injection E as <-. eexists. split; [reflexivity|]. split; [reflexivity|].
  split; [reflexivity|].
  apply (availability_limit seed_world (Some "tomorrow morning") None 0 None _ 10);
    reflexivity.
Defined.

Lemma available_slot_facts (w : World) (phrase svc : option string) (limit : Z)
    (dp : option (string * string)) (av : AvailResult) (s : string) :
  0 < slot_interval_minutes (working w) ->
  check_availability w phrase svc limit dp = Ok av ->
  In s (av_available av) ->
  exists dt t r rs re,
    parse_natural_date (phrase_parsed phrase) (now w) = Ok (Some dt) /\
    av_date av = Some (strftime_date dt) /\
    _time_to_minutes s = Ok t /\ s = _minutes_to_time t /\
    In r (default [] (applicable_ranges (working w) (strftime_date dt)
                                        (weekday_name (weekday dt)))) /\
    range_minutes r = Ok (rs, re) /\
    rs <= t /\ t + _get_service_minutes w svc <= re /\
    (~ exists r' s' e',
         In r' (_get_taken_ranges_from_calendar w (strftime_date dt)) /\
         range_minutes r' = Ok (s', e') /\
         overlap t (t + _get_service_minutes w svc) s' e') /\
    (forall d0 d1, daypart_used phrase dp = Some (d0, d1) ->
                   exists a b, _time_to_minutes d0 = Ok a /\ _time_to_minutes d1 = Ok b /\
                               a <= t /\ t + _get_service_minutes w svc <= b) /\
    (strftime_date dt = strftime_date (now w) ->
     exists now_m, _time_to_minutes (strftime_hm (now w)) = Ok now_m /\
                   now_m < t + _get_service_minutes w svc).
Proof.
  intros Hstep H Hin. apply check_availability_inv in H as [[Hp ->] | (dt & Hp & H)];
    [destruct Hin|].
  cbv zeta in H.
  destruct H as [[Hr ->] | (Hr & all_slots & free & f1 & f2 & Ex & Es & Ed & Et & ->)];
    [destruct Hin|].
  cbn [av_available av_date] in *. apply firstn_In in Hin.
  set (dur := _get_service_minutes w svc) in *.
  set (date_str := strftime_date dt) in *.
  pose proof (today_filter_incl _ _ _ _ _ Et s Hin) as Hin1.
  pose proof (daypart_filter_incl _ _ _ _ Ed s Hin1) as Hin0.
  apply (subtract_In _ _ _ _ Es) in Hin0 as (Hall & t & Ht & Hfree).
  rewrite expand_spec in Ex by assumption. injection Ex as <-.
  apply in_concat in Hall as (l & Hl & Hsl).
  apply in_map_iff in Hl as (r & <- & Hrin). unfold range_slots in Hsl.
  destruct (range_minutes r) as [[rs re]|] eqn:Er; [|destruct Hsl].
  apply in_map_iff in Hsl as (t0 & <- & Ht0).
  apply candidates_In in Ht0 as (k & Hk & -> & Hfit); [|assumption].
  destruct (range_minutes_nonneg _ _ _ Er) as [Hrs _].
  assert (0 <= k * slot_interval_minutes (working w)) by (apply Z.mul_nonneg_nonneg; lia).
  rewrite time_roundtrip in Ht by lia. injection Ht as <-.
  exists dt, (rs + k * slot_interval_minutes (working w)), r, rs, re.
  split; [exact Hp|]. split; [reflexivity|].
  split; [apply time_roundtrip; lia|]. split; [reflexivity|].
  split; [exact Hrin|]. split; [exact Er|]. split; [lia|]. split; [exact Hfit|].
  split; [now apply conflicts_false_iff|]. split.
  - intros d0 d1 Hdp. unfold daypart_filter in Ed. rewrite Hdp in Ed.
    destruct (_time_to_minutes d0) as [a|]; cbn [bind] in Ed; [|discriminate].
    destruct (_time_to_minutes d1) as [b|]; cbn [bind] in Ed; [|discriminate].
    apply (filter_res_In _ _ _ Ed) in Hin1 as [_ Hp1].
    rewrite time_roundtrip in Hp1 by lia. cbn [bind] in Hp1.
    injection Hp1 as Hp1. apply andb_true_iff in Hp1 as [Ha Hb].
    exists a, b. repeat split; lia.
  - intros Htoday. unfold today_filter in Et. fold date_str in Htoday.
    rewrite Htoday, String.eqb_refl in Et.
    destruct (_time_to_minutes (strftime_hm (now w))) as [now_m|];
      cbn [bind] in Et; [|discriminate].
    apply (filter_res_In _ _ _ Et) in Hin as [_ Hp1].
    rewrite time_roundtrip in Hp1 by lia. cbn [bind] in Hp1.
    injection Hp1 as Hp1. exists now_m. split; [reflexivity|]. lia.
Qed.

(** X13. On a schedule with a positive slot interval every slot
    [check_availability] offers is the two-digit rendering of a start
    minute [t] such that the service, started at [t], fits inside one
    opening range of the resolved date, overlaps no appointment stored for
    that date, lies inside the daypart window when one is in force, and,
    when the date is today, ends after the present minute. *)
Theorem offered_slot_is_bookable (w : World) (phrase svc : option string) (limit : Z)
    (dp : option (string * string)) (av : AvailResult) (s : string) :
  0 < slot_interval_minutes (working w) ->
  check_availability w phrase svc limit dp = Ok av ->
  In s (av_available av) ->
  exists dt t r rs re,
    parse_natural_date (phrase_parsed phrase) (now w) = Ok (Some dt) /\
    av_date av = Some (strftime_date dt) /\
    _time_to_minutes s = Ok t /\ s = _minutes_to_time t /\
    In r (default [] (applicable_ranges (working w) (strftime_date dt)
                                        (weekday_name (weekday dt)))) /\
    range_minutes r = Ok (rs, re) /\
    rs <= t /\ t + _get_service_minutes w svc <= re /\
    (~ exists r' s' e',
         In r' (_get_taken_ranges_from_calendar w (strftime_date dt)) /\
         range_minutes r' = Ok (s', e') /\
         overlap t (t + _get_service_minutes w svc) s' e') /\
    (forall d0 d1, daypart_used phrase dp = Some (d0, d1) ->
                   exists a b, _time_to_minutes d0 = Ok a /\ _time_to_minutes d1 = Ok b /\
                               a <= t /\ t + _get_service_minutes w svc <= b) /\
    (strftime_date dt = strftime_date (now w) ->
     exists now_m, _time_to_minutes (strftime_hm (now w)) = Ok now_m /\
                   now_m < t + _get_service_minutes w svc).
Proof. exact (available_slot_facts w phrase svc limit dp av s). Qed.

Lemma offered_slot_is_bookable_witness :
  exists av,
    0 < slot_interval_minutes (working seed_world) /\
    check_availability seed_world (Some "today") (Some "Skin Fade") 3 None = Ok av /\
    av_available av = ["09:00"; "09:15"; "09:30"] /\
    exists dt t r rs re,
      parse_natural_date (phrase_parsed (Some "today")) (now seed_world) = Ok (Some dt) /\
      av_date av = Some (strftime_date dt) /\
      _time_to_minutes "09:15" = Ok t /\ "09:15" = _minutes_to_time t /\
      In r (default [] (applicable_ranges (working seed_world) (strftime_date dt)
                                          (weekday_name (weekday dt)))) /\
      range_minutes r = Ok (rs, re) /\
      rs <= t /\ t + _get_service_minutes seed_world (Some "Skin Fade") <= re /\
      (~ exists r' s' e',
           In r' (_get_taken_ranges_from_calendar seed_world (strftime_date dt)) /\
           range_minutes r' = Ok (s', e') /\
           overlap t (t + _get_service_minutes seed_world (Some "Skin Fade")) s' e') /\
      (forall d0 d1, daypart_used (Some "today") None = Some (d0, d1) ->
                     exists a b, _time_to_minutes d0 = Ok a /\ _time_to_minutes d1 = Ok b /\
                                 a <= t /\
                                 t + _get_service_minutes seed_world (Some "Skin Fade") <= b) /\
      (strftime_date dt = strftime_date (now seed_world) ->
       exists now_m, _time_to_minutes (strftime_hm (now seed_world)) = Ok now_m /\
                     now_m < t + _get_service_minutes seed_world (Some "Skin Fade")).
Proof.
  destruct (check_availability seed_world (Some "today") (Some "Skin Fade") 3 None)
    as [av|] eqn:E; [|vm_compute in E; discriminate].
  exists av. split; [reflexivity|]. split; [reflexivity|].
  assert (Hav : av_available av = ["09:00"; "09:15"; "09:30"]).
  { vm_compute in E. injection E as <-. reflexivity. }
  split; [exact Hav|].
  apply (offered_slot_is_bookable seed_world (Some "today") (Some "Skin Fade") 3 None av
                                  "09:15"); [reflexivity | exact E |].
  rewrite Hav. right. now left.
Defined.

(** ** Opening and closing time *)

Lemma map_res_In {A B : Type} (f : A -> res B) l r :
  map_res f l = Ok r ->
  (forall y, In y r -> exists x, In x l /\ f x = Ok y) /\
  (forall x, In x l -> exists y, In y r /\ f x = Ok y).
Proof.
  revert r. induction l as [|a l IH]; intros r; cbn [map_res].
  - intros [= <-]. split; intros ? [].
  - destruct (f a) as [b|] eqn:Ea; cbn [bind]; [|discriminate].
    destruct (map_res f l) as [r0|]; cbn [bind]; [|discriminate].
    destruct (IH r0 eq_refl) as [H1 H2]. intros [= <-]. split.
    + intros y [<-|Hy]; [exists a; split; [now left | exact Ea]|].
      destruct (H1 y Hy) as (x & Hx & Hfx). exists x. split; [now right | exact Hfx].
    + intros x [<-|Hx]; [exists b; split; [now left | exact Ea]|].
      destruct (H2 x Hx) as (y & Hy & Hfx). exists y. split; [now right | exact Hfx].
Qed.

Lemma sorted_by_head {A : Type} (key : A -> Z) l x rest :
  sorted_by key l = x :: rest ->
  In x l /\ forall y, In y l -> key x <= key y.
Proof.
  intros E. pose proof (sorted_by_sorted key l) as Hs.
  pose proof (sorted_by_perm key l) as Hp. rewrite E in Hs, Hp.
  split; [apply (Permutation_in _ Hp); now left|].
  intros y Hy. apply (Permutation_in _ (Permutation_sym Hp)) in Hy.
  inversion Hs as [|? ? _ Hall]; subst. destruct Hy as [<-|Hy]; [lia|].
  exact (proj1 (List.Forall_forall _ _) Hall y Hy).
Qed.

Lemma sorted_snoc {A : Type} (R : A -> A -> Prop) l x :
  StronglySorted R (l ++ [x])%list -> forall y, In y l -> R y x.
Proof.
  induction l as [|a l IH]; intros Hs y Hy; [destruct Hy|].
  cbn in Hs. inversion Hs as [|? ? Hs' Hall]; subst. destruct Hy as [<-|Hy].
  - apply (proj1 (List.Forall_forall _ _) Hall). apply in_or_app. right. now left.
  - now apply IH.
Qed.

Lemma sorted_by_last {A : Type} (key : A -> Z) l x rest :
  rev (sorted_by key l) = x :: rest ->
  In x l /\ forall y, In y l -> key y <= key x.
Proof.
  intros E. pose proof (sorted_by_sorted key l) as Hs.
  pose proof (sorted_by_perm key l) as Hp.
  assert (E' : sorted_by key l = (rev rest ++ [x])%list).
  { rewrite <- (rev_involutive (sorted_by key l)), E. reflexivity. }
  rewrite E' in Hs, Hp.
  split; [apply (Permutation_in _ Hp); apply in_or_app; right; now left|].
  intros y Hy. apply (Permutation_in _ (Permutation_sym Hp)) in Hy.
  apply in_app_or in Hy as [Hy|[<-|[]]]; [|lia].
  exact (sorted_snoc _ _ _ Hs y Hy).
Qed.

Lemma opening_closing_spec ranges o c :
  opening_closing ranges = Ok (o, c) ->
  exists t_open t_close,
    _time_to_minutes o = Ok t_open /\ _time_to_minutes c = Ok t_close /\
    (exists r s e, In r ranges /\ split_on "-" r = [s; e] /\ strip s = o) /\
    (exists r s e, In r ranges /\ split_on "-" r = [s; e] /\ strip e = c) /\
    forall r, In r ranges ->
      exists s e ts te,
        split_on "-" r = [s; e] /\
        _time_to_minutes (strip s) = Ok ts /\ _time_to_minutes (strip e) = Ok te /\
        t_open <= ts /\ te <= t_close.
Proof.
  unfold opening_closing.
  destruct (map_res _ ranges) as [pairs|] eqn:Ep; cbn [bind]; [|discriminate].
  destruct (map_res _ (map fst pairs)) as [starts|] eqn:Es; cbn [bind]; [|discriminate].
  destruct (map_res _ (map snd pairs)) as [ends|] eqn:Ee; cbn [bind]; [|discriminate].
  destruct (sorted_by fst starts) as [|[ko o'] so] eqn:Eso; [discriminate|].
  destruct (rev (sorted_by fst ends)) as [|[kc c'] sc] eqn:Esc; [discriminate|].
  intros [= -> ->].
  destruct (map_res_In _ _ _ Ep) as [Hp1 Hp2].
  destruct (map_res_In _ _ _ Es) as [Hs1 Hs2].
  destruct (map_res_In _ _ _ Ee) as [He1 He2].
  destruct (sorted_by_head _ _ _ _ Eso) as [Ho Hmin].
  destruct (sorted_by_last _ _ _ _ Esc) as [Hc Hmax].
  assert (Hpair : forall p, In p pairs ->
            exists r s e, In r ranges /\ split_on "-" r = [s; e] /\
                          p = (strip s, strip e)).
  { intros p Hp. destruct (Hp1 p Hp) as (r & Hr & Hf).
    destruct (split_on "-" r) as [|s [|e [|? ?]]] eqn:Esp; try discriminate.
    injection Hf as <-. now exists r, s, e. }
  destruct (Hs1 _ Ho) as (x & Hx & Hfx).
  destruct (_time_to_minutes x) as [kx|] eqn:Ekx; cbn [bind] in Hfx; [|discriminate].
  injection Hfx as -> ->.
  destruct (He1 _ Hc) as (y & Hy & Hfy).
  destruct (_time_to_minutes y) as [ky|] eqn:Eky; cbn [bind] in Hfy; [|discriminate].
  injection Hfy as -> ->.
  exists ko, kc. split; [exact Ekx|]. split; [exact Eky|]. split; [|split].
  - apply in_map_iff in Hx as (p & <- & Hp).
    destruct (Hpair p Hp) as (r & s & e & Hr & Hsp & ->). now exists r, s, e.
  - apply in_map_iff in Hy as (p & <- & Hp).
    destruct (Hpair p Hp) as (r & s & e & Hr & Hsp & ->). now exists r, s, e.
  - intros r Hr. destruct (Hp2 r Hr) as (p & Hp & Hf).
    destruct (split_on "-" r) as [|s [|e [|? ?]]] eqn:Esp; try discriminate.
    injection Hf as <-.
    destruct (Hs2 (strip s)) as (ks & Hks & Hfs);
      [apply in_map_iff; exists (strip s, strip e); split; [reflexivity | exact Hp]|].
    destruct (He2 (strip e)) as (ke & Hke & Hfe);
      [apply in_map_iff; exists (strip s, strip e); split; [reflexivity | exact Hp]|].
    destruct (_time_to_minutes (strip s)) as [ts|] eqn:Ets; cbn [bind] in Hfs;
      [|discriminate].
    destruct (_time_to_minutes (strip e)) as [te|] eqn:Ete; cbn [bind] in Hfe;
      [|discriminate].
    injection Hfs as <-. injection Hfe as <-.
    exists s, e, ts, te. split; [reflexivity|]. split; [exact Ets|].
    split; [exact Ete|]. split.
    + exact (Hmin _ Hks).
    + exact (Hmax _ Hke).
Qed.

(** X14. [get_hours] reports an opening and a closing time together or
    not at all.  When it reports them, every range of the day splits at
    its one dash into a start and an end that read as times, the opening
    is the start of one of the ranges and no start is earlier, and the
    closing is the end of one of the ranges and no end is later. *)
Theorem hours_opening_closing (w : World) (date_phrase : option string) (hr : HoursResult) :
  get_hours w date_phrase = Ok hr ->
  (h_opening hr = None <-> h_closing hr = None) /\
  forall o c,
    h_opening hr = Some o -> h_closing hr = Some c ->
    exists ranges t_open t_close,
      h_ranges hr = Some ranges /\ h_closed hr = Some false /\
      _time_to_minutes o = Ok t_open /\ _time_to_minutes c = Ok t_close /\
      (exists r s e, In r ranges /\ split_on "-" r = [s; e] /\ strip s = o) /\
      (exists r s e, In r ranges /\ split_on "-" r = [s; e] /\ strip e = c) /\
      forall r, In r ranges ->
        exists s e ts te,
          split_on "-" r = [s; e] /\
          _time_to_minutes (strip s) = Ok ts /\ _time_to_minutes (strip e) = Ok te /\
          t_open <= ts /\ te <= t_close.
Proof.
  unfold get_hours.
  destruct (parse_natural_date _ (now w)) as [[dt|]|]; cbn [bind]; [| |discriminate].
  2: { intros [= <-]. cbn. split; [tauto | discriminate]. }
  destruct (lookup_ranges _ _ _) as [|r0 l] eqn:El.
  { intros [= <-]. cbn. split; [tauto | discriminate]. }
  destruct (opening_closing (r0 :: l)) as [[o c]|] eqn:Eoc; cbn [bind try_except].
  - intros [= <-]. cbn [h_opening h_closing h_ranges h_closed fst snd].
    split; [split; discriminate|]. intros o' c' [= <-] [= <-].
    destruct (opening_closing_spec _ _ _ Eoc) as (t1 & t2 & H1 & H2 & H3 & H4 & H5).
    exists (r0 :: l), t1, t2. repeat (split; [first [reflexivity | assumption]|]).
    exact H5.
  - intros [= <-]. cbn. split; [tauto | discriminate].
Qed.

Lemma hours_opening_closing_witness :
  exists hr,
    get_hours split_shift_world (Some "tomorrow") = Ok hr /\
    h_opening hr = Some "9:00" /\ h_closing hr = Some "18:30" /\
    (h_opening hr = None <-> h_closing hr = None).
Proof.
  destruct (get_hours split_shift_world (Some "tomorrow")) as [hr|] eqn:E;
    [|vm_compute in E; discriminate].
  exists hr. split; [reflexivity|].
  assert (Ho : h_opening hr = Some "9:00" /\ h_closing hr = Some "18:30").
  { vm_compute in E. injection E as <-. split; reflexivity. }
  split; [apply Ho|]. split; [apply Ho|].
  apply (hours_opening_closing _ _ hr E).
Defined.

(** X15. A range that does not split at exactly one dash, or whose halves
    do not read as times, leaves the day open in [get_hours] but with
    neither an opening nor a closing time. *)
Theorem hours_malformed_range (w : World) (date_phrase : option string) (dt : datetime)
    (r : string) :
  parse_natural_date (or_today (default "" date_phrase)) (now w) = Ok (Some dt) ->
  In r (lookup_ranges (working w) (strftime_date dt) (weekday_name (weekday dt))) ->
  (forall s e ts te, split_on "-" r = [s; e] -> _time_to_minutes (strip s) = Ok ts ->
                     _time_to_minutes (strip e) = Ok te -> False) ->
  exists hr,
    get_hours w date_phrase = Ok hr /\
    h_closed hr = Some false /\ h_opening hr = None /\ h_closing hr = None /\
    h_ranges hr = Some (lookup_ranges (working w) (strftime_date dt)
                                      (weekday_name (weekday dt))).
Proof.
  intros Hp Hin Hbad. unfold get_hours. rewrite Hp. cbn [bind].
  destruct (lookup_ranges _ _ _) as [|r0 l] eqn:El; [destruct Hin|].
  destruct (opening_closing (r0 :: l)) as [[o c]|] eqn:Eoc; cbn [bind try_except].
  - exfalso. destruct (opening_closing_spec _ _ _ Eoc) as (t1 & t2 & _ & _ & _ & _ & H5).
    destruct (H5 r Hin) as (s & e & ts & te & Hs & Hts & Hte & _). eauto.
  - eexists. split; [reflexivity|]. cbn. auto.
Qed.

Lemma hours_malformed_range_witness :
  exists hr,
    get_hours malformed_hours_world (Some "tomorrow") = Ok hr /\
    h_closed hr = Some false /\ h_opening hr = None /\ h_closing hr = None /\
    h_ranges hr
    = Some (lookup_ranges (working malformed_hours_world)
                          (strftime_date (mkDatetime 2025 11 4 0 0))
                          (weekday_name (weekday (mkDatetime 2025 11 4 0 0)))).
Proof.
  apply (hours_malformed_range malformed_hours_world (Some "tomorrow")
                               (mkDatetime 2025 11 4 0 0) "13:00 to 17:00").
  - reflexivity.
  - vm_compute. right. now left.
  - intros s e ts te Hs. vm_compute in Hs. discriminate.
Defined.

(** ** What a booking writes *)

(** X16. [_append_appointment] writes to the calendar only, and only under
    the date it is given: opening hours, services, the booking log, the
    clock and the lists of every other date are as before; a refusal
    writes nothing; after a success the list of the date holds what it
    held before and the new range, start and end joined by a dash. *)
Theorem append_appointment_frame (set_list : list string -> list string) (w : World)
    (date_str st : string) (d : Z) (cn ph em : string)
    (ok : bool) (msg : string) (w' : World) :
  set_list_ok set_list ->
  _append_appointment set_list w date_str st d cn ph em = (ok, msg, w') ->
  working w' = working w /\ services w' = services w /\ bookings w' = bookings w /\
  now w' = now w /\
  (forall other, other <> date_str -> appointments w' !! other = appointments w !! other) /\
  (ok = false -> w' = w) /\
  (ok = true ->
   exists start_m,
     _time_to_minutes st = Ok start_m /\
     forall x, In x (_get_taken_ranges_from_calendar w' date_str) <->
               In x (_get_taken_ranges_from_calendar w date_str) \/
               x = st ++ "-" ++ _minutes_to_time (start_m + d)).
Proof.
  intros Hset E.
  destruct (append_appointment_cases set_list w date_str st d cn ph em)
    as [[Hf Hw]|(sm & Hst & Hc & Ht & Hw)]; rewrite E in Hw;
    first [rewrite E in Hf | rewrite E in Ht]; cbn [fst snd] in *; subst ok w'.
  - repeat (split; [reflexivity|]). discriminate.
  - cbn [working services bookings now appointments set_appointments].
    repeat (split; [reflexivity|]).
    split; [intros other Hne; now rewrite lookup_insert_ne|].
    split; [discriminate|]. intros _. exists sm. split; [exact Hst|].
    intros x. unfold _get_taken_ranges_from_calendar at 1.
    cbn [appointments set_appointments]. rewrite lookup_insert_eq. cbn [default].
    apply (stored_after_In set_list Hset).
Qed.

Lemma append_appointment_frame_witness :
  exists w',
    set_list_ok set_list_first /\
    _append_appointment set_list_first (rival_booking seed_world) "2025-11-04" "09:15" 45
                        "Ann" "555-0100" "ann@example.org"
    = (true, "Booked 2025-11-04 09:15-10:00.", w') /\
    appointments w' !! "2025-11-04" = Some ["09:15-10:00"; "10:00-11:00"] /\
    bookings w' = bookings (rival_booking seed_world).
Proof.
  destruct (_append_appointment set_list_first (rival_booking seed_world) "2025-11-04"
                                "09:15" 45 "Ann" "555-0100" "ann@example.org")
    as [[ok msg] w'] eqn:E.
  assert (Hv : ok = true /\ msg = "Booked 2025-11-04 09:15-10:00." /\
               appointments w' !! "2025-11-04" = Some ["09:15-10:00"; "10:00-11:00"]).
  { vm_compute in E. injection E as <- <- <-. repeat split; reflexivity. }
  destruct Hv as (-> & -> & Hcal). exists w'.
  split; [exact set_list_first_ok|]. split; [reflexivity|]. split; [exact Hcal|].
  apply (append_appointment_frame set_list_first (rival_booking seed_world) "2025-11-04"
           "09:15" 45 "Ann" "555-0100" "ann@example.org" true
           "Booked 2025-11-04 09:15-10:00." w' set_list_first_ok E).
Defined.

(** X17. A call of [book_appointment] by a session running alone leaves
    opening hours, services and the clock alone.  When it refuses it
    returns an error and the booking log is as before; when it succeeds it
    returns no error and no alternatives, and the log has grown at its end
    by exactly one record, which carries the date, start, end, service,
    duration and client the answer reports. *)
Theorem booking_is_logged (set_list : list string -> list string) (w : World)
    (date_str start_time : string) (service_name : option string)
    (client_name phone email : string) (r : BookResult) (w' : World) :
  book_appointment set_list w date_str start_time service_name client_name phone email
  = Ok (r, w') ->
  working w' = working w /\ services w' = services w /\ now w' = now w /\
  (success r = false -> bookings w' = bookings w /\ error r <> None) /\
  (success r = true ->
   error r = None /\ alternatives r = None /\
   exists d st en,
     b_date r = Some d /\ b_start_time r = Some st /\ b_end_time r = Some en /\
     b_service r = service_name /\
     b_duration_minutes r = Some (_get_service_minutes w service_name) /\
     b_client_name r = Some client_name /\
     bookings w'
     = (bookings w ++ [mkBookingRecord d st en service_name
                                       (_get_service_minutes w service_name)
                                       (client_name, phone, email) (now w)])%list).
Proof.
  intros Hb. unfold book_appointment in Hb. apply book_appointment_outcome in Hb.
  destruct Hb as [? ? ?|st av ? ? ? ? ?|st av ? ? ? ? ? ?|st av d fresh Hn Hav Hin Hd Hf Hw Hfr Hr
                 |st av d start_m Hn Hav Hc Hin Hd Hst Hfree dur end_time Hw Hr];
    subst; cbn [success error alternatives].
  1-4: repeat (split; [reflexivity|]); split; [|discriminate];
       intros _; split; [reflexivity | discriminate].
  cbn [working services now bookings _append_booking_record set_appointments
       b_date b_start_time b_end_time b_service b_duration_minutes b_client_name].
  repeat (split; [reflexivity|]). split; [discriminate|]. intros _.
  split; [reflexivity|]. split; [reflexivity|].
  exists d, st, end_time. repeat (split; [reflexivity|]). reflexivity.
Qed.

Lemma booking_is_logged_witness :
  exists r w',
    book_appointment set_list_first seed_world "tomorrow" "10:30" (Some "Skin Fade")
                     "Ann" "555-0100" "ann@example.org" = Ok (r, w') /\
    success r = true /\
    bookings w' = [mkBookingRecord "2025-11-04" "10:30" "11:15" (Some "Skin Fade") 45
                                   ("Ann", "555-0100", "ann@example.org")
                                   (mkDatetime 2025 11 3 9 30)] /\
    working w' = working seed_world /\ services w' = services seed_world /\
    now w' = now seed_world.
Proof.
  destruct (book_appointment set_list_first seed_world "tomorrow" "10:30" (Some "Skin Fade")
                             "Ann" "555-0100" "ann@example.org")
    as [[r w']|] eqn:E; [|vm_compute in E; discriminate].
  exists r, w'. split; [reflexivity|].
  assert (Hv : success r = true /\
               bookings w' = [mkBookingRecord "2025-11-04" "10:30" "11:15" (Some "Skin Fade")
                                              45 ("Ann", "555-0100", "ann@example.org")
                                              (mkDatetime 2025 11 3 9 30)]).
  { vm_compute in E. injection E as <- <-. split; reflexivity. }
  destruct Hv as [Hs Hlog]. split; [exact Hs|]. split; [exact Hlog|].
  destruct (booking_is_logged set_list_first seed_world "tomorrow" "10:30" (Some "Skin Fade")
              "Ann" "555-0100" "ann@example.org" r w' E) as (H1 & H2 & H3 & _).
  auto.
Defined.

(** X18. On a schedule with a positive slot interval, a booking that
    succeeds has parsed the date and normalised the start time; the booked
    interval, from the start for the duration of the service, lies inside
    one opening range of that date, overlaps no appointment the calendar
    held for it and, on the current day, ends after the present minute;
    afterwards the calendar holds the interval under that date, and the
    answer reports the date, the start and the end. *)
Theorem booked_interval_is_legal (set_list : list string -> list string) (w : World)
    (date_str start_time : string) (service_name : option string)
    (client_name phone email : string) (r : BookResult) (w' : World) :
  set_list_ok set_list ->
  0 < slot_interval_minutes (working w) ->
  book_appointment set_list w date_str start_time service_name client_name phone email
  = Ok (r, w') ->
  success r = true ->
  exists dt st t r0 rs re,
    parse_natural_date (or_today (booking_phrase date_str)) (now w) = Ok (Some dt) /\
    _normalize_time_to_hhmm start_time = Ok (Some st) /\ _time_to_minutes st = Ok t /\
    b_date r = Some (strftime_date dt) /\ b_start_time r = Some st /\
    b_end_time r = Some (_minutes_to_time (t + _get_service_minutes w service_name)) /\
    In r0 (default [] (applicable_ranges (working w) (strftime_date dt)
                                         (weekday_name (weekday dt)))) /\
    range_minutes r0 = Ok (rs, re) /\
    rs <= t /\ t + _get_service_minutes w service_name <= re /\
    (~ exists r' s' e',
         In r' (_get_taken_ranges_from_calendar w (strftime_date dt)) /\
         range_minutes r' = Ok (s', e') /\
         overlap t (t + _get_service_minutes w service_name) s' e') /\
    (strftime_date dt = strftime_date (now w) ->
     exists now_m, _time_to_minutes (strftime_hm (now w)) = Ok now_m /\
                   now_m < t + _get_service_minutes w service_name) /\
    In (st ++ "-" ++ _minutes_to_time (t + _get_service_minutes w service_name))
       (_get_taken_ranges_from_calendar w' (strftime_date dt)).
Proof.
  intros Hset Hstep Hb Hs. unfold book_appointment in Hb.
  apply book_appointment_outcome in Hb.
  destruct Hb as [? ? ?|st av ? ? ? ? ?|st av ? ? ? ? ? ?|st av d fresh ? ? ? ? ? ? ? ?
                 |st av d start_m Hn Hav Hc Hin Hd Hst Hfree dur end_time Hw Hr];
    subst; try discriminate.
  destruct (available_slot_facts _ _ _ _ _ _ _ Hstep Hav Hin)
    as (dt & t & r0 & rs & re & Hp & Hdate & Ht & _ & Hr0 & Er0 & Hlo & Hhi & Hno & _ & Hnow).
  rewrite Hd in Hdate. injection Hdate as ->.
  rewrite Hst in Ht. injection Ht as ->.
  exists dt, st, t, r0, rs, re.
  split; [exact Hp|]. split; [exact Hn|]. split; [exact Hst|].
  cbn [b_date b_start_time b_end_time].
  split; [reflexivity|]. split; [reflexivity|]. split; [reflexivity|].
  split; [exact Hr0|]. split; [exact Er0|]. split; [exact Hlo|]. split; [exact Hhi|].
  split; [exact Hno|]. split; [exact Hnow|].
  unfold _get_taken_ranges_from_calendar, _append_booking_record.
  cbn [appointments set_appointments]. rewrite lookup_insert_eq. cbn [default].
  apply (stored_after_In set_list Hset). now right.
Qed.

Lemma booked_interval_is_legal_witness :
  exists r w',
    set_list_ok set_list_first /\
    0 < slot_interval_minutes (working seed_world) /\
    book_appointment set_list_first seed_world "tomorrow" "10:30" (Some "Skin Fade")
                     "Ann" "555-0100" "ann@example.org" = Ok (r, w') /\
    success r = true /\
    exists dt st t r0 rs re,
      parse_natural_date (or_today (booking_phrase "tomorrow")) (now seed_world)
      = Ok (Some dt) /\
      _normalize_time_to_hhmm "10:30" = Ok (Some st) /\ _time_to_minutes st = Ok t /\
      b_date r = Some (strftime_date dt) /\ b_start_time r = Some st /\
      b_end_time r
      = Some (_minutes_to_time (t + _get_service_minutes seed_world (Some "Skin Fade"))) /\
      In r0 (default [] (applicable_ranges (working seed_world) (strftime_date dt)
                                           (weekday_name (weekday dt)))) /\
      range_minutes r0 = Ok (rs, re) /\
      rs <= t /\ t + _get_service_minutes seed_world (Some "Skin Fade") <= re /\
      (~ exists r' s' e',
           In r' (_get_taken_ranges_from_calendar seed_world (strftime_date dt)) /\
           range_minutes r' = Ok (s', e') /\
           overlap t (t + _get_service_minutes seed_world (Some "Skin Fade")) s' e') /\
      (strftime_date dt = strftime_date (now seed_world) ->
       exists now_m, _time_to_minutes (strftime_hm (now seed_world)) = Ok now_m /\
                     now_m < t + _get_service_minutes seed_world (Some "Skin Fade")) /\
      In (st ++ "-" ++ _minutes_to_time (t + _get_service_minutes seed_world
                                                (Some "Skin Fade")))
         (_get_taken_ranges_from_calendar w' (strftime_date dt)).
Proof.
  destruct (book_appointment set_list_first seed_world "tomorrow" "10:30" (Some "Skin Fade")
                             "Ann" "555-0100" "ann@example.org")
    as [[r w']|] eqn:E; [|vm_compute in E; discriminate].
  exists r, w'.
  assert (Hs : success r = true).
  { vm_compute in E. injection E as <- <-. reflexivity. }
  split; [exact set_list_first_ok|]. split; [reflexivity|]. split; [reflexivity|].
  split; [exact Hs|].
  apply (booked_interval_is_legal set_list_first seed_world "tomorrow" "10:30"
           (Some "Skin Fade") "Ann" "555-0100" "ann@example.org" r w'
           set_list_first_ok eq_refl E Hs).
Defined.

(** ** Business information and services *)

Lemma business_info_loop_spec data keys : forall found missing,
  (forall k v, found !! k = Some v -> data !! k = Some v /\ is_blank v = false) ->
  (forall k v, fst (get_business_info_loop data keys found missing) !! k = Some v <->
               found !! k = Some v \/
               (In k keys /\ data !! k = Some v /\ is_blank v = false)) /\
  snd (get_business_info_loop data keys found missing)
  = (missing ++ List.filter (unanswered data) keys)%list.
Proof.
  induction keys as [|a keys IH]; intros found missing Hf; cbn [get_business_info_loop].
  - cbn [fst snd In List.filter]. split; [intros; tauto | now rewrite app_nil_r].
  - assert (Hskip : unanswered data a = true ->
              (forall k v,
                  fst (get_business_info_loop data keys found (missing ++ [a])%list) !! k
                  = Some v <->
                  found !! k = Some v \/
                  (In k (a :: keys) /\ data !! k = Some v /\ is_blank v = false)) /\
              snd (get_business_info_loop data keys found (missing ++ [a])%list)
              = (missing ++ List.filter (unanswered data) (a :: keys))%list).
    { intros Hu. destruct (IH found (missing ++ [a])%list Hf) as [H1 H2]. split.
      - intros k v. rewrite H1. cbn [In]. split; [tauto|].
        intros [H|([<-|H] & Hd & Hb)]; [tauto | | tauto].
        unfold unanswered in Hu. rewrite Hd in Hu. congruence.
      - rewrite H2. cbn [List.filter]. rewrite Hu. now rewrite <- List.app_assoc. }
    destruct (data !! a) as [va|] eqn:Ea.
    + destruct (is_blank va) eqn:Eb; cbn [negb].
      * apply Hskip. unfold unanswered. now rewrite Ea.
      * destruct (IH (<[a := va]> found) missing) as [H1 H2].
        { intros k v. rewrite lookup_insert_Some. intros [[<- <-]|[_ H]]; auto. }
        split.
        -- intros k v. rewrite H1, lookup_insert_Some. cbn [In]. split.
           ++ intros [[[<- <-]|[Hne H]]|(Hin & Hd & Hb)]; auto; right; auto.
           ++ intros [H|([<-|Hin] & Hd & Hb)].
              ** destruct (decide (a = k)) as [<-|Hne]; [|left; right; auto].
                 left. left. split; [reflexivity|].
                 destruct (Hf _ _ H) as [Hd _]. congruence.
              ** left. left. split; congruence.
              ** right. auto.
        -- rewrite H2. cbn [List.filter].
           replace (unanswered data a) with false
             by (unfold unanswered; now rewrite Ea, Eb).
           reflexivity.
    + apply Hskip. unfold unanswered. now rewrite Ea.
Qed.

(** X19. [get_business_info] answers with exactly the requested keys that
    the business file holds with a value other than null, the empty string
    and the empty list, each with the value of the file; the other
    requested keys are listed as missing in the order and as often as they
    were asked; so every requested key is either answered or missing and
    never both. *)
Theorem business_info_partition (data : gmap string json) (keys : list string) :
  (forall k v, fst (get_business_info data keys) !! k = Some v <->
               In k keys /\ data !! k = Some v /\ is_blank v = false) /\
  snd (get_business_info data keys) = List.filter (unanswered data) keys /\
  (forall k, In k keys ->
             (is_Some (fst (get_business_info data keys) !! k) <->
              ~ In k (snd (get_business_info data keys)))).
Proof.
  unfold get_business_info.
  destruct (business_info_loop_spec data keys ∅ []) as [H1 H2].
  { intros k v. rewrite lookup_empty. discriminate. }
  assert (H1' : forall k v, fst (get_business_info_loop data keys ∅ []) !! k = Some v <->
                            In k keys /\ data !! k = Some v /\ is_blank v = false).
  { intros k v. rewrite H1, lookup_empty. split; [intros [H|H]; [discriminate | exact H]|].
    intros H. now right. }
  split; [exact H1'|]. split; [exact H2|].
  intros k Hk. rewrite H2. cbn [app]. rewrite filter_In. unfold is_Some. split.
  - intros [v Hv] [_ Hu]. apply H1' in Hv as (_ & Hd & Hb).
    unfold unanswered in Hu. rewrite Hd in Hu. congruence.
  - intros Hn. unfold unanswered in Hn. destruct (data !! k) as [v|] eqn:Ed.
    + destruct (is_blank v) eqn:Eb; [exfalso; apply Hn; auto|].
      exists v. apply H1'. auto.
    + exfalso. apply Hn. auto.
Qed.

Lemma filter_sublist {A : Type} (p : A -> bool) l : sublist (List.filter p l) l.
Proof.
  induction l as [|a l IH]; cbn [List.filter]; [constructor|].
  destruct (p a); [now apply sublist_skip | now apply sublist_cons].
Qed.

Lemma service_minutes_no_match svcs name :
  (forall s, In s svcs -> lower (svc_name s) <> lower (strip name)) ->
  _get_service_minutes_loop svcs name = 30.
Proof.
  induction svcs as [|s svcs IH]; intros H; cbn [_get_service_minutes_loop]; [reflexivity|].
  destruct (String.eqb_spec (lower (svc_name s)) (lower (strip name))) as [E|_].
  - exfalso. apply (H s); [now left | exact E].
  - apply IH. intros s' Hs'. apply H. now right.
Qed.

(** X20. Asked for a non-empty list of names, [get_services] returns, in
    the order of the services file, the services whose name equals a
    requested name up to case (and to blanks around the requested name),
    and lists as missing the requested names no returned service answers;
    a name it lists as missing is one for which [_get_service_minutes]
    falls back to 30 minutes. *)
Theorem services_found_or_missing (w : World) (names : list string) :
  names <> [] ->
  sublist (fst (get_services w (Some names))) (services w) /\
  (forall s, In s (fst (get_services w (Some names))) <->
             In s (services w) /\
             exists n, In n names /\ lower (svc_name s) = lower (strip n)) /\
  (forall n, In n names ->
             (In n (snd (get_services w (Some names))) <->
              ~ exists s, In s (fst (get_services w (Some names))) /\
                          lower (svc_name s) = lower (strip n))) /\
  (forall n, In n (snd (get_services w (Some names))) ->
             _get_service_minutes w (Some n) = 30).
Proof.
  intros Hne. destruct names as [|n0 ns]; [contradiction|]. clear Hne.
  cbn [get_services fst snd]. set (names := n0 :: ns).
  assert (Hfil : forall s,
             In s (List.filter (fun s => str_in (lower (svc_name s))
                                                (map (fun n => lower (strip n)) names))
                               (services w)) <->
             In s (services w) /\
             exists n, In n names /\ lower (svc_name s) = lower (strip n)).
  { intros s. rewrite filter_In, str_in_In, in_map_iff. split.
    - intros [Hs (n & Hn & Hin)]. split; [exact Hs|]. now exists n.
    - intros [Hs (n & Hin & Hn)]. split; [exact Hs|]. now exists n. }
  assert (Hmis : forall n,
             In n (List.filter
                     (fun n => negb (str_in (lower (strip n))
                                            (map (fun s => lower (svc_name s)) (services w))))
                     names) <->
             In n names /\
             forall s, In s (services w) -> lower (svc_name s) <> lower (strip n)).
  { intros n. rewrite filter_In, negb_true_iff. split.
    - intros [Hn Hno]. split; [exact Hn|]. intros s Hs E.
      apply not_true_iff_false in Hno. apply Hno. apply str_in_In, in_map_iff.
      now exists s.
    - intros [Hn Hno]. split; [exact Hn|]. apply not_true_iff_false. intros Hin.
      apply str_in_In, in_map_iff in Hin as (s & E & Hs). now apply (Hno s). }
  split; [apply filter_sublist|]. split; [exact Hfil|]. split.
  - intros n Hn. rewrite Hmis. split.
    + intros [_ Hno] (s & Hs & E). apply Hfil in Hs as [Hs _]. now apply (Hno s).
    + intros Hno. split; [exact Hn|]. intros s Hs E. apply Hno. exists s.
      split; [|exact E]. apply Hfil. split; [exact Hs|]. now exists n.
  - intros n Hn. apply Hmis in Hn as [_ Hno]. unfold _get_service_minutes.
    destruct n as [|c n]; [reflexivity|]. now apply service_minutes_no_match.
Qed.

Lemma services_found_or_missing_witness :
  ["beard trim "; "Perm"; "SKIN FADE"] <> [] /\
  get_services seed_world (Some ["beard trim "; "Perm"; "SKIN FADE"])
  = ([mkService "Skin Fade" (Some 45); mkService "Beard Trim" (Some 20)], ["Perm"]) /\
  (forall n, In n (snd (get_services seed_world (Some ["beard trim "; "Perm"; "SKIN FADE"]))) ->
             _get_service_minutes seed_world (Some n) = 30).
Proof.
  split; [discriminate|]. split; [reflexivity|].
  apply (services_found_or_missing seed_world ["beard trim "; "Perm"; "SKIN FADE"]).
  discriminate.
Defined.

(** ** The message history *)

(** X21. After a user message has been appended the history never holds
    more than [MAX_HISTORY] messages, whatever its length before; the
    message just appended is its last, its first message is the one that
    was first before, a history that was shorter than [MAX_HISTORY] is
    only extended, and otherwise what is dropped is one block of the
    oldest messages after the first. *)
Theorem history_is_bounded (messages : list Message) (user_text : string) :
  (List.length (append_user_message messages user_text) <= MAX_HISTORY)%nat /\
  last (append_user_message messages user_text) = Some (mkMessage "user" user_text) /\
  head (append_user_message messages user_text)
  = head (messages ++ [mkMessage "user" user_text])%list /\
  ((List.length messages < MAX_HISTORY)%nat ->
   append_user_message messages user_text = (messages ++ [mkMessage "user" user_text])%list) /\
  exists dropped,
    (messages ++ [mkMessage "user" user_text])%list
    = (firstn 1 (append_user_message messages user_text) ++ dropped ++
       skipn 1 (append_user_message messages user_text))%list.
Proof.
  unfold append_user_message, MAX_HISTORY, last_n.
  set (m := mkMessage "user" user_text). set (l := (messages ++ [m])%list).
  assert (Hlen : List.length l = S (List.length messages)).
  { unfold l. rewrite List.length_app. cbn. lia. }
  assert (Hlast : last l = Some m) by (unfold l; apply last_snoc).
  destruct (Nat.ltb_spec 30 (List.length l)) as [Hlong|Hshort].
  - destruct l as [|m0 rest] eqn:El; [cbn in Hlong; lia|].
    cbn [List.length] in Hlong, Hlen.
    replace (List.length (m0 :: rest) - (30 - 1))%nat
      with (S (List.length rest - 29)) by (cbn [List.length]; lia).
    cbn [firstn skipn app]. rewrite !firstn_O, !skipn_O. cbn [app].
    assert (Hsk : List.length (skipn (List.length rest - 29) rest) = 29%nat).
    { rewrite List.length_skipn. lia. }
    split; [cbn [List.length]; lia|]. split.
    + rewrite <- (firstn_skipn (List.length rest - 29) rest) in Hlast.
      change (m0 :: (firstn (List.length rest - 29) rest
                     ++ skipn (List.length rest - 29) rest))%list
        with ((m0 :: firstn (List.length rest - 29) rest)
              ++ skipn (List.length rest - 29) rest)%list in Hlast.
      destruct (skipn (List.length rest - 29) rest) as [|x xs] eqn:Es;
        [cbn in Hsk; lia|].
      rewrite last_app_cons in Hlast. rewrite last_cons_cons. exact Hlast.
    + split; [reflexivity|]. split; [intros; lia|].
      exists (firstn (List.length rest - 29) rest).
      now rewrite firstn_skipn.
  - split; [lia|]. split; [exact Hlast|]. split; [reflexivity|]. split; [reflexivity|].
    exists []. cbn [app]. now rewrite firstn_skipn.
Qed.

(** ** Conversation state *)

Lemma initial_dialogue_slots : seven_slots initial_dialogue.
Proof.
  intros k. split.
  - intros Hs. destruct (decide (k ∈ allowed)) as [Hin|Hout];
      [now apply list_elem_of_In|].
    exfalso. assert (Hnone : initial_dialogue !! k = None).
    { unfold initial_dialogue. apply not_elem_of_list_to_map_1. exact Hout. }
    rewrite Hnone in Hs. destruct Hs as [v Hv]. discriminate.
  - intros Hin. unfold allowed in Hin. cbn [In] in Hin.
    repeat (destruct Hin as [<-|Hin]; [eexists; vm_compute; reflexivity|]).
    destruct Hin.
Qed.

Lemma fold_allowed_lookup (d0 : gmap string json) (m : gmap string json) k :
  map_fold (fun k v (d : gmap string json) => if str_in k allowed then <[k := v]> d else d) d0 m !! k
  = if str_in k allowed
    then match m !! k with Some v => Some v | None => d0 !! k end
    else d0 !! k.
Proof.
  apply (map_fold_weak_ind
           (fun (r : gmap string json) (m : gmap string json) =>
              r !! k = if str_in k allowed
                       then match m !! k with Some v => Some v | None => d0 !! k end
                       else d0 !! k)).
  - rewrite lookup_empty. now destruct (str_in k allowed).
  - intros i x m' r Hi IH. destruct (decide (i = k)) as [->|Hne].
    + rewrite lookup_insert_eq. destruct (str_in k allowed) eqn:Ek.
      * now rewrite lookup_insert_eq.
      * exact IH.
    + rewrite (lookup_insert_ne m') by assumption.
      destruct (str_in i allowed); [rewrite lookup_insert_ne by assumption|]; exact IH.
Qed.

Lemma update_lookup_other py_str now_ session kwargs k :
  k <> "date" ->
  update_conversation_state py_str now_ session kwargs !! k
  = if str_in k allowed
    then match kwargs !! k with
         | Some v => Some v
         | None => _ensure_dialogue_container session !! k
         end
    else _ensure_dialogue_container session !! k.
Proof.
  intros Hk. unfold update_conversation_state.
  set (d := _ensure_dialogue_container session).
  destruct (kwargs !! "date") as [v|] eqn:Ev; [destruct (truthy v)|];
    [|now rewrite fold_allowed_lookup..].
  unfold normalize_and_store_date. cbn [_ensure_dialogue_container default].
  destruct (parse_natural_date _ now_) as [[dt|]|]; cbn [bind];
    rewrite fold_allowed_lookup;
    rewrite ?lookup_delete_ne, ?lookup_insert_ne by congruence; reflexivity.
Qed.

Lemma update_lookup_date py_str now_ session kwargs :
  update_conversation_state py_str now_ session kwargs !! "date"
  = match kwargs !! "date" with
    | None => _ensure_dialogue_container session !! "date"
    | Some v =>
        Some (if truthy v
              then match parse_natural_date (fst (extract_daypart (py_str v))) now_ with
                   | Ok (Some dt) => JStr (strftime_date dt)
                   | Ok None => JStr (fst (extract_daypart (py_str v)))
                   | Fail _ => v
                   end
              else v)
    end.
Proof.
  unfold update_conversation_state.
  set (d := _ensure_dialogue_container session).
  assert (Ha : str_in "date" allowed = true) by reflexivity.
  destruct (kwargs !! "date") as [v|] eqn:Ev; [destruct (truthy v)|].
  - unfold normalize_and_store_date. cbn [_ensure_dialogue_container default].
    destruct (parse_natural_date _ now_) as [[dt|]|]; cbn [bind];
      rewrite fold_allowed_lookup, Ha.
    + now rewrite lookup_delete_eq, lookup_insert_eq.
    + now rewrite lookup_delete_eq, lookup_insert_eq.
    + now rewrite Ev.
  - now rewrite fold_allowed_lookup, Ha, Ev.
  - now rewrite fold_allowed_lookup, Ha, Ev.
Qed.

(** X22. A dialogue that has its seven slots (service, date, time, name,
    phone, email, confirmed) and no other, as a fresh session has, still
    has exactly these after [update_conversation_state], whatever
    arguments it is called with, and after [normalize_and_store_date]. *)
Theorem dialogue_keeps_seven_slots (py_str : json -> string) (now_ : datetime)
    (session : option (gmap string json)) (kwargs : gmap string json) :
  seven_slots (_ensure_dialogue_container session) ->
  seven_slots (update_conversation_state py_str now_ session kwargs) /\
  (forall phrase r d,
      normalize_and_store_date now_ session phrase = Ok (r, d) -> seven_slots d).
Proof.
  intros Hd. split.
  - intros k. destruct (String.eqb_spec k "date") as [->|Hk].
    + rewrite update_lookup_date. destruct (kwargs !! "date") as [v|]; [|apply Hd].
      split; [intros _; cbn; tauto | intros _; eauto].
    + rewrite (update_lookup_other _ _ _ _ _ Hk).
      destruct (str_in k allowed) eqn:Ek; [|apply Hd].
      destruct (kwargs !! k) as [v|]; [|apply Hd].
      apply str_in_In in Ek. split; [intros _; exact Ek | intros _; eauto].
  - intros phrase r d. unfold normalize_and_store_date.
    destruct (parse_natural_date _ now_) as [[dt|]|]; cbn [bind]; [| |discriminate].
    all: intros [= <- <-] k; destruct (String.eqb_spec k "date") as [->|Hk];
      [rewrite lookup_insert_eq; split; [intros _; cbn; tauto | intros _; eauto]
      |rewrite lookup_insert_ne by congruence; apply Hd].
Qed.

Lemma dialogue_keeps_seven_slots_witness :
  seven_slots (_ensure_dialogue_container None) /\
  seven_slots (update_conversation_state str_of_scalar (mkDatetime 2025 11 3 9 30) None
                 {["date" := JStr "next friday afternoon"]}).
Proof.
  split; [exact initial_dialogue_slots|].
  apply (dialogue_keeps_seven_slots str_of_scalar (mkDatetime 2025 11 3 9 30) None
           {["date" := JStr "next friday afternoon"]} initial_dialogue_slots).
Defined.

(** X23. Apart from the date, [update_conversation_state] writes a slot
    exactly when the argument is one of the seven allowed names, and then
    with the value passed, null included; every other argument is ignored
    and every slot not passed keeps its value. *)
Theorem update_writes_allowed_slots (py_str : json -> string) (now_ : datetime)
    (session : option (gmap string json)) (kwargs : gmap string json) (k : string) :
  k <> "date" ->
  (forall v, In k allowed -> kwargs !! k = Some v ->
             update_conversation_state py_str now_ session kwargs !! k = Some v) /\
  (~ In k allowed \/ kwargs !! k = None ->
   update_conversation_state py_str now_ session kwargs !! k
   = get_conversation_state session !! k).
Proof.
  intros Hk. rewrite (update_lookup_other _ _ _ _ _ Hk). unfold get_conversation_state. split.
  - intros v Ha Hv. apply str_in_In in Ha. now rewrite Ha, Hv.
  - intros [Hn|Hn].
    + destruct (str_in k allowed) eqn:Ek; [|reflexivity].
      apply str_in_In in Ek. contradiction.
    + rewrite Hn. now destruct (str_in k allowed).
Qed.

Lemma update_writes_allowed_slots_witness :
  "name" <> "date" /\
  update_conversation_state str_of_scalar (mkDatetime 2025 11 3 9 30) None
    {["name" := JStr "Ann"; "role" := JStr "admin"]} !! "name" = Some (JStr "Ann") /\
  update_conversation_state str_of_scalar (mkDatetime 2025 11 3 9 30) None
    {["name" := JStr "Ann"; "role" := JStr "admin"]} !! "role" = None.
Proof.
  split; [discriminate|]. split.
  - apply (update_writes_allowed_slots str_of_scalar (mkDatetime 2025 11 3 9 30) None
             {["name" := JStr "Ann"; "role" := JStr "admin"]} "name"); try discriminate.
    + vm_compute. tauto.
    + reflexivity.
  - reflexivity.
Defined.

(** X24. The date slot after [update_conversation_state]: unchanged when
    no date is passed; the value passed, as it is, when that value is
    falsy or when parsing it raises; otherwise the ISO date the phrase
    parses to or, when it does not parse, the phrase in lower case without
    its daypart word. *)
Theorem update_date_slot (py_str : json -> string) (now_ : datetime)
    (session : option (gmap string json)) (kwargs : gmap string json) :
  update_conversation_state py_str now_ session kwargs !! "date"
  = match kwargs !! "date" with
    | None => get_conversation_state session !! "date"
    | Some v =>
        Some (if truthy v
              then match parse_natural_date (fst (extract_daypart (py_str v))) now_ with
                   | Ok (Some dt) => JStr (strftime_date dt)
                   | Ok None => JStr (fst (extract_daypart (py_str v)))
                   | Fail _ => v
                   end
              else v)
    end.
Proof. apply update_lookup_date. Qed.

Lemma iso_is_plain dt :
  valid_datetime dt = true -> str_forallb plain_char (strftime_date dt) = true.
Proof.
  intros Hv. apply valid_datetime_fields in Hv as (Hy & Hm & Hd & Hd31 & _).
  unfold strftime_date.
  destruct (dec_spec (year dt)) as (HY & _ & _); [lia|].
  destruct (fmt02d_spec (month dt)) as [HM _]; [lia|].
  destruct (fmt02d_spec (day dt)) as [HD _]; [lia|].
  apply isdecimal_digits in HM as [_ HM]. apply isdecimal_digits in HD as [_ HD].
  change (dec (year dt) ++ "-" ++ fmt02d (month dt) ++ "-" ++ fmt02d (day dt))
    with (dec (year dt) ++ String "-" (fmt02d (month dt) ++ String "-" (fmt02d (day dt)))).
  rewrite str_forallb_app. cbn [str_forallb]. rewrite str_forallb_app. cbn [str_forallb].
  now rewrite (digits_plain _ HY), (digits_plain _ HM), (digits_plain _ HD).
Qed.

Lemma iso_has_no_char dt c :
  valid_datetime dt = true -> isdecimal_char c = false -> Ascii.eqb "-" c = false ->
  has_char c (strftime_date dt) = false.
Proof.
  intros Hv Hc Hdash. apply valid_datetime_fields in Hv as (Hy & Hm & Hd & Hd31 & _).
  unfold strftime_date.
  destruct (dec_spec (year dt)) as (HY & _ & _); [lia|].
  destruct (fmt02d_spec (month dt)) as [HM _]; [lia|].
  destruct (fmt02d_spec (day dt)) as [HD _]; [lia|].
  apply isdecimal_digits in HM as [_ HM]. apply isdecimal_digits in HD as [_ HD].
  assert (Hno : forall s, digits s = true -> has_char c s = false).
  { intros s. apply digits_no_char. intros d Hdig. destruct (Ascii.eqb_spec d c); [|reflexivity].
    subst. congruence. }
  change (dec (year dt) ++ "-" ++ fmt02d (month dt) ++ "-" ++ fmt02d (day dt))
    with (dec (year dt) ++ String "-" (fmt02d (month dt) ++ String "-" (fmt02d (day dt)))).
  rewrite has_char_app, (Hno _ HY). unfold has_char at 1. cbn [str_existsb orb].
  fold (has_char c (fmt02d (month dt) ++ String "-" (fmt02d (day dt)))).
  rewrite Hdash, has_char_app, (Hno _ HM). unfold has_char at 1. cbn [str_existsb orb].
  fold (has_char c (fmt02d (day dt))). now rewrite Hdash, (Hno _ HD).
Qed.

Lemma contains_head_absent c k s :
  has_char c s = false -> contains (String c k) s = false.
Proof.
  induction s as [|x s IH]; [reflexivity|]. unfold has_char. cbn [str_existsb].
  intros H. apply orb_false_iff in H as [Hx Hs]. cbn [contains startswith].
  rewrite Ascii.eqb_sym, Hx. cbn [andb orb]. now apply IH.
Qed.

Lemma extract_daypart_iso dt :
  valid_datetime dt = true -> extract_daypart (strftime_date dt) = (strftime_date dt, None).
Proof.
  intros Hv. unfold extract_daypart. rewrite (lower_strip_plain _ (iso_is_plain dt Hv)).
  unfold DAYPARTS. cbn [extract_daypart_loop].
  rewrite !contains_head_absent by (apply iso_has_no_char; [exact Hv | reflexivity..]).
  reflexivity.
Qed.

Lemma dec_length_table :
  forallb (fun k => let n := Z.of_nat k in
                    if n <? 1000 then (String.length (dec n) <=? 3)%nat
                    else (String.length (dec n) =? 4)%nat)
          (seq 0 (Z.to_nat 10000)) = true.
Proof. vm_compute. reflexivity. Qed.

(** A printed date of ten characters is of the year 1000 or later. *)
Lemma strftime_ten dt :
  valid_datetime dt = true -> String.length (strftime_date dt) = 10%nat -> 1000 <= year dt.
Proof.
  intros Hv HL. apply valid_datetime_fields in Hv as (Hy & Hm & Hd & Hd31 & _).
  destruct (fmt_lengths (month dt)) as [_ LM]; [lia|]. specialize (LM ltac:(lia)).
  destruct (fmt_lengths (day dt)) as [_ LD]; [lia|]. specialize (LD ltac:(lia)).
  unfold strftime_date in HL.
  change (dec (year dt) ++ "-" ++ fmt02d (month dt) ++ "-" ++ fmt02d (day dt))
    with (dec (year dt) ++ String "-" (fmt02d (month dt) ++ String "-" (fmt02d (day dt))))
    in HL.
  rewrite length_app_str in HL. cbn [String.length] in HL.
  rewrite length_app_str in HL. cbn [String.length] in HL.
  pose proof dec_length_table as T. rewrite forallb_forall in T.
  assert (Hin : In (Z.to_nat (year dt)) (seq 0 (Z.to_nat 10000))) by (apply in_seq; lia).
  specialize (T _ Hin). cbv zeta in T. rewrite Z2Nat.id in T by lia.
  destruct (Z.ltb_spec (year dt) 1000) as [Hlt|Hge]; [|exact Hge].
  apply Nat.leb_le in T. lia.
Qed.

(** X25. Normalising is idempotent on what it has normalised to the ISO
    form: when [normalize_and_store_date] has turned a phrase into a date
    of ten characters, YYYY-MM-DD of the year 1000 or later, a second call
    on the date it returned gives the same answer and leaves the dialogue,
    whose date slot holds that date, as it is.  A date before the year
    1000 is returned with a shorter year, which the second call does not
    read as a date: 0999-01-01 comes back as 999-01-01, and that as not
    normalised. *)
Theorem normalize_date_idempotent (now_ : datetime) (session : option (gmap string json))
    (phrase : string) (r : NormalizeResult) (d : gmap string json) :
  valid_datetime now_ = true ->
  normalize_and_store_date now_ session phrase = Ok (r, d) ->
  n_normalized r = None ->
  String.length (n_date r) = 10%nat ->
  normalize_and_store_date now_ (Some d) (n_date r) = Ok (r, d) /\
  d !! "date" = Some (JStr (n_date r)) /\
  exists r1 d1 r2 d2,
    normalize_and_store_date now_ session "0999-01-01" = Ok (r1, d1) /\
    n_date r1 = "999-01-01" /\ n_normalized r1 = None /\
    normalize_and_store_date now_ (Some d1) (n_date r1) = Ok (r2, d2) /\
    n_date r2 = "999-01-01" /\ n_normalized r2 = Some false.
Proof.
  intros Hnow. unfold normalize_and_store_date at 1.
  destruct (parse_natural_date _ now_) as [[dt|]|] eqn:Ep; cbn [bind]; [| |discriminate].
  2: { intros [= <- <-]. discriminate. }
  intros [= <- <-] _. cbn [n_date]. intros HL.
  destruct (parsed_date_valid _ _ _ Hnow Ep) as (Hv & Hh & Hm).
  pose proof (strftime_ten dt Hv HL) as Hy.
  split; [|split; [apply lookup_insert_eq|]].
  - unfold normalize_and_store_date. rewrite (extract_daypart_iso dt Hv). cbn [fst].
    rewrite (parse_iso_date dt now_ Hv Hy). cbn [bind].
    assert (E : strftime_date (at_midnight dt) = strftime_date dt) by reflexivity.
    rewrite E. cbn [_ensure_dialogue_container default id]. now rewrite insert_insert_eq.
  - exists (mkNormalize true "999-01-01" None),
           (<["date" := JStr "999-01-01"]> (_ensure_dialogue_container session)),
           (mkNormalize true "999-01-01" (Some false)),
           (<["date" := JStr "999-01-01"]>
              (<["date" := JStr "999-01-01"]> (_ensure_dialogue_container session))).
    assert (E1 : fst (extract_daypart "0999-01-01") = "0999-01-01") by reflexivity.
    assert (P1 : parse_natural_date "0999-01-01" now_
                 = Ok (Some (mkDatetime 999 1 1 0 0))) by reflexivity.
    assert (S1 : strftime_date (mkDatetime 999 1 1 0 0) = "999-01-01") by reflexivity.
    assert (E2 : fst (extract_daypart "999-01-01") = "999-01-01") by reflexivity.
    assert (P2 : parse_natural_date "999-01-01" now_ = Ok None) by reflexivity.
    split; [unfold normalize_and_store_date; rewrite E1, P1; cbn [bind]; now rewrite S1|].
    split; [reflexivity|]. split; [reflexivity|]. cbn [n_date].
    split; [unfold normalize_and_store_date; rewrite E2, P2; reflexivity|].
    split; reflexivity.
Qed.

Lemma normalize_date_idempotent_witness :
  exists r d,
    valid_datetime (mkDatetime 2025 11 3 9 30) = true /\
    normalize_and_store_date (mkDatetime 2025 11 3 9 30) None "Friday evening" = Ok (r, d) /\
    n_normalized r = None /\ n_date r = "2025-11-07" /\
    String.length (n_date r) = 10%nat /\
    normalize_and_store_date (mkDatetime 2025 11 3 9 30) (Some d) (n_date r) = Ok (r, d) /\
    d !! "date" = Some (JStr (n_date r)).
Proof.
  destruct (normalize_and_store_date (mkDatetime 2025 11 3 9 30) None "Friday evening")
    as [[r d]|] eqn:E; [|vm_compute in E; discriminate].
  exists r, d. split; [reflexivity|]. split; [reflexivity|].
  assert (Hr : n_normalized r = None /\ n_date r = "2025-11-07").
  { vm_compute in E. injection E as <- <-. split; reflexivity. }
  destruct Hr as [Hn Hd]. split; [exact Hn|]. split; [exact Hd|].
  assert (HL : String.length (n_date r) = 10%nat) by (rewrite Hd; reflexivity).
  split; [exact HL|].
  destruct (normalize_date_idempotent (mkDatetime 2025 11 3 9 30) None "Friday evening" r d
              eq_refl E Hn HL) as (H1 & H2 & _).
  split; assumption.
Defined.

(** ** Calls that always return *)

Lemma plus_days_fault n : forall dt e, plus_days dt n = Fail e -> e = OverflowError.
Proof.
  induction n as [|n IH]; intros dt e; cbn [plus_days]; [discriminate|].
  destruct (next_day dt) as [d1|e1] eqn:E1; cbn [bind]; [apply IH|].
  intros [= <-]. unfold next_day in E1.
  destruct (_ <? _); [discriminate|]. destruct (_ <? _); [discriminate|].
  destruct (_ <? _); [discriminate|]. now injection E1.
Qed.

Lemma parse_fault phrase anchor e :
  parse_natural_date phrase anchor = Fail e -> e = OverflowError.
Proof.
  unfold parse_natural_date. set (s := lower (strip phrase)).
  destruct (String.eqb s ""); [discriminate|].
  destruct (try_except (parse_iso s anchor) None); [discriminate|].
  destruct (try_except (parse_slash s anchor) None); [discriminate|].
  destruct (str_in s ["today"; "todays"; "to day"]); [discriminate|].
  assert (Hplus : forall n,
             (do r <- plus_days anchor n; Ok (Some (at_midnight r))) = Fail e ->
             e = OverflowError).
  { intros n. destruct (plus_days anchor n) as [r|e'] eqn:E; cbn [bind]; [discriminate|].
    intros [= <-]. exact (plus_days_fault _ _ _ E). }
  destruct (str_in s ["tomorrow"; "tmrw"; "tmr"]); [apply Hplus|].
  destruct (match split_ws s with [tok] => _weekday_index tok | _ => None end);
    [apply Hplus|].
  destruct (match split_ws s with
            | [t0; t1] => if String.eqb t0 "next" then _weekday_index t1 else None
            | _ => None
            end); [apply Hplus | discriminate].
Qed.

Lemma parse_total phrase anchor :
  valid_datetime anchor = true -> toordinal anchor + 7 <= MAXORDINAL ->
  exists o, parse_natural_date phrase anchor = Ok o.
Proof.
  intros Hv Hord. unfold parse_natural_date. set (s := lower (strip phrase)).
  destruct (String.eqb s ""); [eauto|].
  destruct (try_except (parse_iso s anchor) None); [eauto|].
  destruct (try_except (parse_slash s anchor) None); [eauto|].
  destruct (str_in s ["today"; "todays"; "to day"]); [eauto|].
  assert (Hplus : forall n, (n <= 7)%nat ->
             exists o, (do r <- plus_days anchor n; Ok (Some (at_midnight r))) = Ok o).
  { intros n Hn. destruct (plus_days_spec n anchor Hv) as (r & -> & _); [lia|].
    cbn [bind]. eauto. }
  destruct (str_in s ["tomorrow"; "tmrw"; "tmr"]); [apply Hplus; lia|].
  destruct (match split_ws s with [tok] => _weekday_index tok | _ => None end) as [i|].
  { apply Hplus. pose proof (Z.mod_pos_bound (i - weekday anchor) 7). lia. }
  destruct (match split_ws s with
            | [t0; t1] => if String.eqb t0 "next" then _weekday_index t1 else None
            | _ => None
            end) as [i|]; [|eauto].
  apply Hplus. cbv zeta. pose proof (Z.mod_pos_bound (i - weekday anchor) 7).
  destruct (_ =? 0); lia.
Qed.

(** X26. [parse_natural_date] can raise nothing but the overflow of a date
    beyond the year 9999, and not even that when the anchor is a date of
    the calendar at least seven days before 9999-12-31: it then returns a
    date or [None] for every phrase. *)
Theorem parse_natural_date_returns (phrase : string) (anchor : datetime) :
  (forall e, parse_natural_date phrase anchor = Fail e -> e = OverflowError) /\
  (valid_datetime anchor = true -> toordinal anchor + 7 <= MAXORDINAL ->
   exists o, parse_natural_date phrase anchor = Ok o).
Proof.
  split; [intros e; apply parse_fault | apply parse_total].
Qed.

Lemma range_slots_parse step service ranges s :
  0 < step ->
  In s (concat (map (range_slots step service) ranges)) ->
  exists t, _time_to_minutes s = Ok t.
Proof.
  intros Hstep Hin. apply in_concat in Hin as (l & Hl & Hsl).
  apply in_map_iff in Hl as (r & <- & Hrin). unfold range_slots in Hsl.
  destruct (range_minutes r) as [[rs re]|] eqn:Er; [|destruct Hsl].
  apply in_map_iff in Hsl as (t0 & <- & Ht0).
  apply candidates_In in Ht0 as (k & Hk & -> & Hfit); [|assumption].
  destruct (range_minutes_nonneg _ _ _ Er) as [Hrs _].
  assert (0 <= k * step) by (apply Z.mul_nonneg_nonneg; lia).
  exists (rs + k * step). apply time_roundtrip. lia.
Qed.

Lemma daypart_window_parses s d0 d1 :
  snd (extract_daypart s) = Some (d0, d1) ->
  exists a b, _time_to_minutes d0 = Ok a /\ _time_to_minutes d1 = Ok b.
Proof.
  unfold extract_daypart, DAYPARTS. cbn [extract_daypart_loop].
  repeat (destruct (contains _ _);
          [cbn [snd]; intros [= <- <-]; eexists; eexists; split; reflexivity|]).
  discriminate.
Qed.

Lemma check_availability_total w phrase svc limit dp :
  valid_datetime (now w) = true -> toordinal (now w) + 7 <= MAXORDINAL ->
  0 < slot_interval_minutes (working w) ->
  (forall d0 d1, dp = Some (d0, d1) ->
                 exists a b, _time_to_minutes d0 = Ok a /\ _time_to_minutes d1 = Ok b) ->
  exists av, check_availability w phrase svc limit dp = Ok av.
Proof.
  intros Hv Hord Hstep Hdp.
  destruct (parse_total (phrase_parsed phrase) (now w) Hv Hord) as [[dt|] Hp].
  2: { eexists. apply check_availability_unparsed. exact Hp. }
  destruct (decide (default [] (applicable_ranges (working w) (strftime_date dt)
                                                  (weekday_name (weekday dt))) = []))
    as [Hr|Hr].
  { eexists. apply (check_availability_closed _ _ _ _ _ dt Hp Hr). }
  rewrite (check_availability_open w phrase svc limit dp dt Hp Hr). cbv zeta.
  set (dur := _get_service_minutes w svc).
  set (date_str := strftime_date dt).
  rewrite expand_spec by assumption. cbn [bind].
  destruct (subtract_ok
              (concat (map (range_slots (slot_interval_minutes (working w)) dur)
                           (default [] (applicable_ranges (working w) date_str
                                                          (weekday_name (weekday dt))))))
              (_get_taken_ranges_from_calendar w date_str) dur) as [free Hfree].
  { intros s Hs. eapply range_slots_parse; eauto. }
  rewrite Hfree. cbn [bind].
  assert (Hparse : forall s, In s free -> exists t, _time_to_minutes s = Ok t).
  { intros s Hs. apply (subtract_In _ _ _ _ Hfree) in Hs as (_ & t & Ht & _). eauto. }
  assert (Hf1 : exists f1, daypart_filter (daypart_used phrase dp) dur free = Ok f1 /\
                           incl f1 free).
  { unfold daypart_filter. destruct (daypart_used phrase dp) as [[d0 d1]|] eqn:Edp.
    2: { eexists. split; [reflexivity | apply incl_refl]. }
    assert (Hw : exists a b, _time_to_minutes d0 = Ok a /\ _time_to_minutes d1 = Ok b).
    { unfold daypart_used in Edp.
      destruct (snd (extract_daypart (default "" phrase))) as [e|] eqn:Ee;
        destruct dp as [p|]; try discriminate.
      - injection Edp as ->. now apply Hdp.
      - injection Edp as ->. eapply daypart_window_parses; eauto.
      - injection Edp as ->. now apply Hdp. }
    destruct Hw as (a & b & -> & ->). cbn [bind].
    destruct (filter_res_ok
                (fun s => do t <- _time_to_minutes s;
                          Ok ((t >=? a) && (t + dur <=? b))) free) as [f1 Hf1].
    { intros s Hs. destruct (Hparse s Hs) as [t ->]. cbn [bind]. eauto. }
    exists f1. split; [exact Hf1|]. intros x Hx.
    now apply (filter_res_In _ _ _ Hf1) in Hx. }
  destruct Hf1 as (f1 & -> & Hincl). cbn [bind].
  assert (Hf2 : exists f2, today_filter w date_str dur f1 = Ok f2).
  { unfold today_filter. destruct (String.eqb date_str (strftime_date (now w))); [|eauto].
    apply valid_datetime_fields in Hv as (_ & _ & _ & _ & Hh & Hmi).
    unfold strftime_hm. rewrite time_to_minutes_fmt by lia. cbn [bind].
    apply filter_res_ok. intros s Hs. destruct (Hparse s (Hincl s Hs)) as [t ->].
    cbn [bind]. eauto. }
  destruct Hf2 as [f2 ->]. cbn [bind]. eauto.
Qed.

(** X27. On a schedule with a positive slot interval, with the clock at a
    date of the calendar at least seven days before 9999-12-31 and with a
    daypart window, when one is passed, made of two readable times,
    [check_availability] returns an answer for every date phrase, service
    name and limit: it does not raise and its loops end. *)
Theorem check_availability_returns (w : World) (phrase svc : option string) (limit : Z)
    (dp : option (string * string)) :
  valid_datetime (now w) = true -> toordinal (now w) + 7 <= MAXORDINAL ->
  0 < slot_interval_minutes (working w) ->
  (forall d0 d1, dp = Some (d0, d1) ->
                 exists a b, _time_to_minutes d0 = Ok a /\ _time_to_minutes d1 = Ok b) ->
  exists av, check_availability w phrase svc limit dp = Ok av.
Proof. apply check_availability_total. Qed.

Lemma check_availability_returns_witness :
  valid_datetime (now seed_world) = true /\
  toordinal (now seed_world) + 7 <= MAXORDINAL /\
  0 < slot_interval_minutes (working seed_world) /\
  exists av, check_availability seed_world (Some "whenever") (Some "Perm") (-3)
                                (Some ("12:00", "16:59")) = Ok av.
Proof.
  split; [reflexivity|]. split; [vm_compute; discriminate|]. split; [reflexivity|].
  apply (check_availability_returns seed_world (Some "whenever") (Some "Perm") (-3)
           (Some ("12:00", "16:59"))).
  - reflexivity.
  - vm_compute. discriminate.
  - reflexivity.
  - intros d0 d1 [= <- <-]. exists 720, 1019. split; reflexivity.
Defined.

(** X28. Under the same conditions on the schedule and the clock, and for
    a start time, no longer than the interpreter converts to an integer,
    on which [_normalize_time_to_hhmm] does not raise (it raises on a
    digit string that is not of decimal digits),
    [book_appointment], called by a session running alone, returns an
    answer for every date, service and client: a confirmation or one of
    its refusals, no other exception. *)
Theorem book_appointment_returns (set_list : list string -> list string) (w : World)
    (date_str start_time : string) (service_name : option string)
    (client_name phone email : string) (o : option string) :
  valid_datetime (now w) = true -> toordinal (now w) + 7 <= MAXORDINAL ->
  0 < slot_interval_minutes (working w) ->
  (String.length start_time <= MAX_STR_DIGITS)%nat ->
  _normalize_time_to_hhmm start_time = Ok o ->
  exists r w',
    book_appointment set_list w date_str start_time service_name client_name phone email
    = Ok (r, w').
Proof.
  intros Hv Hord Hstep _ Hnorm. unfold book_appointment, book_appointment_with.
  fold (date_passed date_str).
  rewrite Hnorm. destruct o as [st|]; cbn [bind]; [|eauto].
  destruct (check_availability_total w (Some (date_passed date_str)) service_name 10000 None
              Hv Hord Hstep) as [av Hav]; [discriminate|].
  rewrite Hav. cbn [bind].
  destruct (default false (av_closed av)); [eauto|].
  destruct (str_in st (av_available av)) eqn:Ein; cbn [negb]; [|eauto].
  assert (Hd : exists d, av_date av = Some d).
  { apply check_availability_inv in Hav as [[_ ->] | (dt & _ & H)]; [discriminate|].
    cbv zeta in H. destruct H as [[_ ->] | (_ & ? & ? & ? & ? & _ & _ & _ & _ & ->)];
      [discriminate|]. cbn. eauto. }
  destruct Hd as [d ->]. cbn [of_option bind]. cbv beta.
  destruct (append_appointment_cases set_list w d st
              (_get_service_minutes w service_name) client_name phone email)
    as [[Hf Hw]|(sm & Hst & Hc & Ht & Hw)];
    destruct (_append_appointment set_list w d st (_get_service_minutes w service_name)
                                  client_name phone email) as [[ok msg] w1];
    cbn [fst snd] in *; subst; cbn [negb].
  - destruct (check_availability_total w (Some d) service_name 8 None Hv Hord Hstep)
      as [fresh ->]; [discriminate|]. cbn [bind]. eauto.
  - rewrite Hst. cbn [bind]. eauto.
Qed.

Lemma book_appointment_returns_witness :
  valid_datetime (now seed_world) = true /\
  toordinal (now seed_world) + 7 <= MAXORDINAL /\
  0 < slot_interval_minutes (working seed_world) /\
  (String.length "10.30 am" <= MAX_STR_DIGITS)%nat /\
  _normalize_time_to_hhmm "10.30 am" = Ok (Some "10:30") /\
  exists r w',
    book_appointment set_list_first seed_world "tomorrow" "10.30 am" (Some "Skin Fade")
                     "Ann" "555-0100" "ann@example.org" = Ok (r, w').
Proof.
  assert (Hlen : (String.length "10.30 am" <= MAX_STR_DIGITS)%nat) by (vm_compute; lia).
  split; [reflexivity|]. split; [vm_compute; discriminate|]. split; [reflexivity|].
  split; [exact Hlen|]. split; [reflexivity|].
  apply (book_appointment_returns set_list_first seed_world "tomorrow" "10.30 am"
           (Some "Skin Fade") "Ann" "555-0100" "ann@example.org" (Some "10:30"));
    [reflexivity | vm_compute; discriminate | reflexivity | exact Hlen | reflexivity].
Defined.

(** X29. With the clock at a date of the calendar at least seven days
    before 9999-12-31, [get_hours] returns an answer for every date
    phrase and whatever the opening hours hold: the parse error, or a date
    with its closed flag set one way or the other. *)
Theorem get_hours_returns (w : World) (date_phrase : option string) :
  valid_datetime (now w) = true -> toordinal (now w) + 7 <= MAXORDINAL ->
  exists hr,
    get_hours w date_phrase = Ok hr /\
    ((h_error hr = Some MSG_PARSE /\ h_date hr = None /\ h_closed hr = None) \/
     (h_error hr = None /\ exists d b, h_date hr = Some d /\ h_closed hr = Some b)).
Proof.
  intros Hv Hord. unfold get_hours.
  destruct (parse_total (or_today (default "" date_phrase)) (now w) Hv Hord) as [[dt|] ->];
    cbn [bind].
  - destruct (lookup_ranges _ _ _) as [|r0 l].
    + eexists. split; [reflexivity|]. right. cbn. eauto.
    + eexists. split; [reflexivity|]. right. cbn. eauto.
  - eexists. split; [reflexivity|]. left. cbn. auto.
Qed.

Lemma get_hours_returns_witness :
  valid_datetime (now malformed_hours_world) = true /\
  toordinal (now malformed_hours_world) + 7 <= MAXORDINAL /\
  exists hr,
    get_hours malformed_hours_world (Some "tue") = Ok hr /\
    ((h_error hr = Some MSG_PARSE /\ h_date hr = None /\ h_closed hr = None) \/
     (h_error hr = None /\ exists d b, h_date hr = Some d /\ h_closed hr = Some b)).
Proof.
  split; [reflexivity|]. split; [vm_compute; discriminate|].
  apply (get_hours_returns malformed_hours_world (Some "tue"));
    [reflexivity | vm_compute; discriminate].
Defined.

(** ** A daypart word in the phrase *)

(** X30. A daypart word inside the date phrase acts as the daypart
    argument would: when nothing more is found in what is left of the
    phrase, [check_availability] answers as it does for what is left,
    called with the window in force, which is the argument when one is
    passed and the window of the word otherwise. *)
Theorem embedded_daypart_is_argument (w : World) (phrase : string)
    (service_name : option string) (limit : Z) (daypart : option (string * string)) :
  extract_daypart (fst (extract_daypart phrase)) = (fst (extract_daypart phrase), None) ->
  check_availability w (Some phrase) service_name limit daypart
  = check_availability w (Some (fst (extract_daypart phrase))) service_name limit
                       (daypart_used (Some phrase) daypart).
Proof.
  intros Hc. unfold check_availability, daypart_used.
  change (default "" (Some phrase)) with phrase.
  change (default "" (Some (fst (extract_daypart phrase))))
    with (fst (extract_daypart phrase)).
  rewrite Hc. destruct (extract_daypart phrase) as [c e]. cbn [fst snd].
  destruct e as [e|], daypart as [p|]; reflexivity.
Qed.

Lemma embedded_daypart_is_argument_witness :
  extract_daypart (fst (extract_daypart "Tomorrow Afternoon"))
  = (fst (extract_daypart "Tomorrow Afternoon"), None) /\
  check_availability seed_world (Some "Tomorrow Afternoon") (Some "Beard Trim") 2 None
  = check_availability seed_world (Some (fst (extract_daypart "Tomorrow Afternoon")))
                       (Some "Beard Trim") 2
                       (daypart_used (Some "Tomorrow Afternoon") None).
Proof.
  split; [reflexivity|].
  apply (embedded_daypart_is_argument seed_world "Tomorrow Afternoon" (Some "Beard Trim") 2
           None).
  reflexivity.
Defined.
